(** * Verification of the consensus decision engine and metrics aggregator

    Shallow embedding of the Python sources
      - [robust_evaluator.py] and [run_robust_evaluation.py] (the script variant),
      - [libs/langchain_robust_evaluator] (the packaged variant),
      - [evaluate_calls.py] and [libs/example_usage.py] (the single-pass
        baseline and the category extraction of the example).

    Python values are modelled by the inductive [pyval] (the JSON fragment
    of Python: the parsers return [json.loads] of a model response).
    Floats are left out of [pyval]; the quotients of the metrics are exact
    rationals.  Exceptions are modelled by the error monad [pyres]. *)

From Stdlib Require Import String Ascii List ZArith QArith Bool Arith Lia Lqa.
From Stdlib Require OrderedTypeEx Sorted.
Import ListNotations.

Set Warnings "-register-all".
Local Close Scope Q_scope.
Local Open Scope nat_scope.
Local Open Scope string_scope.
Local Open Scope list_scope.

(** ** Python values and exceptions *)

Module Py.

Inductive pyval : Type :=
| PNone
| PBool (b : bool)
| PInt (n : Z)
| PStr (s : string)
| PList (xs : list pyval)
| PDict (kvs : list (string * pyval)).

(** The builtin exceptions the modelled code can raise; [ModelError] stands
    for any failure of the external text-generation call. *)
Inductive pyexn : Type :=
| KeyError
| IndexError
| AttributeError
| TypeError
| ZeroDivisionError
| ModelError.

Inductive pyres (A : Type) : Type :=
| Ok (a : A)
| Raise (e : pyexn).

Arguments Ok {A} a.
Arguments Raise {A} e.

Definition bind {A B : Type} (m : pyres A) (k : A -> pyres B) : pyres B :=
  match m with
  | Ok a => k a
  | Raise e => Raise e
  end.

(** [try: body  except Exception: handler] *)
Definition try_except {A : Type} (body : pyres A) (handler : pyexn -> pyres A)
  : pyres A :=
  match body with
  | Ok a => Ok a
  | Raise e => handler e
  end.

(** *** Dictionaries: association lists, first binding wins *)

Fixpoint dict_lookup {A : Type} (kvs : list (string * A)) (k : string) : option A :=
  match kvs with
  | [] => None
  | (k', v) :: rest => if String.eqb k k' then Some v else dict_lookup rest k
  end.

(** [d[k] = v] on a dictionary: overwrite in place, or append. *)
Fixpoint dict_set {A : Type} (kvs : list (string * A)) (k : string) (v : A)
  : list (string * A) :=
  match kvs with
  | [] => [(k, v)]
  | (k', v') :: rest =>
      if String.eqb k k' then (k', v) :: rest else (k', v') :: dict_set rest k v
  end.

(** [x is None] *)
Definition is_none (v : pyval) : bool :=
  match v with PNone => true | _ => false end.

(** [isinstance(x, dict)] *)
Definition is_dict (v : pyval) : bool :=
  match v with PDict _ => true | _ => false end.

(** [bool(x)] *)
Definition truthy (v : pyval) : bool :=
  match v with
  | PNone => false
  | PBool b => b
  | PInt n => negb (Z.eqb n 0)
  | PStr s => negb (String.eqb s "")
  | PList xs => match xs with [] => false | _ => true end
  | PDict kvs => match kvs with [] => false | _ => true end
  end.

(** [a == b].  [True == 1] and [False == 0] hold in Python; lists compare
    element-wise and dictionaries key-wise. *)
Fixpoint eq (a b : pyval) {struct a} : bool :=
  match a, b with
  | PNone, PNone => true
  | PBool x, PBool y => Bool.eqb x y
  | PBool x, PInt y => Z.eqb (Z.b2z x) y
  | PInt x, PBool y => Z.eqb x (Z.b2z y)
  | PInt x, PInt y => Z.eqb x y
  | PStr x, PStr y => String.eqb x y
  | PList xs, PList ys =>
      (fix eq_list (xs ys : list pyval) {struct xs} : bool :=
         match xs, ys with
         | [], [] => true
         | x :: xs', y :: ys' => eq x y && eq_list xs' ys'
         | _, _ => false
         end) xs ys
  | PDict d1, PDict d2 =>
      Nat.eqb (length d1) (length d2) &&
      (fix eq_items (d : list (string * pyval)) {struct d} : bool :=
         match d with
         | [] => true
         | (k, v) :: d' =>
             (fix find (e : list (string * pyval)) {struct e} : bool :=
                match e with
                | [] => false
                | (k', w) :: e' => if String.eqb k k' then eq v w else find e'
                end) d2
             && eq_items d'
         end) d1
  | _, _ => false
  end.

(** [x in xs] for a list of strings [xs]: some element equals [x]. *)
Definition in_strs (v : pyval) (xs : list string) : bool :=
  existsb (fun s => eq v (PStr s)) xs.

(** [d.get(k, default)]; only dictionaries have a [get] method. *)
Definition get (d : pyval) (k : string) (default : pyval) : pyres pyval :=
  match d with
  | PDict kvs =>
      match dict_lookup kvs k with
      | Some v => Ok v
      | None => Ok default
      end
  | _ => Raise AttributeError
  end.

(** [d[k]] with a string key [k]. *)
Definition subscript (d : pyval) (k : string) : pyres pyval :=
  match d with
  | PDict kvs =>
      match dict_lookup kvs k with
      | Some v => Ok v
      | None => Raise KeyError
      end
  | _ => Raise TypeError
  end.

(** *** Strings: sequences of characters with code points below 256 *)

(** [sub in s] on strings. *)
Fixpoint str_contains (sub s : string) : bool :=
  String.prefix sub s ||
  match s with
  | EmptyString => false
  | String _ s' => str_contains sub s'
  end.

(** [c.isspace()] *)
Definition is_space (c : ascii) : bool :=
  let n := nat_of_ascii c in
  (((9 <=? n) && (n <=? 13)) || ((28 <=? n) && (n <=? 32))
   || (n =? 133) || (n =? 160))%nat.

(** [c.lower()]: the upper-case letters are A-Z and the Latin-1 range
    192-222 without the multiplication sign 215. *)
Definition lower_char (c : ascii) : ascii :=
  let n := nat_of_ascii c in
  if (((65 <=? n) && (n <=? 90))
      || ((192 <=? n) && (n <=? 222) && negb (n =? 215)))%nat
  then ascii_of_nat (n + 32) else c.

(** [s.lower()] *)
Fixpoint lower (s : string) : string :=
  match s with
  | EmptyString => EmptyString
  | String c s' => String (lower_char c) (lower s')
  end.

(** [s.lstrip()] *)
Fixpoint lstrip (s : string) : string :=
  match s with
  | EmptyString => EmptyString
  | String c s' => if is_space c then lstrip s' else s
  end.

(** [s.rstrip()] *)
Fixpoint rstrip (s : string) : string :=
  match s with
  | EmptyString => EmptyString
  | String c s' =>
      match rstrip s' with
      | EmptyString => if is_space c then EmptyString else String c EmptyString
      | r => String c r
      end
  end.

(** [s.strip()] *)
Definition strip (s : string) : string := rstrip (lstrip s).

(** [k in d] for a string [k]: key membership in a dictionary, element
    membership in a list, substring test in a string. *)
Definition contains_key (d : pyval) (k : string) : pyres bool :=
  match d with
  | PDict kvs => Ok (match dict_lookup kvs k with Some _ => true | None => false end)
  | PList xs => Ok (existsb (fun x => eq (PStr k) x) xs)
  | PStr s => Ok (str_contains k s)
  | _ => Raise TypeError
  end.

(** [d[k] = v] *)
Definition set_item (d : pyval) (k : string) (v : pyval) : pyres pyval :=
  match d with
  | PDict kvs => Ok (PDict (dict_set kvs k v))
  | _ => Raise TypeError
  end.

(** [xs[i]] on a Python list, for an index [0 <= i]. *)
Definition index {A : Type} (xs : list A) (i : nat) : pyres A :=
  match nth_error xs i with
  | Some x => Ok x
  | None => Raise IndexError
  end.

(** [xs[:limit]] *)
Definition slice_to {A : Type} (xs : list A) (limit : Z) : list A :=
  if (0 <=? limit)%Z then firstn (Z.to_nat limit) xs
  else firstn (length xs - Z.to_nat (- limit)) xs.

End Py.

Import Py.

Notation "x <- m ;; k" := (bind m (fun x => k))
  (at level 61, m at next level, right associativity).

(** The category list of the script variant. *)
Definition CALL_TYPES : list string :=
  [ "RESTORE"; "ABATEMENT"; "AMR (METERING)"; "BILLING"; "BPCS (BROKEN PIPE)";
    "BTR/O (BAD TASTE & ODOR)"; "C/I - DEP (CAVE IN/DEPRESSION)"; "CEMENT";
    "CHOKED DRAIN"; "CLAIMS"; "COMPOST" ].

(** Short-circuit [a or b] and [a and b] on conditions that may raise. *)
Definition por (a b : pyres bool) : pyres bool :=
  x <- a ;; if x then Ok true else b.

Definition pand (a b : pyres bool) : pyres bool :=
  x <- a ;; if x then b else Ok false.

(** ** Schema validator *)

(** [SchemaValidator.invoke] (parsers/schema_validator.py). *)
Definition SchemaValidator_invoke (categories : list string)
  (parsed_output : pyval) : pyres bool :=
  malformed <- por (Ok (negb (is_dict parsed_output)))
                   (has <- contains_key parsed_output "call_type" ;;
                    Ok (negb has)) ;;
  if malformed then Ok false
  else
    call_type <- subscript parsed_output "call_type" ;;
    Ok (is_none call_type || in_strs call_type categories).

(** [RobustCallClassifier.validate_call_type] (robust_evaluator.py): the same
    text, against the module constant [CALL_TYPES]. *)
Definition validate_call_type (parsed_output : pyval) : pyres bool :=
  malformed <- por (Ok (negb (is_dict parsed_output)))
                   (has <- contains_key parsed_output "call_type" ;;
                    Ok (negb has)) ;;
  if malformed then Ok false
  else
    call_type <- subscript parsed_output "call_type" ;;
    Ok (is_none call_type || in_strs call_type CALL_TYPES).

(** ** Consensus combiner *)

(** The verdicts the combiners build as dictionary literals. *)
Definition verdict_none_low : pyval :=
  PDict [("call_type", PNone); ("confidence", PStr "low");
         ("needs_human", PBool true)].

Definition verdict_with (call_type : pyval) (confidence : string) : pyval :=
  PDict [("call_type", call_type); ("confidence", PStr confidence)].

(** [StrategyCombiner] (combiners/strategy_combiner.py). The thresholds are
    a [Dict[str, float]]; the floats are written as rationals. *)
Record StrategyCombiner : Type := {
  confidence_thresholds : list (string * Q)
}.

(** [StrategyCombiner.__init__]: [confidence_thresholds or {...}]; an empty
    dictionary is falsy, as is [None]. *)
Definition StrategyCombiner_init (confidence_thresholds : option (list (string * Q)))
  : StrategyCombiner :=
  {| confidence_thresholds :=
       match confidence_thresholds with
       | Some (kv :: kvs) => kv :: kvs
       | _ => [("high", (8 # 10)%Q); ("medium", (5 # 10)%Q); ("low", (3 # 10)%Q)]
       end |}.

(** [StrategyCombiner.invoke]. *)
Definition StrategyCombiner_invoke (self : StrategyCombiner) (inputs : pyval)
  : pyres pyval :=
  parser_results <- subscript inputs "parser_results" ;;
  validation_result <- subscript inputs "validation_result" ;;
  primary_result <- get parser_results "primary" (PDict [("call_type", PNone)]) ;;
  backup_result <- get parser_results "backup" (PDict [("call_type", PNone)]) ;;
  negative_check <- get parser_results "negative" (PStr "yes") ;;
  if negb (truthy validation_result) then
    b <- get backup_result "call_type" PNone ;;
    if negb (is_none b) then
      call_type <- subscript backup_result "call_type" ;;
      Ok (verdict_with call_type "medium")
    else Ok verdict_none_low
  else
    contradicted <- pand (Ok (eq negative_check (PStr "no")))
                         (p <- get primary_result "call_type" PNone ;;
                          Ok (negb (is_none p))) ;;
    if contradicted then
      b <- get backup_result "call_type" PNone ;;
      if is_none b then Ok verdict_none_low
      else
        b' <- get backup_result "call_type" PNone ;;
        p <- get primary_result "call_type" PNone ;;
        if eq b' p then
          call_type <- get primary_result "call_type" PNone ;;
          Ok (verdict_with call_type "medium")
        else Ok verdict_none_low
    else
      agree <- pand (p <- get primary_result "call_type" PNone ;;
                     b <- get backup_result "call_type" PNone ;;
                     Ok (eq p b))
                    (p <- get primary_result "call_type" PNone ;;
                     Ok (negb (is_none p))) ;;
      if agree then
        call_type <- get primary_result "call_type" PNone ;;
        Ok (verdict_with call_type "high")
      else
        p <- get primary_result "call_type" PNone ;;
        if negb (is_none p) then
          call_type <- get primary_result "call_type" PNone ;;
          Ok (verdict_with call_type "medium")
        else Ok verdict_none_low.

(** [RobustCallClassifier.combine_results] (robust_evaluator.py). The
    [customer_input] argument is not used by the body. *)
Definition combine_results (primary_result backup_result negative_check
                            validation_result customer_input : pyval)
  : pyres pyval :=
  if negb (truthy validation_result) then
    backup_ok <- validate_call_type backup_result ;;
    if backup_ok then Ok backup_result
    else Ok verdict_none_low
  else
    contradicted <- pand (Ok (eq negative_check (PStr "no")))
                         (p <- subscript primary_result "call_type" ;;
                          Ok (negb (is_none p))) ;;
    if contradicted then
      b <- subscript backup_result "call_type" ;;
      if is_none b then Ok verdict_none_low
      else
        b' <- subscript backup_result "call_type" ;;
        p <- subscript primary_result "call_type" ;;
        if eq b' p then
          call_type <- subscript primary_result "call_type" ;;
          Ok (verdict_with call_type "medium")
        else Ok verdict_none_low
    else
      agree <- pand (p <- subscript primary_result "call_type" ;;
                     b <- subscript backup_result "call_type" ;;
                     Ok (eq p b))
                    (p <- subscript primary_result "call_type" ;;
                     Ok (negb (is_none p))) ;;
      if agree then
        call_type <- subscript primary_result "call_type" ;;
        Ok (verdict_with call_type "high")
      else
        p <- subscript primary_result "call_type" ;;
        if negb (is_none p) then
          call_type <- subscript primary_result "call_type" ;;
          Ok (verdict_with call_type "medium")
        else Ok verdict_none_low.

(** How every consumer reads a verdict: [result["call_type"]],
    [result.get("confidence", "unknown")], [result.get("needs_human", False)]
    (evaluator.py, run_robust_evaluation.py, example_usage.py). *)
Definition verdict_label (v : pyval) : pyres pyval := subscript v "call_type".

Definition verdict_confidence (v : pyval) : pyres pyval :=
  get v "confidence" (PStr "unknown").

Definition verdict_needs_human (v : pyval) : pyres bool :=
  h <- get v "needs_human" (PBool false) ;; Ok (truthy h).

(** The [inputs] dictionary [RobustEvaluator.invoke] hands to the combiner. *)
Definition combiner_inputs (parser_results validation_result input_text : pyval)
  : pyval :=
  PDict [("parser_results", parser_results);
         ("validation_result", validation_result);
         ("input_text", input_text)].

Definition three_opinions (primary backup negative : pyval) : pyval :=
  PDict [("primary", primary); ("backup", backup); ("negative", negative)].

(** ** Negative check *)

(** The interpretation rule of [NegativeChecker.invoke]
    (parsers/negative_checker.py) applied to [response.content]. *)
Definition NegativeChecker_interpret (content : string) : string :=
  let answer := lower (strip content) in
  if str_contains "yes" answer then "yes"
  else if str_contains "no" answer then "no"
  else "yes".

(** The same rule in [RobustCallClassifier.negative_checker]
    (robust_evaluator.py). *)
Definition negative_checker_interpret (content : string) : string :=
  let answer := lower (strip content) in
  if str_contains "yes" answer then "yes"
  else if str_contains "no" answer then "no"
  else "yes".

(** ** Metrics aggregator *)

Definition Q_of_nat (n : nat) : Q := inject_Z (Z.of_nat n).

(** [a / b] on numbers. *)
Definition true_div (a b : Q) : pyres Q :=
  if Qeq_bool b 0 then Raise ZeroDivisionError else Ok (a / b)%Q.

(** [sum(1 for x in xs if cond(x))] *)
Fixpoint count_if {A : Type} (xs : list A) (cond : A -> pyres bool) : pyres nat :=
  match xs with
  | [] => Ok 0
  | x :: rest =>
      b <- cond x ;;
      n <- count_if rest cond ;;
      Ok (if b then S n else n)
  end.

(** The conditional expression [num / den if den > 0 else 0] on counts; the
    sources write it out for the accuracy, the precision, the recall, the
    accuracy of a confidence tier and the human-review percentage. *)
Definition ratio_or_zero (num den : nat) : pyres Q :=
  if (0 <? den)%nat then true_div (Q_of_nat num) (Q_of_nat den) else Ok 0%Q.

(** [2 * (precision * recall) / (precision + recall)
     if (precision + recall) > 0 else 0] *)
Definition f1_or_zero (precision recall : Q) : pyres Q :=
  if negb (Qle_bool (precision + recall) 0)
  then true_div (2 * (precision * recall)) (precision + recall)
  else Ok 0%Q.

Record category_metric : Type := {
  cm_precision : Q;
  cm_recall : Q;
  cm_f1 : Q;
  cm_count : nat
}.

Record tier_metric : Type := {
  tm_count : nat;
  tm_correct : nat;
  tm_accuracy : Q
}.

Record MetricsReport : Type := {
  overall_accuracy : Q;
  mr_correct : nat;
  mr_total : nat;
  category_metrics : list (string * category_metric);
  confidence_metrics : list (string * tier_metric);
  human_review_count : nat;
  human_review_percentage : Q
}.

(** [calls[i]["type"]] and [results[i]["call_type"]] *)
Definition actual_at (calls : list pyval) (i : nat) : pyres pyval :=
  c <- index calls i ;; subscript c "type".

Definition predicted_at (results : list pyval) (i : nat) : pyres pyval :=
  r <- index results i ;; subscript r "call_type".

(** [calls[i]["type"] == results[i]["call_type"]] *)
Definition is_correct (calls results : list pyval) (i : nat) : pyres bool :=
  a <- actual_at calls i ;;
  p <- predicted_at results i ;;
  Ok (eq a p).

(** One iteration of [for call_type in categories]. *)
Definition category_metric_of (calls results : list pyval) (total : nat)
  (call_type : string) : pyres category_metric :=
  true_positives <-
    count_if (seq 0 total) (fun i =>
      pand (a <- actual_at calls i ;; Ok (eq a (PStr call_type)))
           (p <- predicted_at results i ;; Ok (eq p (PStr call_type)))) ;;
  false_negatives <-
    count_if (seq 0 total) (fun i =>
      pand (a <- actual_at calls i ;; Ok (eq a (PStr call_type)))
           (p <- predicted_at results i ;; Ok (negb (eq p (PStr call_type))))) ;;
  false_positives <-
    count_if (seq 0 total) (fun i =>
      pand (a <- actual_at calls i ;; Ok (negb (eq a (PStr call_type))))
           (p <- predicted_at results i ;; Ok (eq p (PStr call_type)))) ;;
  precision <- ratio_or_zero true_positives (true_positives + false_positives) ;;
  recall <- ratio_or_zero true_positives (true_positives + false_negatives) ;;
  f1 <- f1_or_zero precision recall ;;
  Ok {| cm_precision := precision; cm_recall := recall; cm_f1 := f1;
        cm_count := true_positives + false_negatives |}.

Fixpoint category_loop (calls results : list pyval) (total : nat)
  (categories : list string) (category_metrics : list (string * category_metric))
  : pyres (list (string * category_metric)) :=
  match categories with
  | [] => Ok category_metrics
  | call_type :: rest =>
      m <- category_metric_of calls results total call_type ;;
      category_loop calls results total rest (dict_set category_metrics call_type m)
  end.

(** [confidence in confidence_metrics]: hashing a list or a dictionary
    raises; the keys are strings. *)
Definition tier_known {A : Type} (confidence : pyval)
  (confidence_metrics : list (string * A)) : pyres bool :=
  match confidence with
  | PStr s => Ok (match dict_lookup confidence_metrics s with
                  | Some _ => true | None => false end)
  | PList _ | PDict _ => Raise TypeError
  | _ => Ok false
  end.

Definition tier_bump (confidence : pyval) (hit : bool)
  (confidence_metrics : list (string * (nat * nat))) : list (string * (nat * nat)) :=
  match confidence with
  | PStr s =>
      match dict_lookup confidence_metrics s with
      | Some (count, correct) =>
          dict_set confidence_metrics s (S count, if hit then S correct else correct)
      | None => confidence_metrics
      end
  | _ => confidence_metrics
  end.

(** The loop [for i in range(total)] over the confidence tiers. *)
Fixpoint tier_loop (calls results : list pyval) (idx : list nat)
  (confidence_metrics : list (string * (nat * nat)))
  : pyres (list (string * (nat * nat))) :=
  match idx with
  | [] => Ok confidence_metrics
  | i :: rest =>
      r <- index results i ;;
      confidence <- get r "confidence" (PStr "unknown") ;;
      known <- tier_known confidence confidence_metrics ;;
      if known then
        hit <- is_correct calls results i ;;
        tier_loop calls results rest (tier_bump confidence hit confidence_metrics)
      else tier_loop calls results rest confidence_metrics
  end.

(** The loop [for confidence, metrics in confidence_metrics.items()]. *)
Fixpoint tier_accuracy (confidence_metrics : list (string * (nat * nat)))
  : pyres (list (string * tier_metric)) :=
  match confidence_metrics with
  | [] => Ok []
  | (confidence, (count, correct)) :: rest =>
      accuracy <- ratio_or_zero correct count ;;
      rest' <- tier_accuracy rest ;;
      Ok ((confidence, {| tm_count := count; tm_correct := correct;
                          tm_accuracy := accuracy |}) :: rest')
  end.

(** The body shared, word for word, by [EvaluationMetrics.invoke]
    (metrics/evaluation_metrics.py) and [evaluate_accuracy]
    (run_robust_evaluation.py). *)
Definition aggregate (calls results : list pyval) (categories : list string)
  : pyres MetricsReport :=
  let total := length calls in
  correct <- count_if (seq 0 total) (is_correct calls results) ;;
  accuracy <- ratio_or_zero correct total ;;
  category_metrics <- category_loop calls results total categories [] ;;
  counted <- tier_loop calls results (seq 0 total)
               [("high", (0, 0)); ("medium", (0, 0)); ("low", (0, 0));
                ("unknown", (0, 0))] ;;
  confidence_metrics <- tier_accuracy counted ;;
  needs_human_count <-
    count_if results (fun result =>
      h <- get result "needs_human" (PBool false) ;; Ok (truthy h)) ;;
  needs_human_percentage <- ratio_or_zero needs_human_count total ;;
  Ok {| overall_accuracy := accuracy;
        mr_correct := correct;
        mr_total := total;
        category_metrics := category_metrics;
        confidence_metrics := confidence_metrics;
        human_review_count := needs_human_count;
        human_review_percentage := needs_human_percentage |}.

(** The [inputs] dictionary of [EvaluationMetrics.invoke]; [categories] is
    read with [inputs.get("categories", [])]. *)
Record metrics_inputs : Type := {
  mi_calls : list pyval;
  mi_results : list pyval;
  mi_categories : option (list string)
}.

Definition EvaluationMetrics_invoke (inputs : metrics_inputs) : pyres MetricsReport :=
  aggregate (mi_calls inputs) (mi_results inputs)
            (match mi_categories inputs with Some c => c | None => [] end).

Definition evaluate_accuracy (calls results : list pyval) : pyres MetricsReport :=
  aggregate calls results CALL_TYPES.

(** ** Evaluation runner (evaluator.py) *)

(** A [RobustEvaluator] built with the default validator and combiner.
    The parsers call the external model; each is a function from the input
    text to its opinion, which may raise. *)
Record RobustEvaluator : Type := {
  categories : list string;
  parsers : list (string * (pyval -> pyres pyval));
  combiner : StrategyCombiner
}.

(** [for name, parser in self.parsers.items():
       parser_results[name] = parser.invoke(input_text)] *)
Fixpoint run_parsers (ps : list (string * (pyval -> pyres pyval)))
  (input_text : pyval) (parser_results : list (string * pyval))
  : pyres (list (string * pyval)) :=
  match ps with
  | [] => Ok parser_results
  | (name, parser) :: rest =>
      r <- parser input_text ;;
      run_parsers rest input_text (dict_set parser_results name r)
  end.

(** [RobustEvaluator.invoke] *)
Definition RobustEvaluator_invoke (self : RobustEvaluator) (input_text : pyval)
  : pyres pyval :=
  parser_results <- run_parsers (parsers self) input_text [] ;;
  primary <- get (PDict parser_results) "primary" (PDict []) ;;
  validation_result <- SchemaValidator_invoke (categories self) primary ;;
  combined_result <-
    StrategyCombiner_invoke (combiner self)
      (combiner_inputs (PDict parser_results) (PBool validation_result) input_text) ;;
  set_item combined_result "_debug"
    (PDict [("parser_results", PDict parser_results);
            ("validation_result", PBool validation_result)]).

(** The body of the [try] block of [batch_evaluate] after [self.invoke]. *)
Definition clean_result_of (call customer_input actual_type result : pyval)
  : pyres pyval :=
  id <- get call "id" (PStr "") ;;
  call_type <- subscript result "call_type" ;;
  confidence <- get result "confidence" (PStr "unknown") ;;
  needs_human <- get result "needs_human" (PBool false) ;;
  predicted <- subscript result "call_type" ;;
  let clean_result :=
    [("id", id); ("customer_input", customer_input);
     ("actual_type", actual_type); ("call_type", call_type);
     ("confidence", confidence); ("needs_human", needs_human);
     ("correct", PBool (eq actual_type predicted))] in
  has_debug <- contains_key result "_debug" ;;
  if has_debug then
    debug <- subscript result "_debug" ;;
    prs1 <- get debug "parser_results" (PDict []) ;;
    primary <- get prs1 "primary" (PDict []) ;;
    primary_label <- get primary "call_type" PNone ;;
    prs2 <- get debug "parser_results" (PDict []) ;;
    backup <- get prs2 "backup" (PDict []) ;;
    backup_label <- get backup "call_type" PNone ;;
    prs3 <- get debug "parser_results" (PDict []) ;;
    negative <- get prs3 "negative" (PStr "") ;;
    validation <- get debug "validation_result" (PBool false) ;;
    Ok (PDict (dict_set clean_result "debug"
                 (PDict [("primary_result", primary_label);
                         ("backup_result", backup_label);
                         ("negative_check", negative);
                         ("validation_result", validation)])))
  else Ok (PDict clean_result).

(** The loop [for call in calls] with its [try ... except Exception]. *)
Fixpoint batch_loop (self : RobustEvaluator) (calls results : list pyval)
  : pyres (list pyval) :=
  match calls with
  | [] => Ok results
  | call :: rest =>
      customer_input <- subscript call "customer_input" ;;
      actual_type <- subscript call "type" ;;
      results' <-
        try_except
          (result <- RobustEvaluator_invoke self customer_input ;;
           clean_result <- clean_result_of call customer_input actual_type result ;;
           Ok (results ++ [clean_result]))
          (fun _ => Ok results) ;;
      batch_loop self rest results'
  end.

Record batch_report : Type := {
  br_results : list pyval;
  br_metrics : MetricsReport
}.

(** [RobustEvaluator.batch_evaluate] *)
Definition batch_evaluate (self : RobustEvaluator) (calls : list pyval)
  (limit : option Z) : pyres batch_report :=
  let calls := match limit with
               | Some l => slice_to calls l
               | None => calls
               end in
  results <- batch_loop self calls [] ;;
  metrics <- EvaluationMetrics_invoke
               {| mi_calls := calls; mi_results := results;
                  mi_categories := Some (categories self) |} ;;
  Ok {| br_results := results; br_metrics := metrics |}.

(** ** Parsers: interpretation of the model response *)

(** The [except json.JSONDecodeError] branch of [PrimaryParser.invoke] and
    [BackupParser.invoke] (and of [primary_parser], [backup_parser] in
    robust_evaluator.py): the first category, in list order, that occurs in
    [response.content]. *)
Fixpoint fallback_search (categories : list string) (content : string) : pyval :=
  match categories with
  | [] => PDict [("call_type", PNone)]
  | call_type :: rest =>
      if str_contains call_type content
      then PDict [("call_type", PStr call_type)]
      else fallback_search rest content
  end.

(** The [try ... except] of the parsers applied to [response.content].
    [json_loads] stands for the library function [json.loads]: [None] is a
    [JSONDecodeError]. *)
Definition parser_interpret (json_loads : string -> option pyval)
  (categories : list string) (content : string) : pyval :=
  match json_loads (strip content) with
  | Some result => result
  | None => fallback_search categories content
  end.

(** ** The script run_robust_evaluation.py *)

(** The body of the [try] block of [main] after [classifier.classify]. *)
Definition run_robust_clean_result (call customer_input actual_type result : pyval)
  : pyres pyval :=
  id <- subscript call "id" ;;
  call_type <- subscript result "call_type" ;;
  confidence <- get result "confidence" (PStr "unknown") ;;
  needs_human <- get result "needs_human" (PBool false) ;;
  predicted <- subscript result "call_type" ;;
  let clean_result :=
    [("id", id); ("customer_input", customer_input);
     ("actual_type", actual_type); ("call_type", call_type);
     ("confidence", confidence); ("needs_human", needs_human);
     ("correct", PBool (eq actual_type predicted))] in
  has_debug <- contains_key result "_debug" ;;
  if has_debug then
    debug <- subscript result "_debug" ;;
    primary <- get debug "primary_result" (PDict []) ;;
    primary_label <- get primary "call_type" PNone ;;
    backup <- get debug "backup_result" (PDict []) ;;
    backup_label <- get backup "call_type" PNone ;;
    negative <- get debug "negative_check" (PStr "") ;;
    validation <- get debug "validation_result" (PBool false) ;;
    Ok (PDict (dict_set clean_result "debug"
                 (PDict [("primary_result", primary_label);
                         ("backup_result", backup_label);
                         ("negative_check", negative);
                         ("validation_result", validation)])))
  else Ok (PDict clean_result).

(** The loop [for i, call in enumerate(calls)] of [main]; [classify] is
    [classifier.classify], which calls the external model. *)
Fixpoint run_robust_loop (classify : pyval -> pyres pyval)
  (calls results : list pyval) : pyres (list pyval) :=
  match calls with
  | [] => Ok results
  | call :: rest =>
      customer_input <- subscript call "customer_input" ;;
      actual_type <- subscript call "type" ;;
      results' <-
        try_except
          (result <- classify customer_input ;;
           clean_result <-
             run_robust_clean_result call customer_input actual_type result ;;
           Ok (results ++ [clean_result]))
          (fun _ => Ok results) ;;
      run_robust_loop classify rest results'
  end.

(** [main] between loading the calls and writing the report:
    [if args.limit: calls = calls[:args.limit]], the loop, the metrics. *)
Definition run_robust_main (classify : pyval -> pyres pyval)
  (calls : list pyval) (limit : option Z) : pyres batch_report :=
  let calls := match limit with
               | Some l => if (l =? 0)%Z then calls else slice_to calls l
               | None => calls
               end in
  results <- run_robust_loop classify calls [] ;;
  accuracy_metrics <- evaluate_accuracy calls results ;;
  Ok {| br_results := results; br_metrics := accuracy_metrics |}.

(** ** The script evaluate_calls.py *)

Module EvaluateCalls.

(** The loop of [classify_with_anthropic] over [CALL_TYPES] and its final
    [return predicted_type]. *)
Fixpoint match_call_type (call_types : list string) (predicted_type : string)
  : string :=
  match call_types with
  | [] => predicted_type
  | call_type :: rest =>
      if str_contains call_type predicted_type then call_type
      else match_call_type rest predicted_type
  end.

(** [classify_with_anthropic] applied to [response.content]. *)
Definition classify_interpret (content : string) : string :=
  let predicted_type := strip content in
  match_call_type CALL_TYPES predicted_type.

Record report : Type := {
  overall_accuracy : Q;
  correct : nat;
  total : nat;
  category_metrics : list (string * category_metric)
}.

(** [calls[i]["type"] == predictions[i]] *)
Definition is_correct (calls predictions : list pyval) (i : nat) : pyres bool :=
  a <- actual_at calls i ;;
  p <- index predictions i ;;
  Ok (eq a p).

Definition category_metric_of (calls predictions : list pyval) (total : nat)
  (call_type : string) : pyres category_metric :=
  true_positives <-
    count_if (seq 0 total) (fun i =>
      pand (a <- actual_at calls i ;; Ok (eq a (PStr call_type)))
           (p <- index predictions i ;; Ok (eq p (PStr call_type)))) ;;
  false_negatives <-
    count_if (seq 0 total) (fun i =>
      pand (a <- actual_at calls i ;; Ok (eq a (PStr call_type)))
           (p <- index predictions i ;; Ok (negb (eq p (PStr call_type))))) ;;
  false_positives <-
    count_if (seq 0 total) (fun i =>
      pand (a <- actual_at calls i ;; Ok (negb (eq a (PStr call_type))))
           (p <- index predictions i ;; Ok (eq p (PStr call_type)))) ;;
  precision <- ratio_or_zero true_positives (true_positives + false_positives) ;;
  recall <- ratio_or_zero true_positives (true_positives + false_negatives) ;;
  f1 <- f1_or_zero precision recall ;;
  Ok {| cm_precision := precision; cm_recall := recall; cm_f1 := f1;
        cm_count := true_positives + false_negatives |}.

Fixpoint category_loop (calls predictions : list pyval) (total : nat)
  (categories : list string) (category_metrics : list (string * category_metric))
  : pyres (list (string * category_metric)) :=
  match categories with
  | [] => Ok category_metrics
  | call_type :: rest =>
      m <- category_metric_of calls predictions total call_type ;;
      category_loop calls predictions total rest
        (dict_set category_metrics call_type m)
  end.

(** [evaluate_accuracy(calls, predictions)] of evaluate_calls.py. *)
Definition evaluate_accuracy (calls predictions : list pyval) : pyres report :=
  let total := length calls in
  correct <- count_if (seq 0 total) (is_correct calls predictions) ;;
  accuracy <- ratio_or_zero correct total ;;
  category_metrics <- category_loop calls predictions total CALL_TYPES [] ;;
  Ok {| overall_accuracy := accuracy; correct := correct; total := total;
        category_metrics := category_metrics |}.

(** The loop of [main]: [predictions.append] comes before the result
    record is built, so a failure in between leaves the prediction in. *)
Fixpoint main_loop (classify : pyval -> pyres pyval)
  (calls predictions results : list pyval) : pyres (list pyval * list pyval) :=
  match calls with
  | [] => Ok (predictions, results)
  | call :: rest =>
      customer_input <- subscript call "customer_input" ;;
      actual_type <- subscript call "type" ;;
      match classify customer_input with
      | Raise _ => main_loop classify rest predictions results
      | Ok predicted_type =>
          let predictions' := predictions ++ [predicted_type] in
          match subscript call "id" with
          | Raise _ => main_loop classify rest predictions' results
          | Ok id =>
              main_loop classify rest predictions'
                (results ++
                 [PDict [("id", id); ("customer_input", customer_input);
                         ("actual_type", actual_type);
                         ("predicted_type", predicted_type);
                         ("correct", PBool (eq actual_type predicted_type))]])
          end
      end
  end.

(** [main] between loading the calls and writing the report. *)
Definition main (classify : pyval -> pyres pyval) (calls : list pyval)
  (limit : option Z) : pyres (list pyval * report) :=
  let calls := match limit with
               | Some l => if (l =? 0)%Z then calls else slice_to calls l
               | None => calls
               end in
  pr <- main_loop classify calls [] [] ;;
  accuracy_metrics <- evaluate_accuracy calls (fst pr) ;;
  Ok (snd pr, accuracy_metrics).

End EvaluateCalls.

(** ** The script libs/example_usage.py *)

(** [hash(v)] does not raise: lists and dictionaries are unhashable. *)
Definition hashable (v : pyval) : bool :=
  match v with
  | PList _ | PDict _ => false
  | _ => true
  end.

(** [set(call["type"] for call in calls)]: the generator is consumed one
    call at a time, each type is hashed and added unless an equal element
    is already there. The elements are kept in insertion order; the order
    of a Python set is unspecified and [sorted] makes it irrelevant. *)
Fixpoint type_set (calls : list pyval) (seen : list pyval) : pyres (list pyval) :=
  match calls with
  | [] => Ok seen
  | call :: rest =>
      t <- subscript call "type" ;;
      if hashable t then
        if existsb (eq t) seen then type_set rest seen
        else type_set rest (seen ++ [t])
      else Raise TypeError
  end.

(** [a < b] on the hashable values: strings compare by code points,
    booleans and integers as numbers, every other pair raises. *)
Definition hashable_lt (a b : pyval) : pyres bool :=
  match a, b with
  | PStr x, PStr y => Ok (String.ltb x y)
  | PBool x, PBool y => Ok (Z.b2z x <? Z.b2z y)%Z
  | PBool x, PInt y => Ok (Z.b2z x <? y)%Z
  | PInt x, PBool y => Ok (x <? Z.b2z y)%Z
  | PInt x, PInt y => Ok (x <? y)%Z
  | _, _ => Raise TypeError
  end.

(** [sorted(xs)] on a list of pairwise different hashable values, by
    insertion; on such a list every sorting algorithm returns the same
    list or meets a pair that does not compare. *)
Fixpoint insert_sorted (x : pyval) (sorted : list pyval) : pyres (list pyval) :=
  match sorted with
  | [] => Ok [x]
  | y :: rest =>
      lt <- hashable_lt x y ;;
      if lt then Ok (x :: y :: rest)
      else (r <- insert_sorted x rest ;; Ok (y :: r))
  end.

Fixpoint py_sorted (xs : list pyval) : pyres (list pyval) :=
  match xs with
  | [] => Ok []
  | x :: rest => s <- py_sorted rest ;; insert_sorted x s
  end.

(** [extract_categories_from_data] *)
Definition extract_categories_from_data (calls : list pyval) : pyres (list pyval) :=
  types <- type_set calls [] ;;
  py_sorted types.

(** * Specification-level definitions *)

(** What the specification calls a well-formed opinion. *)
Definition well_formed (categories : list string) (v : pyval) : Prop :=
  exists kvs l,
    v = PDict kvs /\ dict_lookup kvs "call_type" = Some l /\
    (l = PNone \/ exists s, l = PStr s /\ In s categories).

(** A pattern without white space, such as "yes" and "no". *)
Fixpoint no_space (p : string) : bool :=
  match p with
  | EmptyString => true
  | String c p' => negb (is_space c) && no_space p'
  end.

(** The rule in the words of the specification: lower-case the response,
    then look for "yes", then for "no", else answer "yes". *)
Definition negative_rule (response : string) : string :=
  if str_contains "yes" (lower response) then "yes"
  else if str_contains "no" (lower response) then "no"
  else "yes".

(** The label of an opinion dictionary as [d.get("call_type")] reads it. *)
Definition label_of (kvs : list (string * pyval)) : pyval :=
  match dict_lookup kvs "call_type" with
  | Some v => v
  | None => PNone
  end.

(** The decision policy in the words of the specification: rule 1 (invalid
    primary), rule 2 (negative check contradicts extraction), rule 3
    (agreement), rule 4 (default). *)
Definition policy (primary_label backup_label negative : pyval) (valid : bool)
  : pyval :=
  if negb valid then
    if is_none backup_label then verdict_none_low
    else verdict_with backup_label "medium"
  else if eq negative (PStr "no") && negb (is_none primary_label) then
    if is_none backup_label then verdict_none_low
    else if eq backup_label primary_label then verdict_with primary_label "medium"
    else verdict_none_low
  else if eq primary_label backup_label && negb (is_none primary_label) then
    verdict_with primary_label "high"
  else if negb (is_none primary_label) then verdict_with primary_label "medium"
  else verdict_none_low.

(** Every verdict the packaged combiner builds has one of two shapes. *)
Inductive verdict_shape : pyval -> Prop :=
| shape_none_low : verdict_shape verdict_none_low
| shape_with (l : pyval) (c : string) :
    is_none l = false -> verdict_shape (verdict_with l c).

(** A combiner result read as the verdict {label, confidence, needs_human}. *)
Definition returns (r : pyres pyval) (label : pyval) (confidence : string)
  (needs_human : bool) : Prop :=
  exists v, r = Ok v /\
            verdict_label v = Ok label /\
            verdict_confidence v = Ok (PStr confidence) /\
            verdict_needs_human v = Ok needs_human.

(** A well-formed opinion with a label of CALL_TYPES. *)
Definition billing : pyval := PDict [("call_type", PStr "BILLING")].

(** An opinion whose label is outside CALL_TYPES fails validation. *)
Definition off_list : pyval := PDict [("call_type", PStr "WATER LEAK")].

(** The computation does not end in ZeroDivisionError. *)
Definition no_zde {A : Type} (m : pyres A) : Prop := m <> Raise ZeroDivisionError.

Definition zero_cm : category_metric :=
  {| cm_precision := 0%Q; cm_recall := 0%Q; cm_f1 := 0%Q; cm_count := 0 |}.

Definition zero_tm : tier_metric :=
  {| tm_count := 0; tm_correct := 0; tm_accuracy := 0%Q |}.

(** The all-zero report over a category list. *)
Definition zero_report (categories : list string) (r : MetricsReport) : Prop :=
  overall_accuracy r = 0%Q /\
  mr_correct r = 0 /\
  mr_total r = 0 /\
  (forall c, In c categories -> dict_lookup (category_metrics r) c = Some zero_cm) /\
  (forall c m, dict_lookup (category_metrics r) c = Some m -> m = zero_cm) /\
  confidence_metrics r =
    [("high", zero_tm); ("medium", zero_tm); ("low", zero_tm); ("unknown", zero_tm)] /\
  human_review_count r = 0 /\
  human_review_percentage r = 0%Q.

(** The category metrics of the empty batch. *)
Definition all_zero (d : list (string * category_metric)) : Prop :=
  forall c m, dict_lookup d c = Some m -> m = zero_cm.

Definition zeroed (categories : list string) (acc : list (string * category_metric))
  : list (string * category_metric) :=
  fold_left (fun a c => dict_set a c zero_cm) categories acc.

(** A call record with a ground-truth label; a result with a predicted one. *)
Definition has_type (call : pyval) : Prop := exists v, subscript call "type" = Ok v.

Definition has_label (result : pyval) : Prop :=
  exists v, subscript result "call_type" = Ok v.

(** A primary parser whose model call fails on one input text, and a
    two-call batch that contains that text. *)
Definition flaky_parser (text : pyval) : pyres pyval :=
  if eq text (PStr "the line drops") then Raise ModelError else Ok billing.

Definition flaky_evaluator : RobustEvaluator :=
  {| categories := ["BILLING"; "CLAIMS"];
     parsers := [("primary", flaky_parser);
                 ("backup", fun _ => Ok billing);
                 ("negative", fun _ => Ok (PStr "yes"))];
     combiner := StrategyCombiner_init None |}.

Definition two_calls : list pyval :=
  [PDict [("id", PStr "1"); ("customer_input", PStr "my bill is wrong");
          ("type", PStr "BILLING")];
   PDict [("id", PStr "2"); ("customer_input", PStr "the line drops");
          ("type", PStr "BILLING")]].

(** The two kinds of verdict of the packaged combiner: the null verdict, or
    a label that is not None at high or medium confidence. *)
Definition tiered (v : pyval) : Prop :=
  v = verdict_none_low \/
  exists l c, v = verdict_with l c /\ is_none l = false /\
              (c = "high" \/ c = "medium").

(** The computation returns a value. *)
Definition succeeds {A : Type} (m : pyres A) : Prop := exists a, m = Ok a.

(** A result record the aggregator can read: a dictionary with the key
    call_type whose confidence, when present, is hashable. *)
Definition result_ok (r : pyval) : Prop :=
  exists kvs l,
    r = PDict kvs /\ dict_lookup kvs "call_type" = Some l /\
    (forall c, dict_lookup kvs "confidence" = Some c -> hashable c = true).

(** The number of call records whose ground-truth type equals a category. *)
Definition support (calls : list pyval) (call_type : string) : nat :=
  length (filter (fun call =>
                    match subscript call "type" with
                    | Ok a => eq a (PStr call_type)
                    | Raise _ => false
                    end) calls).

(** A rate between 0 and 1. *)
Definition unit_rate (q : Q) : Prop := (0 <= q)%Q /\ (q <= 1)%Q.

(** Sample records for the aggregators. *)
Definition sample_result : pyval :=
  PDict [("call_type", PStr "BILLING"); ("confidence", PStr "high")].

(** The four buckets of the confidence metrics. *)
Definition tier_names : list string := ["high"; "medium"; "low"; "unknown"].

(** The confidence a result is counted under,
    [result.get("confidence", "unknown")], names one of the buckets. *)
Definition known_tier (result : pyval) : bool :=
  match get result "confidence" (PStr "unknown") with
  | Ok (PStr s) => existsb (String.eqb s) tier_names
  | _ => false
  end.

(** The sum of the counts of the buckets, during the loop and in the
    report. *)
Definition pair_total (d : list (string * (nat * nat))) : nat :=
  fold_right (fun kv n => fst (snd kv) + n) 0 d.

Definition tier_total (d : list (string * tier_metric)) : nat :=
  fold_right (fun kv n => tm_count (snd kv) + n) 0 d.

(** A call record the runner can read: a dictionary with the keys
    customer_input and type. *)
Definition call_ok (call : pyval) : Prop :=
  exists kvs ci ty,
    call = PDict kvs /\ dict_lookup kvs "customer_input" = Some ci /\
    dict_lookup kvs "type" = Some ty.

(** What a result record of [batch_evaluate] holds: the predicted label,
    a tier that fits it, the review flag, and the comparison with the
    ground truth. *)
Definition clean_inv (r : pyval) : Prop :=
  exists kvs actual l c,
    r = PDict kvs /\
    dict_lookup kvs "actual_type" = Some actual /\
    dict_lookup kvs "call_type" = Some l /\
    dict_lookup kvs "confidence" = Some (PStr c) /\
    dict_lookup kvs "needs_human" = Some (PBool (is_none l)) /\
    dict_lookup kvs "correct" = Some (PBool (eq actual l)) /\
    ((l = PNone /\ c = "low") \/ (l <> PNone /\ (c = "high" \/ c = "medium"))).

(** An evaluator with the three default parser names, each given by the
    opinion it returns for an input text. *)
Definition evaluator_of (categories : list string)
  (primary backup negative : pyval -> pyres pyval) : RobustEvaluator :=
  {| categories := categories;
     parsers := [("primary", primary); ("backup", backup); ("negative", negative)];
     combiner := StrategyCombiner_init None |}.

(** A call record whose type is a string. *)
Definition str_typed (call : pyval) : Prop :=
  exists s, subscript call "type" = Ok (PStr s).

(** The order of Python strings: by code points, position by position. *)
Definition str_lt : string -> string -> Prop :=
  OrderedTypeEx.String_as_OT.lt.

(** A classifier for evaluate_calls.py whose model call fails on one text. *)
Definition flaky_classify (text : pyval) : pyres pyval :=
  if eq text (PStr "the line drops") then Raise ModelError else Ok (PStr "BILLING").

(** The number of results, among the first len(calls), whose predicted
    label equals a category: the denominator TP + FP of the precision. *)
Definition predicted_support (calls results : list pyval) (call_type : string)
  : nat :=
  length (filter (fun result =>
                    match subscript result "call_type" with
                    | Ok p => eq p (PStr call_type)
                    | Raise _ => false
                    end) (firstn (length calls) results)).

(** Every quotient of a report over a batch is 0 when its denominator is
    0: the accuracy and the human-review percentage at len(calls) = 0, the
    precision of a category that was never predicted, the recall of a
    category without calls, the F1 at precision + recall = 0, the accuracy
    of a tier without results. *)
Definition quotient_guards (calls results : list pyval) (r : MetricsReport)
  : Prop :=
  (length calls = 0 ->
   overall_accuracy r = 0%Q /\ human_review_percentage r = 0%Q) /\
  (forall c m, In (c, m) (category_metrics r) ->
     (predicted_support calls results c = 0 -> cm_precision m = 0%Q) /\
     (support calls c = 0 -> cm_recall m = 0%Q) /\
     ((cm_precision m + cm_recall m == 0)%Q -> cm_f1 m = 0%Q)) /\
  (forall t m, In (t, m) (confidence_metrics r) ->
     tm_count m = 0 -> tm_accuracy m = 0%Q).

(** The result record that [batch_evaluate] builds for a call: the fields
    of the call, and the label, tier and review flag that
    [RobustEvaluator.invoke] returns on the call's text. *)
Definition record_of (self : RobustEvaluator) (call record : pyval) : Prop :=
  exists kvs id text actual v l c,
    record = PDict kvs /\
    get call "id" (PStr "") = Ok id /\
    subscript call "customer_input" = Ok text /\
    subscript call "type" = Ok actual /\
    RobustEvaluator_invoke self text = Ok v /\
    verdict_label v = Ok l /\
    verdict_confidence v = Ok (PStr c) /\
    verdict_needs_human v = Ok (is_none l) /\
    dict_lookup kvs "id" = Some id /\
    dict_lookup kvs "customer_input" = Some text /\
    dict_lookup kvs "actual_type" = Some actual /\
    dict_lookup kvs "call_type" = Some l /\
    dict_lookup kvs "confidence" = Some (PStr c) /\
    dict_lookup kvs "needs_human" = Some (PBool (is_none l)) /\
    dict_lookup kvs "correct" = Some (PBool (eq actual l)) /\
    ((l = PNone /\ c = "low") \/ (l <> PNone /\ (c = "high" \/ c = "medium"))).

(** * Properties *)

(** ** Python equality against a string *)

Lemma eq_PStr_true (v : pyval) (s : string) :
  eq v (PStr s) = true <-> v = PStr s.
Proof.
  destruct v; simpl; split; intro H; try discriminate.
  - apply String.eqb_eq in H. now subst.
  - injection H as ->. apply String.eqb_refl.
Qed.

Lemma in_strs_spec (v : pyval) (xs : list string) :
  in_strs v xs = true <-> exists s, v = PStr s /\ In s xs.
Proof.
  unfold in_strs. rewrite existsb_exists. split.
  - intros (s & Hin & He). exists s. split; [now apply eq_PStr_true | exact Hin].
  - intros (s & Hv & Hin). exists s. split; [exact Hin | now apply eq_PStr_true].
Qed.

(** ** Schema validator *)

Lemma is_none_true (v : pyval) : is_none v = true <-> v = PNone.
Proof. destruct v; simpl; split; intro H; congruence. Qed.

Lemma label_ok_spec (categories : list string) (l : pyval) :
  is_none l || in_strs l categories = true <->
  (l = PNone \/ exists s, l = PStr s /\ In s categories).
Proof.
  rewrite orb_true_iff, is_none_true, in_strs_spec. tauto.
Qed.

Lemma SchemaValidator_invoke_spec (categories : list string) (v : pyval) :
  exists b, SchemaValidator_invoke categories v = Ok b /\
            (b = true <-> well_formed categories v).
Proof.
  unfold SchemaValidator_invoke, well_formed.
  destruct v as [| b | n | s | xs | kvs]; simpl;
    try (exists false; split; [reflexivity |];
         split; [discriminate | intros (k & l & H & _); discriminate]).
  destruct (dict_lookup kvs "call_type") as [l |] eqn:Hl; simpl.
  - exists (is_none l || in_strs l categories). split; [reflexivity |].
    rewrite label_ok_spec. split.
    + intro H. exists kvs, l. auto.
    + intros (k & l' & Hk & Hl' & H). injection Hk as <-.
      rewrite Hl in Hl'. injection Hl' as <-. exact H.
  - exists false. split; [reflexivity |]. split; [discriminate |].
    intros (k & l & Hk & Hl' & _). injection Hk as <-. congruence.
Qed.

(** C8. The schema validator never raises: on every Python value it returns
    a boolean, and that boolean is true exactly when the value is a
    dictionary that carries the key call_type with a value that is None
    or a member of the category list. Both the packaged validator and the
    script's validate_call_type (against CALL_TYPES) behave so. *)
Theorem validator_total_and_exact (categories : list string) (v : pyval) :
  (exists b, SchemaValidator_invoke categories v = Ok b /\
             (b = true <-> well_formed categories v)) /\
  (exists b, validate_call_type v = Ok b /\
             (b = true <-> well_formed CALL_TYPES v)).
Proof.
  split.
  - apply SchemaValidator_invoke_spec.
  - exact (SchemaValidator_invoke_spec CALL_TYPES v).
Qed.

(** ** Negative check *)

Lemma str_contains_empty (s : string) : str_contains "" s = true.
Proof. destruct s; reflexivity. Qed.

Lemma prefix_space_head (p : string) (c : ascii) (s : string) :
  no_space p = true -> p <> "" -> is_space c = true ->
  String.prefix p (String c s) = false.
Proof.
  intros Hp Hne Hc. destruct p as [| a p']; [congruence |].
  simpl in *. apply andb_true_iff in Hp as [Ha _].
  destruct (ascii_dec a c) as [-> | Hac]; [| reflexivity].
  rewrite Hc in Ha. discriminate.
Qed.

Lemma str_contains_lstrip (p s : string) :
  no_space p = true -> str_contains p (lstrip s) = str_contains p s.
Proof.
  intros Hp. destruct p as [| a p'].
  { now rewrite !str_contains_empty. }
  induction s as [| c s IH]; [reflexivity |].
  cbn [lstrip]. destruct (is_space c) eqn:Hc; [| reflexivity].
  rewrite IH. cbn [str_contains].
  rewrite prefix_space_head; [reflexivity | exact Hp | discriminate | exact Hc].
Qed.

Lemma prefix_rstrip (p s : string) :
  no_space p = true -> String.prefix p (rstrip s) = String.prefix p s.
Proof.
  revert p. induction s as [| c s IH]; intros p Hp; [reflexivity |].
  destruct p as [| a p']; [cbn [rstrip]; destruct (rstrip s); [destruct (is_space c) |]; reflexivity |].
  cbn [no_space] in Hp. apply andb_true_iff in Hp as [Ha Hp'].
  specialize (IH p' Hp').
  cbn [rstrip]. destruct (rstrip s) as [| r0 r] eqn:Hr.
  - destruct (is_space c) eqn:Hc.
    + simpl. destruct (ascii_dec a c) as [-> | _]; [| reflexivity].
      rewrite Hc in Ha. discriminate.
    + simpl. destruct (ascii_dec a c); [exact IH | reflexivity].
  - simpl. destruct (ascii_dec a c); [exact IH | reflexivity].
Qed.

Lemma str_contains_rstrip (p s : string) :
  no_space p = true -> str_contains p (rstrip s) = str_contains p s.
Proof.
  intros Hp. induction s as [| c s IH]; [reflexivity |].
  pose proof (prefix_rstrip p (String c s) Hp) as Hpre.
  cbn [rstrip] in *. destruct (rstrip s) as [| r0 r] eqn:Hr.
  - destruct (is_space c).
    + cbn [str_contains] in *. rewrite <- IH, <- Hpre.
      now rewrite orb_false_r, orb_diag.
    + cbn [str_contains] in *. now rewrite <- IH, <- Hpre.
  - cbn [str_contains] in *. now rewrite IH, Hpre.
Qed.

Lemma str_contains_strip (p s : string) :
  no_space p = true -> str_contains p (strip s) = str_contains p s.
Proof.
  intros Hp. unfold strip.
  now rewrite str_contains_rstrip, str_contains_lstrip.
Qed.

Lemma is_space_lower_char (c : ascii) : is_space (lower_char c) = is_space c.
Proof.
  destruct c as [[] [] [] [] [] [] [] []]; reflexivity.
Qed.

Lemma lower_lstrip (s : string) : lower (lstrip s) = lstrip (lower s).
Proof.
  induction s as [| c s IH]; [reflexivity |].
  cbn [lstrip lower]. rewrite is_space_lower_char.
  destruct (is_space c); [exact IH | reflexivity].
Qed.

Lemma lower_rstrip (s : string) : lower (rstrip s) = rstrip (lower s).
Proof.
  induction s as [| c s IH]; [reflexivity |].
  cbn [rstrip lower]. rewrite <- IH, is_space_lower_char.
  destruct (rstrip s); [destruct (is_space c) |]; reflexivity.
Qed.

Lemma lower_strip (s : string) : lower (strip s) = strip (lower s).
Proof. unfold strip. now rewrite lower_rstrip, lower_lstrip. Qed.

(** C9. On every response text, the negative-check interpretation of both
    variants answers "yes" when the lower-cased text contains "yes",
    otherwise "no" when it contains "no", otherwise "yes"; stripping the
    surrounding white space first, as the code does, changes nothing. *)
Theorem negative_check_priority (response : string) :
  NegativeChecker_interpret response = negative_rule response /\
  negative_checker_interpret response = negative_rule response.
Proof.
  unfold NegativeChecker_interpret, negative_checker_interpret, negative_rule.
  rewrite lower_strip.
  rewrite !str_contains_strip by reflexivity.
  split; reflexivity.
Qed.

(** ** The thresholds of the combiner *)

(** C10. The verdict of StrategyCombiner.invoke does not depend on the
    confidence thresholds the combiner was constructed with, nor on any
    other state of the combiner object. *)
Theorem thresholds_never_read (t1 t2 : option (list (string * Q))) (inputs : pyval) :
  StrategyCombiner_invoke (StrategyCombiner_init t1) inputs =
  StrategyCombiner_invoke (StrategyCombiner_init t2) inputs.
Proof. reflexivity. Qed.

(** ** Consensus combiner: the packaged variant *)

Lemma get_dict (kvs : list (string * pyval)) :
  get (PDict kvs) "call_type" PNone = Ok (label_of kvs).
Proof. unfold get, label_of. now destruct (dict_lookup kvs "call_type"). Qed.

Lemma subscript_of_get (d : pyval) (k : string) (v : pyval) :
  get d k PNone = Ok v -> is_none v = false -> subscript d k = Ok v.
Proof.
  destruct d; simpl; try discriminate.
  destruct (dict_lookup kvs k); intros [= <-]; [reflexivity | discriminate].
Qed.

Lemma get_of_subscript (d : pyval) (k : string) (v dflt : pyval) :
  subscript d k = Ok v -> get d k dflt = Ok v.
Proof.
  destruct d; simpl; try discriminate.
  destruct (dict_lookup kvs k); intros [= <-]. reflexivity.
Qed.

(** On opinion dictionaries of any shape the packaged combiner computes the
    policy. *)
Lemma StrategyCombiner_invoke_policy (self : StrategyCombiner)
  (p b : list (string * pyval)) (negative : pyval) (valid : bool) (text : pyval) :
  StrategyCombiner_invoke self
    (combiner_inputs (three_opinions (PDict p) (PDict b) negative) (PBool valid) text)
  = Ok (policy (label_of p) (label_of b) negative valid).
Proof.
  unfold StrategyCombiner_invoke, combiner_inputs, three_opinions, policy, pand.
  cbn [subscript dict_lookup String.eqb Ascii.eqb Bool.eqb bind get truthy].
  fold (get (PDict p) "call_type" PNone). fold (get (PDict b) "call_type" PNone).
  rewrite !get_dict. cbn [bind].
  destruct valid; cbn [negb].
  - destruct (eq negative (PStr "no")); cbn [andb bind].
    + destruct (is_none (label_of p)) eqn:Hp; cbn [negb bind].
      * destruct (eq (label_of p) (label_of b)); reflexivity.
      * destruct (is_none (label_of b)); [reflexivity |].
        destruct (eq (label_of b) (label_of p)); reflexivity.
    + destruct (eq (label_of p) (label_of b)); cbn [andb bind].
      * destruct (is_none (label_of p)); reflexivity.
      * destruct (is_none (label_of p)); reflexivity.
  - destruct (is_none (label_of b)) eqn:Hb; cbn [negb]; [reflexivity |].
    unfold label_of in *.
    destruct (dict_lookup b "call_type"); [reflexivity | discriminate].
Qed.

Lemma policy_shape (lp lb negative : pyval) (valid : bool) :
  verdict_shape (policy lp lb negative valid).
Proof.
  unfold policy.
  destruct valid; cbn [negb].
  - destruct (eq negative (PStr "no") && negb (is_none lp)) eqn:H1.
    + apply andb_true_iff in H1 as [_ H1]. apply negb_true_iff in H1.
      destruct (is_none lb); [constructor |].
      destruct (eq lb lp); now constructor.
    + destruct (eq lp lb && negb (is_none lp)) eqn:H2.
      * apply andb_true_iff in H2 as [_ H2]. apply negb_true_iff in H2.
        now constructor.
      * destruct (is_none lp) eqn:H3; now constructor.
  - destruct (is_none lb) eqn:H; now constructor.
Qed.

Lemma verdict_shape_invariant (v : pyval) :
  verdict_shape v ->
  exists l, verdict_label v = Ok l /\ verdict_needs_human v = Ok (is_none l).
Proof.
  intros [| l c Hl].
  - exists PNone. split; reflexivity.
  - exists l. split; [reflexivity |]. rewrite Hl. reflexivity.
Qed.

(** Whatever Python value is passed as [inputs], a verdict returned by the
    packaged combiner has one of the two shapes. *)
Lemma StrategyCombiner_invoke_shape (self : StrategyCombiner) (inputs v : pyval) :
  StrategyCombiner_invoke self inputs = Ok v -> verdict_shape v.
Proof.
  unfold StrategyCombiner_invoke, pand.
  destruct (subscript inputs "parser_results") as [prs |]; [| discriminate].
  destruct (subscript inputs "validation_result") as [valid |]; [| discriminate].
  cbn [bind].
  destruct (get prs "primary" _) as [primary |]; [| discriminate].
  destruct (get prs "backup" _) as [backup |]; [| discriminate].
  destruct (get prs "negative" _) as [negative |]; [| discriminate].
  cbn [bind].
  destruct (truthy valid); cbn [negb].
  - destruct (eq negative (PStr "no")); cbn [bind].
    + destruct (get primary "call_type" PNone) as [lp |]; [| discriminate].
      cbn [bind]. destruct (is_none lp) eqn:Hp; cbn [negb].
      * destruct (get backup "call_type" PNone) as [lb |]; [| discriminate].
        cbn [bind]. destruct (eq lp lb); cbn [bind]; rewrite ?Hp; cbn [negb];
          intros [= <-]; constructor.
      * destruct (get backup "call_type" PNone) as [lb |]; [| discriminate].
        cbn [bind]. destruct (is_none lb); [intros [= <-]; constructor |].
        destruct (eq lb lp); intros [= <-]; now constructor.
    + destruct (get primary "call_type" PNone) as [lp |]; [| discriminate].
      cbn [bind].
      destruct (get backup "call_type" PNone) as [lb |]; [| discriminate].
      cbn [bind]. destruct (eq lp lb); cbn [bind];
        destruct (is_none lp) eqn:Hp; cbn [negb];
        intros [= <-]; now constructor.
  - destruct (get backup "call_type" PNone) as [lb |] eqn:Hg; [| discriminate].
    cbn [bind]. destruct (is_none lb) eqn:Hb; cbn [negb].
    + intros [= <-]; constructor.
    + rewrite (subscript_of_get _ _ _ Hg Hb). cbn [bind].
      intros [= <-]; now constructor.
Qed.

(** The invariant on the packaged combiner: a returned verdict is flagged
    for human review exactly when its label is None. *)
Lemma StrategyCombiner_invoke_invariant (self : StrategyCombiner) (inputs v : pyval) :
  StrategyCombiner_invoke self inputs = Ok v ->
  exists l, verdict_label v = Ok l /\ verdict_needs_human v = Ok (is_none l).
Proof.
  intro H. apply verdict_shape_invariant.
  exact (StrategyCombiner_invoke_shape self inputs v H).
Qed.

Lemma returns_none_low : returns (Ok verdict_none_low) PNone "low" true.
Proof. exists verdict_none_low. repeat split. Qed.

Lemma returns_with (l : pyval) (c : string) :
  is_none l = false -> returns (Ok (verdict_with l c)) l c false.
Proof.
  intro Hl. exists (verdict_with l c). repeat split.
Qed.

Lemma eq_PNone_l (x : pyval) : eq PNone x = true -> x = PNone.
Proof. destruct x; simpl; congruence. Qed.

Lemma is_none_false (v : pyval) : is_none v = false <-> v <> PNone.
Proof. destruct v; simpl; split; congruence. Qed.

(** The packaged combiner is total on opinion dictionaries of any shape. *)
Lemma StrategyCombiner_invoke_total (self : StrategyCombiner)
  (p b : list (string * pyval)) (negative : pyval) (valid : bool) (text : pyval) :
  exists v,
    StrategyCombiner_invoke self
      (combiner_inputs (three_opinions (PDict p) (PDict b) negative) (PBool valid) text)
    = Ok v /\ verdict_shape v.
Proof.
  eexists. split; [apply StrategyCombiner_invoke_policy | apply policy_shape].
Qed.

(** Rule 1 on the packaged combiner: with an invalid primary it reads the
    backup opinion only; the primary may be any value. *)
Lemma StrategyCombiner_invoke_fallback (self : StrategyCombiner)
  (primary negative text : pyval) (b : list (string * pyval)) :
  StrategyCombiner_invoke self
    (combiner_inputs (three_opinions primary (PDict b) negative) (PBool false) text)
  = Ok (if is_none (label_of b) then verdict_none_low
        else verdict_with (label_of b) "medium").
Proof.
  unfold StrategyCombiner_invoke, combiner_inputs, three_opinions.
  cbn [subscript dict_lookup String.eqb Ascii.eqb Bool.eqb bind get truthy negb].
  unfold label_of.
  destruct (dict_lookup b "call_type") as [l |]; cbn [bind]; [| reflexivity].
  destruct (is_none l); reflexivity.
Qed.

Lemma StrategyCombiner_invoke_invalid (self : StrategyCombiner)
  (primary negative text : pyval) (b : list (string * pyval)) :
  let r := StrategyCombiner_invoke self
             (combiner_inputs (three_opinions primary (PDict b) negative)
                (PBool false) text) in
  (label_of b <> PNone -> returns r (label_of b) "medium" false) /\
  (label_of b = PNone -> returns r PNone "low" true).
Proof.
  cbv zeta. rewrite StrategyCombiner_invoke_fallback.
  split; intro H.
  - apply is_none_false in H. rewrite H. now apply returns_with.
  - rewrite H. apply returns_none_low.
Qed.

(** With an invalid primary the packaged combiner depends on the backup
    label only. *)
Lemma StrategyCombiner_invoke_invalid_depends (self1 self2 : StrategyCombiner)
  (p1 p2 n1 n2 t1 t2 : pyval) (b1 b2 : list (string * pyval)) :
  label_of b1 = label_of b2 ->
  StrategyCombiner_invoke self1
    (combiner_inputs (three_opinions p1 (PDict b1) n1) (PBool false) t1) =
  StrategyCombiner_invoke self2
    (combiner_inputs (three_opinions p2 (PDict b2) n2) (PBool false) t2).
Proof.
  intro H. rewrite !StrategyCombiner_invoke_fallback. now rewrite H.
Qed.

(** ** Rule 1 on both variants *)

(** C2, counterexample. With an invalid primary and the backup opinion
    {call_type: WATER LEAK}, whose label is not None, the script's
    combine_results does not return WATER LEAK at medium confidence: the
    backup fails validate_call_type and the null verdict is returned. *)
Lemma combine_results_rejects_off_list_backup :
  subscript off_list "call_type" = Ok (PStr "WATER LEAK") /\
  combine_results billing off_list (PStr "yes") (PBool false) (PStr "hello")
  = Ok verdict_none_low /\
  ~ returns (combine_results billing off_list (PStr "yes") (PBool false)
               (PStr "hello"))
            (PStr "WATER LEAK") "medium" false.
Proof.
  repeat apply conj; try reflexivity.
  intros (v & Hv & Hl & _). injection Hv as <-. discriminate Hl.
Qed.

(** C2, amended. With an invalid primary, whatever the primary opinion and
    the negative check are: StrategyCombiner.invoke returns the backup
    label at medium confidence, not flagged, when that label is not None,
    and the null verdict (None, low, needs_human) when it is None;
    combine_results returns the null verdict when the backup opinion fails
    validate_call_type, and a verdict carrying the backup label when the
    backup opinion passes it. *)
Theorem invalid_primary_falls_back (self : StrategyCombiner)
  (primary backup negative text : pyval) :
  (forall b, backup = PDict b ->
     let r := StrategyCombiner_invoke self
                (combiner_inputs (three_opinions primary backup negative)
                   (PBool false) text) in
     (label_of b <> PNone -> returns r (label_of b) "medium" false) /\
     (label_of b = PNone -> returns r PNone "low" true))
  /\
  (validate_call_type backup = Ok false ->
   returns (combine_results primary backup negative (PBool false) text)
           PNone "low" true)
  /\
  (validate_call_type backup = Ok true ->
   exists v l,
     combine_results primary backup negative (PBool false) text = Ok v /\
     subscript backup "call_type" = Ok l /\
     verdict_label v = Ok l).
Proof.
  repeat apply conj.
  - intros b ->. apply StrategyCombiner_invoke_invalid.
  - intro H. unfold combine_results. cbn [truthy negb]. rewrite H.
    apply returns_none_low.
  - intro H. unfold combine_results. cbn [truthy negb]. rewrite H. cbn [bind].
    unfold validate_call_type, por in H.
    destruct backup as [| | | | | b]; try discriminate H.
    cbn [is_dict negb bind contains_key subscript] in H.
    unfold verdict_label. cbn [subscript].
    destruct (dict_lookup b "call_type") as [l |] eqn:Hl; [| discriminate H].
    exists (PDict b), l. repeat split.
    cbn [subscript]. now rewrite Hl.
Qed.

Lemma invalid_primary_falls_back_witness :
  returns (StrategyCombiner_invoke (StrategyCombiner_init None)
             (combiner_inputs
                (three_opinions off_list (PDict [("call_type", PStr "CLAIMS")])
                   (PStr "yes"))
                (PBool false) (PStr "hello")))
          (PStr "CLAIMS") "medium" false /\
  returns (combine_results off_list off_list (PStr "yes") (PBool false)
             (PStr "hello"))
          PNone "low" true.
Proof.
  destruct (invalid_primary_falls_back (StrategyCombiner_init None) off_list
              (PDict [("call_type", PStr "CLAIMS")]) (PStr "yes") (PStr "hello"))
    as (Hpackaged & _ & _).
  destruct (invalid_primary_falls_back (StrategyCombiner_init None) off_list
              off_list (PStr "yes") (PStr "hello"))
    as (_ & Hscript & _).
  split.
  - apply (Hpackaged [("call_type", PStr "CLAIMS")] eq_refl). discriminate.
  - apply Hscript. reflexivity.
Defined.

(** ** Rule 2 on both variants *)

(** Rule 2 where both opinions carry a label. With a valid primary, a
    negative check of "no" and a primary label that is not None: both
    combiners return the null verdict (None, low, needs_human) when the
    backup label is None or differs from the primary label, and the
    primary label at medium confidence, not flagged for human review, when
    the backup label equals it. The packaged variant reads labels with
    get, so an absent label counts as None; the script variant reads them
    with a subscript, so the statement holds for it when the backup has
    the key. *)
Lemma contradicted_extraction_rule (self : StrategyCombiner)
  (primary backup text lp lb : pyval) :
  lp <> PNone ->
  (get primary "call_type" PNone = Ok lp ->
   get backup "call_type" PNone = Ok lb ->
   let r := StrategyCombiner_invoke self
              (combiner_inputs (three_opinions primary backup (PStr "no"))
                 (PBool true) text) in
   (lb = PNone \/ eq lb lp = false -> returns r PNone "low" true) /\
   (eq lb lp = true -> returns r lp "medium" false))
  /\
  (subscript primary "call_type" = Ok lp ->
   subscript backup "call_type" = Ok lb ->
   let r := combine_results primary backup (PStr "no") (PBool true) text in
   (lb = PNone \/ eq lb lp = false -> returns r PNone "low" true) /\
   (eq lb lp = true -> returns r lp "medium" false)).
Proof.
  intro Hlp. pose proof (proj2 (is_none_false lp) Hlp) as Hn.
  split.
  - intros Hp Hb.
    destruct primary as [| | | | | p]; try discriminate.
    destruct backup as [| | | | | b]; try discriminate.
    rewrite get_dict in Hp, Hb. injection Hp as Hp. injection Hb as Hb.
    cbv zeta. rewrite StrategyCombiner_invoke_policy, Hp, Hb.
    unfold policy. cbn [negb eq String.eqb Ascii.eqb Bool.eqb andb].
    rewrite Hn. cbn [negb]. split.
    + intros [-> | Hd]; [apply returns_none_low |].
      destruct (is_none lb); [apply returns_none_low |].
      rewrite Hd. apply returns_none_low.
    + intro He. destruct (is_none lb) eqn:Hlb.
      * apply is_none_true in Hlb. rewrite Hlb in He.
        apply eq_PNone_l in He. contradiction.
      * rewrite He. now apply returns_with.
  - intros Hp Hb. cbv zeta.
    unfold combine_results, pand.
    cbn [truthy negb eq String.eqb Ascii.eqb Bool.eqb bind].
    rewrite Hp, Hb. cbn [bind]. rewrite Hn. cbn [negb]. split.
    + intros [-> | Hd]; [apply returns_none_low |].
      destruct (is_none lb); [apply returns_none_low |].
      rewrite Hd. apply returns_none_low.
    + intro He. destruct (is_none lb) eqn:Hlb.
      * apply is_none_true in Hlb. rewrite Hlb in He.
        apply eq_PNone_l in He. contradiction.
      * rewrite He. now apply returns_with.
Qed.

Lemma contradicted_extraction_rule_witness :
  PStr "BILLING" <> PNone /\
  returns (StrategyCombiner_invoke (StrategyCombiner_init None)
             (combiner_inputs (three_opinions billing billing (PStr "no"))
                (PBool true) (PStr "my bill is wrong")))
          (PStr "BILLING") "medium" false /\
  returns (combine_results billing (PDict [("call_type", PNone)]) (PStr "no")
             (PBool true) (PStr "my bill is wrong"))
          PNone "low" true.
Proof.
  split; [discriminate |]. split.
  - apply (contradicted_extraction_rule (StrategyCombiner_init None)
             billing billing (PStr "my bill is wrong") (PStr "BILLING") (PStr "BILLING")).
    + discriminate.
    + reflexivity.
    + reflexivity.
    + reflexivity.
  - apply (contradicted_extraction_rule (StrategyCombiner_init None)
             billing (PDict [("call_type", PNone)]) (PStr "my bill is wrong")
             (PStr "BILLING") PNone).
    + discriminate.
    + reflexivity.
    + reflexivity.
    + left. reflexivity.
Defined.

(** C5. Rule 2 fails on the script variant when the backup opinion lacks
    the key call_type: with a validated primary {call_type: BILLING}, a
    negative check of "no" and the backup {}, whose label reads as None,
    combine_results raises KeyError at backup_result['call_type'], where
    the packaged combiner returns the null verdict (None, low,
    needs_human). *)
Theorem combine_results_contradicted_missing_key :
  validate_call_type billing = Ok true /\
  subscript billing "call_type" = Ok (PStr "BILLING") /\
  get (PDict []) "call_type" PNone = Ok PNone /\
  combine_results billing (PDict []) (PStr "no") (PBool true) (PStr "hello")
  = Raise KeyError /\
  StrategyCombiner_invoke (StrategyCombiner_init None)
    (combiner_inputs (three_opinions billing (PDict []) (PStr "no"))
       (PBool true) (PStr "hello"))
  = Ok verdict_none_low.
Proof. repeat apply conj; reflexivity. Qed.

(** ** Consensus combiner: the script variant at its invalid-primary branch *)

(** C1. The script's combine_results breaks the invariant: on an invalid
    primary and the backup opinion {call_type: None}, which validates, it
    returns the backup dictionary itself; the label is None and the verdict
    is not flagged for human review. *)
Theorem combine_results_null_label_unflagged :
  validate_call_type off_list = Ok false /\
  combine_results off_list (PDict [("call_type", PNone)]) (PStr "yes")
    (PBool false) (PStr "hello")
  = Ok (PDict [("call_type", PNone)]) /\
  verdict_label (PDict [("call_type", PNone)]) = Ok PNone /\
  verdict_needs_human (PDict [("call_type", PNone)]) = Ok false.
Proof. repeat split; reflexivity. Qed.

(** The script's combine_results, on an invalid primary and the backup
    opinion {call_type: CLAIMS}, returns the backup dictionary itself: it
    carries no confidence tier, so consumers read "unknown", where the
    packaged combiner returns CLAIMS at medium confidence. *)
Lemma combine_results_backup_without_tier :
  combine_results off_list (PDict [("call_type", PStr "CLAIMS")]) (PStr "yes")
    (PBool false) (PStr "hello")
  = Ok (PDict [("call_type", PStr "CLAIMS")]) /\
  verdict_confidence (PDict [("call_type", PStr "CLAIMS")]) = Ok (PStr "unknown") /\
  StrategyCombiner_invoke (StrategyCombiner_init None)
    (combiner_inputs
       (three_opinions off_list (PDict [("call_type", PStr "CLAIMS")]) (PStr "yes"))
       (PBool false) (PStr "hello"))
  = Ok (verdict_with (PStr "CLAIMS") "medium").
Proof. repeat split; reflexivity. Qed.

(** C6. The script's combine_results, on an invalid primary, lets the other
    fields of the backup opinion through: two backups with the same label
    CLAIMS give different verdicts, one read as unknown confidence and one
    as high. *)
Theorem combine_results_leaks_backup_fields :
  let b1 := PDict [("call_type", PStr "CLAIMS")] in
  let b2 := PDict [("call_type", PStr "CLAIMS"); ("confidence", PStr "high")] in
  subscript b1 "call_type" = subscript b2 "call_type" /\
  combine_results off_list b1 (PStr "yes") (PBool false) (PStr "hello") = Ok b1 /\
  combine_results off_list b2 (PStr "yes") (PBool false) (PStr "hello") = Ok b2 /\
  verdict_confidence b1 = Ok (PStr "unknown") /\
  verdict_confidence b2 = Ok (PStr "high") /\
  combine_results off_list b1 (PStr "yes") (PBool false) (PStr "hello") <>
  combine_results off_list b2 (PStr "yes") (PBool false) (PStr "hello").
Proof. cbv zeta. repeat split; try reflexivity. discriminate. Qed.

(** C4. The script's combine_results is not total on opinion dictionaries:
    with a valid primary {call_type: BILLING} and a backup dictionary that
    lacks the key call_type it raises KeyError, where the packaged
    combiner, which reads with get, returns a verdict. *)
Theorem combine_results_raises_on_missing_key :
  validate_call_type billing = Ok true /\
  combine_results billing (PDict []) (PStr "yes") (PBool true) (PStr "hello")
  = Raise KeyError /\
  StrategyCombiner_invoke (StrategyCombiner_init None)
    (combiner_inputs (three_opinions billing (PDict []) (PStr "yes"))
       (PBool true) (PStr "hello"))
  = Ok (verdict_with (PStr "BILLING") "medium").
Proof. repeat split; reflexivity. Qed.

(** ** Metrics aggregator: the guarded quotients *)

Lemma Q_of_nat_nonzero (n : nat) : 0 < n -> Qeq_bool (Q_of_nat n) 0 = false.
Proof.
  intro Hn. destruct (Qeq_bool (Q_of_nat n) 0) eqn:E; [| reflexivity].
  apply Qeq_bool_eq in E. unfold Qeq, Q_of_nat in E. simpl in E. lia.
Qed.

Lemma ratio_or_zero_zero_den (num : nat) : ratio_or_zero num 0 = Ok 0%Q.
Proof. reflexivity. Qed.

Lemma ratio_or_zero_value (num den : nat) :
  ratio_or_zero num den =
  Ok (if (0 <? den)%nat then (Q_of_nat num / Q_of_nat den)%Q else 0%Q).
Proof.
  unfold ratio_or_zero, true_div.
  destruct (Nat.ltb_spec 0 den) as [H | H]; [| reflexivity].
  now rewrite (Q_of_nat_nonzero den H).
Qed.

Lemma f1_or_zero_zero_den (p r : Q) : (p + r == 0)%Q -> f1_or_zero p r = Ok 0%Q.
Proof.
  intro H. unfold f1_or_zero.
  assert (Hle : Qle_bool (p + r) 0 = true).
  { apply Qle_bool_iff. rewrite H. apply Qle_refl. }
  now rewrite Hle.
Qed.

Lemma f1_or_zero_value (p r : Q) :
  f1_or_zero p r =
  Ok (if negb (Qle_bool (p + r) 0) then (2 * (p * r) / (p + r))%Q else 0%Q).
Proof.
  unfold f1_or_zero, true_div.
  destruct (Qle_bool (p + r) 0) eqn:Hle; cbn [negb]; [reflexivity |].
  destruct (Qeq_bool (p + r) 0) eqn:E; [| reflexivity].
  apply Qeq_bool_eq in E.
  assert (Hle' : Qle_bool (p + r) 0 = true).
  { apply Qle_bool_iff. rewrite E. apply Qle_refl. }
  congruence.
Qed.

(** *** No path of the aggregator raises ZeroDivisionError *)

Lemma no_zde_ok {A : Type} (a : A) : no_zde (Ok a).
Proof. discriminate. Qed.

Lemma no_zde_bind {A B : Type} (m : pyres A) (k : A -> pyres B) :
  no_zde m -> (forall a, no_zde (k a)) -> no_zde (bind m k).
Proof.
  unfold no_zde. intros Hm Hk. destruct m as [a | e]; simpl; [apply Hk |].
  intro H. apply Hm. injection H as ->. reflexivity.
Qed.

Lemma no_zde_index {A : Type} (xs : list A) (i : nat) : no_zde (index xs i).
Proof. unfold index, no_zde. destruct (nth_error xs i); discriminate. Qed.

Lemma no_zde_subscript (d : pyval) (k : string) : no_zde (subscript d k).
Proof.
  unfold no_zde. destruct d; simpl; try discriminate.
  destruct (dict_lookup kvs k); discriminate.
Qed.

Lemma no_zde_get (d : pyval) (k : string) (dflt : pyval) : no_zde (get d k dflt).
Proof.
  unfold no_zde. destruct d; simpl; try discriminate.
  destruct (dict_lookup kvs k); discriminate.
Qed.

Lemma no_zde_tier_known {A : Type} (c : pyval) (m : list (string * A)) :
  no_zde (tier_known c m).
Proof. unfold no_zde. destruct c; simpl; discriminate. Qed.

Lemma no_zde_ratio (num den : nat) : no_zde (ratio_or_zero num den).
Proof. rewrite ratio_or_zero_value. apply no_zde_ok. Qed.

Lemma no_zde_f1 (p r : Q) : no_zde (f1_or_zero p r).
Proof. rewrite f1_or_zero_value. apply no_zde_ok. Qed.

Lemma no_zde_pand (a b : pyres bool) : no_zde a -> no_zde b -> no_zde (pand a b).
Proof.
  intros Ha Hb. unfold pand. apply no_zde_bind; [exact Ha |].
  intros []; [exact Hb | apply no_zde_ok].
Qed.

Lemma no_zde_count_if {A : Type} (xs : list A) (cond : A -> pyres bool) :
  (forall x, no_zde (cond x)) -> no_zde (count_if xs cond).
Proof.
  intro H. induction xs as [| x xs IH]; simpl; [apply no_zde_ok |].
  apply no_zde_bind; [apply H |]. intro b.
  apply no_zde_bind; [exact IH |]. intro n. apply no_zde_ok.
Qed.

Create HintDb zde.
#[local] Hint Resolve no_zde_ok no_zde_index no_zde_subscript no_zde_get
  no_zde_tier_known no_zde_ratio no_zde_f1 : zde.
#[local] Hint Extern 2 (no_zde (bind _ _)) => apply no_zde_bind; [| intro] : zde.
#[local] Hint Extern 2 (no_zde (pand _ _)) => apply no_zde_pand : zde.
#[local] Hint Extern 2 (no_zde (count_if _ _)) => apply no_zde_count_if; intro : zde.

Lemma no_zde_actual_at (calls : list pyval) (i : nat) : no_zde (actual_at calls i).
Proof. unfold actual_at. auto with zde. Qed.

Lemma no_zde_predicted_at (results : list pyval) (i : nat) :
  no_zde (predicted_at results i).
Proof. unfold predicted_at. auto with zde. Qed.

#[local] Hint Resolve no_zde_actual_at no_zde_predicted_at : zde.

Lemma no_zde_is_correct (calls results : list pyval) (i : nat) :
  no_zde (is_correct calls results i).
Proof. unfold is_correct. auto 6 with zde. Qed.

#[local] Hint Resolve no_zde_is_correct : zde.

Lemma no_zde_category_metric_of (calls results : list pyval) (total : nat)
  (c : string) : no_zde (category_metric_of calls results total c).
Proof. unfold category_metric_of. auto 20 with zde. Qed.

Lemma no_zde_category_loop (calls results : list pyval) (total : nat)
  (categories : list string) (acc : list (string * category_metric)) :
  no_zde (category_loop calls results total categories acc).
Proof.
  revert acc. induction categories as [| c cs IH]; intro acc; simpl.
  - apply no_zde_ok.
  - apply no_zde_bind; [apply no_zde_category_metric_of | intro; apply IH].
Qed.

Lemma no_zde_tier_loop (calls results : list pyval) (idx : list nat)
  (acc : list (string * (nat * nat))) :
  no_zde (tier_loop calls results idx acc).
Proof.
  revert acc. induction idx as [| i idx IH]; intro acc; simpl.
  - apply no_zde_ok.
  - apply no_zde_bind; [apply no_zde_index | intro r].
    apply no_zde_bind; [apply no_zde_get | intro c].
    apply no_zde_bind; [apply no_zde_tier_known | intros []].
    + apply no_zde_bind; [apply no_zde_is_correct | intro; apply IH].
    + apply IH.
Qed.

Lemma no_zde_tier_accuracy (acc : list (string * (nat * nat))) :
  no_zde (tier_accuracy acc).
Proof.
  induction acc as [| [c [n k]] acc IH]; simpl.
  - apply no_zde_ok.
  - apply no_zde_bind; [apply no_zde_ratio | intro].
    apply no_zde_bind; [exact IH | intro; apply no_zde_ok].
Qed.

Lemma no_zde_aggregate (calls results : list pyval) (categories : list string) :
  no_zde (aggregate calls results categories).
Proof.
  unfold aggregate.
  apply no_zde_bind; [auto with zde | intro].
  apply no_zde_bind; [apply no_zde_ratio | intro].
  apply no_zde_bind; [apply no_zde_category_loop | intro].
  apply no_zde_bind; [apply no_zde_tier_loop | intro].
  apply no_zde_bind; [apply no_zde_tier_accuracy | intro].
  apply no_zde_bind; [auto 6 with zde | intro].
  apply no_zde_bind; [apply no_zde_ratio | intro].
  apply no_zde_ok.
Qed.

(** *** The empty batch *)

Lemma dict_lookup_set {A : Type} (d : list (string * A)) (k q : string) (v : A) :
  dict_lookup (dict_set d k v) q =
  if String.eqb q k then Some v else dict_lookup d q.
Proof.
  induction d as [| [k' v'] d IH]; simpl; [reflexivity |].
  destruct (String.eqb_spec k k') as [-> | Hk]; simpl.
  - destruct (String.eqb q k'); reflexivity.
  - rewrite IH. destruct (String.eqb_spec q k') as [-> | Hq]; [| reflexivity].
    destruct (String.eqb_spec k' k) as [E | _]; [congruence | reflexivity].
Qed.

Lemma category_loop_empty (categories : list string)
  (acc : list (string * category_metric)) :
  category_loop [] [] 0 categories acc = Ok (zeroed categories acc).
Proof.
  revert acc. induction categories as [| c cs IH]; intro acc; [reflexivity |].
  cbn [category_loop zeroed fold_left].
  change (category_metric_of [] [] 0 c) with (Ok zero_cm).
  cbn [bind]. apply IH.
Qed.

Lemma zeroed_all_zero (categories : list string)
  (acc : list (string * category_metric)) :
  all_zero acc -> all_zero (zeroed categories acc).
Proof.
  revert acc. induction categories as [| c cs IH]; intros acc H; [exact H |].
  apply IH. intros q m. rewrite dict_lookup_set.
  destruct (String.eqb q c); [congruence | apply H].
Qed.

Lemma zeroed_keeps (categories : list string)
  (acc : list (string * category_metric)) (q : string) :
  dict_lookup acc q = Some zero_cm ->
  dict_lookup (zeroed categories acc) q = Some zero_cm.
Proof.
  revert acc. induction categories as [| c cs IH]; intros acc H; [exact H |].
  apply IH. rewrite dict_lookup_set.
  destruct (String.eqb q c); [reflexivity | exact H].
Qed.

Lemma zeroed_covers (categories : list string)
  (acc : list (string * category_metric)) (q : string) :
  In q categories -> dict_lookup (zeroed categories acc) q = Some zero_cm.
Proof.
  revert acc. induction categories as [| c cs IH]; intros acc Hin; [contradiction |].
  destruct Hin as [-> | Hin]; [| now apply IH].
  change (zeroed (q :: cs) acc) with (zeroed cs (dict_set acc q zero_cm)).
  apply zeroed_keeps. rewrite dict_lookup_set. now rewrite String.eqb_refl.
Qed.

Lemma aggregate_empty (categories : list string) :
  exists r, aggregate [] [] categories = Ok r /\ zero_report categories r.
Proof.
  unfold aggregate. cbn [length seq count_if bind].
  rewrite ratio_or_zero_zero_den. cbn [bind].
  rewrite category_loop_empty. cbn [bind tier_loop tier_accuracy].
  rewrite !ratio_or_zero_zero_den. cbn [bind].
  eexists. split; [reflexivity |].
  unfold zero_report. cbn.
  repeat split.
  - intros c Hc. now apply zeroed_covers.
  - apply zeroed_all_zero. intros c m H. discriminate.
Qed.

(** On the empty batch both aggregators return the all-zero report. The
    two guarded quotient expressions evaluate without raising and are 0
    when their denominator is 0, and no path of either aggregator raises
    ZeroDivisionError. *)
Lemma aggregator_empty_and_no_zde :
  (forall categories : option (list string),
     exists r,
       EvaluationMetrics_invoke
         {| mi_calls := []; mi_results := []; mi_categories := categories |} = Ok r /\
       zero_report (match categories with Some c => c | None => [] end) r) /\
  (exists r, evaluate_accuracy [] [] = Ok r /\ zero_report CALL_TYPES r) /\
  (forall num : nat, ratio_or_zero num 0 = Ok 0%Q) /\
  (forall num den : nat, exists q, ratio_or_zero num den = Ok q) /\
  (forall p r : Q, (p + r == 0)%Q -> f1_or_zero p r = Ok 0%Q) /\
  (forall p r : Q, exists q, f1_or_zero p r = Ok q) /\
  (forall inputs : metrics_inputs,
     EvaluationMetrics_invoke inputs <> Raise ZeroDivisionError) /\
  (forall calls results : list pyval,
     evaluate_accuracy calls results <> Raise ZeroDivisionError).
Proof.
  repeat apply conj.
  - intro categories. apply aggregate_empty.
  - apply aggregate_empty.
  - apply ratio_or_zero_zero_den.
  - intros num den. eexists. apply ratio_or_zero_value.
  - apply f1_or_zero_zero_den.
  - intros p r. eexists. apply f1_or_zero_value.
  - intro inputs. apply no_zde_aggregate.
  - intros calls results. apply no_zde_aggregate.
Qed.

(** ** Evaluation runner: a batch with a failed item *)

Ltac bind_cases H :=
  repeat match type of H with
         | bind ?m _ = Ok _ => destruct m; cbn [bind] in H; [| discriminate H]
         | (if ?b then _ else _) = Ok _ => destruct b
         end.

Lemma clean_result_has_label (call customer_input actual_type result clean : pyval) :
  clean_result_of call customer_input actual_type result = Ok clean ->
  has_label clean.
Proof.
  unfold clean_result_of. intro H. bind_cases H;
    injection H as <-; eexists; reflexivity.
Qed.

Lemma batch_loop_invariant (self : RobustEvaluator) (calls acc results : list pyval) :
  batch_loop self calls acc = Ok results ->
  Forall has_type calls /\
  (Forall has_label acc -> Forall has_label results) /\
  length results <= length acc + length calls.
Proof.
  revert acc. induction calls as [| call calls IH]; intros acc H.
  - injection H as <-. repeat split; [constructor | auto | simpl; lia].
  - cbn [batch_loop] in H.
    destruct (subscript call "customer_input") as [ci |]; [| discriminate].
    cbn [bind] in H.
    destruct (subscript call "type") as [ty |] eqn:Hty; [| discriminate].
    cbn [bind] in H.
    destruct (RobustEvaluator_invoke self ci) as [result |]; cbn [bind try_except] in H.
    + destruct (clean_result_of call ci ty result) as [clean |] eqn:Hclean;
        cbn [bind try_except] in H.
      * apply IH in H as (Hc & Hl & Hn). repeat split.
        -- constructor; [now exists ty | exact Hc].
        -- intro Hacc. apply Hl. apply Forall_app. split; [exact Hacc |].
           constructor; [| constructor].
           exact (clean_result_has_label _ _ _ _ _ Hclean).
        -- rewrite length_app in Hn. simpl in *. lia.
      * apply IH in H as (Hc & Hl & Hn). repeat split.
        -- constructor; [now exists ty | exact Hc].
        -- exact Hl.
        -- simpl. lia.
    + apply IH in H as (Hc & Hl & Hn). repeat split.
      * constructor; [now exists ty | exact Hc].
      * exact Hl.
      * simpl. lia.
Qed.

Lemma count_if_seq_raise (cond : nat -> pyres bool) (e : pyexn) (n s k : nat) :
  s <= k < s + n ->
  (forall i, s <= i < k -> exists b, cond i = Ok b) ->
  cond k = Raise e ->
  count_if (seq s n) cond = Raise e.
Proof.
  revert s. induction n as [| n IH]; intros s Hk Hok Hraise; [lia |].
  cbn [seq count_if].
  destruct (Nat.eq_dec s k) as [-> | Hne].
  - now rewrite Hraise.
  - destruct (Hok s) as [b Hb]; [lia |]. rewrite Hb. cbn [bind].
    rewrite (IH (S s)); [reflexivity | lia | | exact Hraise].
    intros i Hi. apply Hok. lia.
Qed.

Lemma is_correct_in_range (calls results : list pyval) (i : nat) :
  Forall has_type calls -> Forall has_label results ->
  i < length results -> i < length calls ->
  exists b, is_correct calls results i = Ok b.
Proof.
  intros Hc Hr Hir Hic. unfold is_correct, actual_at, predicted_at, index.
  destruct (nth_error calls i) as [c |] eqn:Ec;
    [| apply nth_error_None in Ec; lia].
  destruct (nth_error results i) as [r |] eqn:Er;
    [| apply nth_error_None in Er; lia].
  rewrite Forall_forall in Hc, Hr.
  destruct (Hc c (nth_error_In _ _ Ec)) as [t Ht].
  destruct (Hr r (nth_error_In _ _ Er)) as [l Hl].
  cbn [bind]. rewrite Ht, Hl. cbn [bind]. eexists. reflexivity.
Qed.

Lemma is_correct_past_results (calls results : list pyval) :
  Forall has_type calls -> length results < length calls ->
  is_correct calls results (length results) = Raise IndexError.
Proof.
  intros Hc Hlt. unfold is_correct, actual_at, predicted_at, index.
  destruct (nth_error calls (length results)) as [c |] eqn:Ec;
    [| apply nth_error_None in Ec; lia].
  rewrite Forall_forall in Hc.
  destruct (Hc c (nth_error_In _ _ Ec)) as [t Ht].
  cbn [bind]. rewrite Ht. cbn [bind].
  rewrite (proj2 (nth_error_None results (length results)) (Nat.le_refl _)).
  reflexivity.
Qed.

(** Every batch that loses an item to the [except] branch ends in
    IndexError: the aggregator indexes [results] up to [len(calls)]. *)
Lemma batch_evaluate_dropped_item (self : RobustEvaluator) (calls : list pyval)
  (limit : option Z) (results : list pyval) :
  let calls' := match limit with Some l => slice_to calls l | None => calls end in
  batch_loop self calls' [] = Ok results ->
  length results < length calls' ->
  batch_evaluate self calls limit = Raise IndexError.
Proof.
  cbv zeta. intros Hloop Hlt. unfold batch_evaluate.
  rewrite Hloop. cbn [bind].
  unfold EvaluationMetrics_invoke, aggregate.
  cbn [mi_calls mi_results mi_categories].
  apply batch_loop_invariant in Hloop as (Hc & Hl & _).
  specialize (Hl (Forall_nil _)).
  rewrite (count_if_seq_raise _ IndexError _ 0 (length results)).
  - reflexivity.
  - lia.
  - intros i Hi. apply is_correct_in_range; [exact Hc | exact Hl | lia | lia].
  - now apply is_correct_past_results.
Qed.

(** C3. A batch of two calls in which the model call fails on the second:
    the loop keeps the first result and drops the second, and then
    batch_evaluate does not emit a report, it raises IndexError, because
    the aggregator runs its index over len(calls) = 2 while results has one
    entry. *)
Theorem batch_with_failed_item_raises :
  RobustEvaluator_invoke flaky_evaluator (PStr "the line drops") = Raise ModelError /\
  (exists r, batch_loop flaky_evaluator two_calls [] = Ok [r]) /\
  batch_evaluate flaky_evaluator two_calls None = Raise IndexError.
Proof.
  repeat apply conj.
  - reflexivity.
  - eexists. vm_compute. reflexivity.
  - vm_compute. reflexivity.
Qed.

(** * Further properties of the code *)

(** ** The combiners beyond rule 1 and rule 2 *)

Lemma get_non_dict (d : pyval) (k : string) (dflt : pyval) :
  is_dict d = false -> get d k dflt = Raise AttributeError.
Proof. destruct d; simpl; intro H; [reflexivity .. | discriminate H]. Qed.

Lemma is_dict_true (d : pyval) : is_dict d = true -> exists kvs, d = PDict kvs.
Proof. destruct d; simpl; intro H; try discriminate H. now exists kvs. Qed.

Lemma subscript_label (d l : pyval) :
  subscript d "call_type" = Ok l -> exists kvs, d = PDict kvs /\ label_of kvs = l.
Proof.
  destruct d; cbn [subscript]; try discriminate.
  destruct (dict_lookup kvs "call_type") as [v |] eqn:Hv; [| discriminate].
  intros [= <-]. exists kvs. split; [reflexivity |].
  unfold label_of. now rewrite Hv.
Qed.

(** With a valid primary, the script's combiner computes the same policy
    as the packaged one, provided both opinions carry the key. *)
Lemma combine_results_policy (primary backup negative text lp lb : pyval) :
  subscript primary "call_type" = Ok lp ->
  subscript backup "call_type" = Ok lb ->
  combine_results primary backup negative (PBool true) text
  = Ok (policy lp lb negative true).
Proof.
  intros Hp Hb. unfold combine_results, policy, pand.
  cbn [truthy negb]. rewrite Hp, Hb. cbn [bind].
  destruct (eq negative (PStr "no")); cbn [andb bind].
  - destruct (is_none lp) eqn:Hn; cbn [negb].
    + destruct (eq lp lb); cbn [bind]; rewrite ?Hn; reflexivity.
    + destruct (is_none lb); [reflexivity |].
      destruct (eq lb lp); reflexivity.
  - destruct (eq lp lb); cbn [andb bind];
      destruct (is_none lp); reflexivity.
Qed.

Lemma StrategyCombiner_invoke_policy_keys (self : StrategyCombiner)
  (primary backup negative text lp lb : pyval) :
  subscript primary "call_type" = Ok lp ->
  subscript backup "call_type" = Ok lb ->
  StrategyCombiner_invoke self
    (combiner_inputs (three_opinions primary backup negative) (PBool true) text)
  = Ok (policy lp lb negative true).
Proof.
  intros Hp Hb.
  apply subscript_label in Hp as (p & -> & <-).
  apply subscript_label in Hb as (b & -> & <-).
  apply StrategyCombiner_invoke_policy.
Qed.

(** With a validated primary and both opinions carrying the key call_type,
    the two combiner variants return the same verdict dictionary. *)
Theorem combiners_agree_on_valid_primary (self : StrategyCombiner)
  (primary backup negative text lp lb : pyval) :
  subscript primary "call_type" = Ok lp ->
  subscript backup "call_type" = Ok lb ->
  StrategyCombiner_invoke self
    (combiner_inputs (three_opinions primary backup negative) (PBool true) text)
  = combine_results primary backup negative (PBool true) text.
Proof.
  intros Hp Hb. rewrite (combine_results_policy _ _ _ _ _ _ Hp Hb).
  now apply StrategyCombiner_invoke_policy_keys.
Qed.

Lemma combiners_agree_on_valid_primary_witness :
  StrategyCombiner_invoke (StrategyCombiner_init None)
    (combiner_inputs (three_opinions billing off_list (PStr "yes")) (PBool true)
       (PStr "hello"))
  = combine_results billing off_list (PStr "yes") (PBool true) (PStr "hello").
Proof.
  apply (combiners_agree_on_valid_primary (StrategyCombiner_init None)
           billing off_list (PStr "yes") (PStr "hello")
           (PStr "BILLING") (PStr "WATER LEAK")); reflexivity.
Defined.

(** Rule 3. With a validated primary, a negative check other than "no", and
    a primary label that is not None and equals the backup label, both
    variants return that label at high confidence, not flagged. *)
Theorem agreement_gives_high (self : StrategyCombiner)
  (primary backup negative text lp lb : pyval) :
  lp <> PNone ->
  eq lp lb = true ->
  eq negative (PStr "no") = false ->
  subscript primary "call_type" = Ok lp ->
  subscript backup "call_type" = Ok lb ->
  returns (StrategyCombiner_invoke self
             (combiner_inputs (three_opinions primary backup negative)
                (PBool true) text))
          lp "high" false /\
  returns (combine_results primary backup negative (PBool true) text)
          lp "high" false.
Proof.
  intros Hlp Heq Hneg Hp Hb.
  rewrite (StrategyCombiner_invoke_policy_keys self _ _ _ _ _ _ Hp Hb).
  rewrite (combine_results_policy _ _ _ _ _ _ Hp Hb).
  unfold policy. cbn [negb]. rewrite Hneg, Heq.
  apply is_none_false in Hlp. rewrite Hlp. cbn [andb negb].
  split; now apply returns_with.
Qed.

Lemma agreement_gives_high_witness :
  returns (StrategyCombiner_invoke (StrategyCombiner_init None)
             (combiner_inputs (three_opinions billing billing (PStr "yes"))
                (PBool true) (PStr "hello")))
          (PStr "BILLING") "high" false /\
  returns (combine_results billing billing (PStr "yes") (PBool true) (PStr "hello"))
          (PStr "BILLING") "high" false.
Proof.
  apply (agreement_gives_high (StrategyCombiner_init None) billing billing
           (PStr "yes") (PStr "hello") (PStr "BILLING") (PStr "BILLING"));
    [discriminate | reflexivity ..].
Defined.



Lemma policy_tiered (lp lb negative : pyval) (valid : bool) :
  tiered (policy lp lb negative valid).
Proof.
  unfold policy, tiered.
  destruct valid; cbn [negb].
  - destruct (eq negative (PStr "no") && negb (is_none lp)) eqn:H1.
    + apply andb_true_iff in H1 as [_ H1]. apply negb_true_iff in H1.
      destruct (is_none lb); [now left |].
      destruct (eq lb lp); [right; eauto 6 | now left].
    + destruct (eq lp lb && negb (is_none lp)) eqn:H2.
      * apply andb_true_iff in H2 as [_ H2]. apply negb_true_iff in H2.
        right; eauto 6.
      * destruct (is_none lp) eqn:H3; cbn [negb]; [now left | right; eauto 6].
  - destruct (is_none lb) eqn:H; [now left | right; eauto 6].
Qed.

(** The domain of the packaged combiner: on the inputs dictionary that
    RobustEvaluator.invoke builds, it raises AttributeError when the backup
    opinion is not a dictionary, or when validation passed and the primary
    opinion is not a dictionary; on all other opinions it returns a verdict
    that is either the null verdict or a non-None label at high or medium
    confidence. *)
Theorem StrategyCombiner_invoke_domain (self : StrategyCombiner)
  (primary backup negative text : pyval) (valid : bool) :
  let r := StrategyCombiner_invoke self
             (combiner_inputs (three_opinions primary backup negative)
                (PBool valid) text) in
  if is_dict backup && (negb valid || is_dict primary)
  then exists v, r = Ok v /\ tiered v
  else r = Raise AttributeError.
Proof.
  cbv zeta.
  destruct (is_dict backup) eqn:Hb; cbn [andb].
  - apply is_dict_true in Hb as [b ->].
    destruct valid; cbn [negb orb].
    + destruct (is_dict primary) eqn:Hp.
      * apply is_dict_true in Hp as [p ->].
        rewrite StrategyCombiner_invoke_policy.
        eexists; split; [reflexivity | apply policy_tiered].
      * unfold StrategyCombiner_invoke, combiner_inputs, three_opinions, pand.
        cbn [subscript dict_lookup String.eqb Ascii.eqb Bool.eqb bind get truthy negb].
        fold (get primary "call_type" PNone).
        rewrite (get_non_dict primary _ _ Hp). cbn [bind].
        destruct (eq negative (PStr "no")); reflexivity.
    + rewrite StrategyCombiner_invoke_fallback.
      eexists; split; [reflexivity |].
      destruct (is_none (label_of b)) eqn:Hn; [now left | right; eauto 6].
  - unfold StrategyCombiner_invoke, combiner_inputs, three_opinions, pand.
    cbn [subscript dict_lookup String.eqb Ascii.eqb Bool.eqb bind get truthy].
    fold (get backup "call_type" PNone). fold (get primary "call_type" PNone).
    rewrite (get_non_dict backup _ _ Hb).
    destruct valid; cbn [negb bind]; [| reflexivity].
    destruct (is_dict primary) eqn:Hp.
    + apply is_dict_true in Hp as [p ->]. rewrite get_dict. cbn [bind].
      destruct (eq negative (PStr "no")); cbn [bind]; [| reflexivity].
      destruct (is_none (label_of p)); reflexivity.
    + rewrite (get_non_dict primary _ _ Hp). cbn [bind].
      destruct (eq negative (PStr "no")); reflexivity.
Qed.

Lemma StrategyCombiner_invoke_tiered (self : StrategyCombiner) (inputs v : pyval) :
  StrategyCombiner_invoke self inputs = Ok v -> tiered v.
Proof.
  unfold StrategyCombiner_invoke, pand, tiered.
  destruct (subscript inputs "parser_results") as [prs |]; [| discriminate].
  destruct (subscript inputs "validation_result") as [valid |]; [| discriminate].
  cbn [bind].
  destruct (get prs "primary" _) as [primary |]; [| discriminate].
  destruct (get prs "backup" _) as [backup |]; [| discriminate].
  destruct (get prs "negative" _) as [negative |]; [| discriminate].
  cbn [bind].
  destruct (truthy valid); cbn [negb].
  - destruct (eq negative (PStr "no")); cbn [bind].
    + destruct (get primary "call_type" PNone) as [lp |]; [| discriminate].
      cbn [bind]. destruct (is_none lp) eqn:Hp; cbn [negb].
      * destruct (get backup "call_type" PNone) as [lb |]; [| discriminate].
        cbn [bind]. destruct (eq lp lb); cbn [bind]; rewrite ?Hp; cbn [negb];
          intros [= <-]; now left.
      * destruct (get backup "call_type" PNone) as [lb |]; [| discriminate].
        cbn [bind]. destruct (is_none lb); [intros [= <-]; now left |].
        destruct (eq lb lp); intros [= <-]; [right; eauto 6 | now left].
    + destruct (get primary "call_type" PNone) as [lp |]; [| discriminate].
      cbn [bind].
      destruct (get backup "call_type" PNone) as [lb |]; [| discriminate].
      cbn [bind]. destruct (eq lp lb); cbn [bind];
        destruct (is_none lp) eqn:Hp; cbn [negb];
        intros [= <-]; try (now left); right; eauto 6.
  - destruct (get backup "call_type" PNone) as [lb |] eqn:Hg; [| discriminate].
    cbn [bind]. destruct (is_none lb) eqn:Hb; cbn [negb].
    + intros [= <-]; now left.
    + rewrite (subscript_of_get _ _ _ Hg Hb). cbn [bind].
      intros [= <-]; right; eauto 6.
Qed.

(** Whatever value is passed as inputs, a verdict returned by the packaged
    combiner reads as one of two kinds: label None at low confidence and
    flagged for human review, or a label that is not None at high or medium
    confidence and not flagged. The tier is never missing. *)
Theorem StrategyCombiner_invoke_tiers (self : StrategyCombiner) (inputs v : pyval) :
  StrategyCombiner_invoke self inputs = Ok v ->
  exists l c,
    verdict_label v = Ok l /\
    verdict_confidence v = Ok (PStr c) /\
    verdict_needs_human v = Ok (is_none l) /\
    ((l = PNone /\ c = "low") \/
     (l <> PNone /\ (c = "high" \/ c = "medium"))).
Proof.
  intro H. apply StrategyCombiner_invoke_tiered in H.
  destruct H as [-> | (l & c & -> & Hl & Hc)].
  - exists PNone, "low". repeat split. now left.
  - exists l, c. repeat split.
    + unfold verdict_needs_human. cbn. now rewrite Hl.
    + right. split; [now apply is_none_false | exact Hc].
Qed.

Lemma StrategyCombiner_invoke_tiers_witness :
  exists l c,
    verdict_label (verdict_with (PStr "BILLING") "high") = Ok l /\
    verdict_confidence (verdict_with (PStr "BILLING") "high") = Ok (PStr c) /\
    verdict_needs_human (verdict_with (PStr "BILLING") "high") = Ok (is_none l) /\
    ((l = PNone /\ c = "low") \/
     (l <> PNone /\ (c = "high" \/ c = "medium"))).
Proof.
  apply (StrategyCombiner_invoke_tiers (StrategyCombiner_init None)
           (combiner_inputs (three_opinions billing billing (PStr "yes"))
              (PBool true) (PStr "hello"))).
  reflexivity.
Defined.

(** On opinion dictionaries the packaged combiner answers high confidence
    in exactly one situation: validation passed, the negative check is not
    "no", and the primary label is not None and equals the backup label. *)
Theorem high_confidence_exactly (self : StrategyCombiner)
  (p b : list (string * pyval)) (negative text : pyval) (valid : bool) :
  exists v,
    StrategyCombiner_invoke self
      (combiner_inputs (three_opinions (PDict p) (PDict b) negative)
         (PBool valid) text) = Ok v /\
    (verdict_confidence v = Ok (PStr "high") <->
     valid = true /\ eq negative (PStr "no") = false /\
     is_none (label_of p) = false /\ eq (label_of p) (label_of b) = true).
Proof.
  rewrite StrategyCombiner_invoke_policy. eexists. split; [reflexivity |].
  unfold policy.
  destruct valid; cbn [negb].
  - destruct (eq negative (PStr "no")); cbn [andb].
    + destruct (is_none (label_of p)); cbn [negb].
      * rewrite andb_false_r. cbn. split; [discriminate | intros (_ & H & _); discriminate].
      * destruct (is_none (label_of b));
          [cbn; split; [discriminate | intros (_ & H & _); discriminate] |].
        destruct (eq (label_of b) (label_of p)); cbn;
          (split; [discriminate | intros (_ & H & _); discriminate]).
    + destruct (eq (label_of p) (label_of b)); cbn [andb].
      * destruct (is_none (label_of p)); cbn [negb]; cbn.
        -- split; [discriminate | intros (_ & _ & H & _); discriminate].
        -- split; auto.
      * destruct (is_none (label_of p)); cbn [negb]; cbn;
          (split; [discriminate | intros (_ & _ & _ & H); discriminate]).
  - destruct (is_none (label_of b)); cbn;
      (split; [discriminate | intros (H & _); discriminate]).
Qed.

(** On opinion dictionaries the packaged combiner never invents a label:
    the verdict label is None, or the primary label when validation passed,
    or the backup label when it failed. A validated primary label is never
    replaced by a different backup label. *)
Theorem verdict_label_provenance (self : StrategyCombiner)
  (p b : list (string * pyval)) (negative text : pyval) (valid : bool) :
  exists v l,
    StrategyCombiner_invoke self
      (combiner_inputs (three_opinions (PDict p) (PDict b) negative)
         (PBool valid) text) = Ok v /\
    verdict_label v = Ok l /\
    (l = PNone \/ l = (if valid then label_of p else label_of b)).
Proof.
  rewrite StrategyCombiner_invoke_policy. unfold policy.
  destruct valid; cbn [negb].
  - destruct (eq negative (PStr "no") && negb (is_none (label_of p))).
    + destruct (is_none (label_of b)); [exists verdict_none_low, PNone; auto |].
      destruct (eq (label_of b) (label_of p));
        eexists; eexists; (split; [reflexivity |]); (split; [reflexivity |]); auto.
    + destruct (eq (label_of p) (label_of b) && negb (is_none (label_of p)));
        [eexists; eexists; (split; [reflexivity |]); (split; [reflexivity |]); auto |].
      destruct (is_none (label_of p)); cbn [negb];
        eexists; eexists; (split; [reflexivity |]); (split; [reflexivity |]); auto.
  - destruct (is_none (label_of b));
      eexists; eexists; (split; [reflexivity |]); (split; [reflexivity |]); auto.
Qed.

(** ** Parsers *)

Lemma fallback_search_cases (categories : list string) (content : string) :
  (fallback_search categories content = PDict [("call_type", PNone)] /\
   Forall (fun d => str_contains d content = false) categories) \/
  (exists pre c post,
     categories = pre ++ c :: post /\
     Forall (fun d => str_contains d content = false) pre /\
     str_contains c content = true /\
     fallback_search categories content = PDict [("call_type", PStr c)]).
Proof.
  induction categories as [| d ds IH]; cbn [fallback_search].
  - left. split; [reflexivity | constructor].
  - destruct (str_contains d content) eqn:Hd.
    + right. exists [], d, ds. repeat split; [constructor | exact Hd].
    + destruct IH as [[He Hall] | (pre & c & post & -> & Hpre & Hc & He)].
      * left. split; [exact He | now constructor].
      * right. exists (d :: pre), c, post.
        repeat split; [now constructor | exact Hc | exact He].
Qed.

(** The substring fallback of the parsers returns the first category, in
    the order of the category list, that occurs in the response, wherever
    it stands in the text; it returns the None label exactly when no
    category occurs. *)
Theorem fallback_search_first_match (categories : list string) (content : string) :
  (forall c,
     fallback_search categories content = PDict [("call_type", PStr c)] <->
     exists pre post,
       categories = pre ++ c :: post /\
       Forall (fun d => str_contains d content = false) pre /\
       str_contains c content = true) /\
  (fallback_search categories content = PDict [("call_type", PNone)] <->
   Forall (fun d => str_contains d content = false) categories).
Proof.
  split.
  - intro c. split.
    + intro H.
      destruct (fallback_search_cases categories content)
        as [[He _] | (pre & c' & post & Hcat & Hpre & Hc & He)].
      * rewrite He in H. discriminate H.
      * rewrite He in H. injection H as <-. now exists pre, post.
    + intros (pre & post & -> & Hpre & Hc).
      induction pre as [| d pre IH]; cbn [app fallback_search].
      * now rewrite Hc.
      * inversion Hpre as [| ? ? Hd Hpre']; subst. rewrite Hd. now apply IH.
  - split.
    + intro H.
      destruct (fallback_search_cases categories content)
        as [[_ Hall] | (pre & c' & post & Hcat & Hpre & Hc & He)];
        [exact Hall |].
      rewrite He in H. discriminate H.
    + intro Hall. induction Hall as [| d ds Hd _ IH]; cbn [fallback_search];
        [reflexivity | now rewrite Hd].
Qed.

Lemma SchemaValidator_invoke_label (categories : list string) (l : pyval) :
  SchemaValidator_invoke categories (PDict [("call_type", l)])
  = Ok (is_none l || in_strs l categories).
Proof. reflexivity. Qed.

(** An opinion produced by the substring fallback always passes the schema
    validator built on the same category list: when the model response is
    not JSON, the parsed opinion is valid. For the script variant the
    category list is CALL_TYPES. *)
Theorem fallback_opinion_validates (json_loads : string -> option pyval)
  (categories : list string) (content : string) :
  json_loads (strip content) = None ->
  SchemaValidator_invoke categories (parser_interpret json_loads categories content)
  = Ok true /\
  validate_call_type (parser_interpret json_loads CALL_TYPES content) = Ok true.
Proof.
  intro Hj. unfold parser_interpret. rewrite Hj.
  assert (H : forall cats,
             SchemaValidator_invoke cats (fallback_search cats content) = Ok true).
  { intro cats.
    destruct (fallback_search_cases cats content)
      as [[He _] | (pre & c & post & Hcat & _ & _ & He)];
      rewrite He, SchemaValidator_invoke_label; [reflexivity |].
    f_equal. cbn [is_none orb]. apply in_strs_spec.
    exists c. split; [reflexivity |]. rewrite Hcat. apply in_elt. }
  split; [apply H | exact (H CALL_TYPES)].
Qed.

Lemma fallback_opinion_validates_witness :
  SchemaValidator_invoke ["BILLING"; "CLAIMS"]
    (parser_interpret (fun _ => None) ["BILLING"; "CLAIMS"]
       "I think this is about CLAIMS, or maybe BILLING") = Ok true /\
  validate_call_type
    (parser_interpret (fun _ => None) CALL_TYPES
       "I think this is about CLAIMS, or maybe BILLING") = Ok true.
Proof.
  apply (fallback_opinion_validates (fun _ => None) ["BILLING"; "CLAIMS"]
           "I think this is about CLAIMS, or maybe BILLING").
  reflexivity.
Defined.

(** ** Negative check: letter case *)

Lemma prefix_lower (w s : string) :
  String.prefix w s = true -> String.prefix (lower w) (lower s) = true.
Proof.
  revert s. induction w as [| a w IH]; intros s H; [now destruct s |].
  destruct s as [| b s]; [discriminate H |].
  cbn [String.prefix lower] in *.
  destruct (ascii_dec a b) as [-> | Hab]; [| discriminate H].
  destruct (ascii_dec (lower_char b) (lower_char b)) as [_ | Hn];
    [now apply IH | now contradiction Hn].
Qed.

Lemma str_contains_lower (w s : string) :
  str_contains w s = true -> str_contains (lower w) (lower s) = true.
Proof.
  induction s as [| b s IH]; cbn [str_contains lower]; intro H.
  - rewrite orb_false_r in *. now apply (prefix_lower w "").
  - apply orb_true_iff in H as [H | H]; apply orb_true_iff.
    + left. now apply (prefix_lower w (String b s)).
    + right. now apply IH.
Qed.

(** The negative check ignores letter case and context: a response that
    contains y-e-s in any mix of cases anywhere is read as "yes", even
    when it also contains "no"; a response that contains n-o in any mix of
    cases and no such y-e-s is read as "no". *)
Theorem negative_check_case_insensitive (response w : string) :
  str_contains w response = true ->
  (lower w = "yes" ->
   NegativeChecker_interpret response = "yes" /\
   negative_checker_interpret response = "yes") /\
  (lower w = "no" -> str_contains "yes" (lower response) = false ->
   NegativeChecker_interpret response = "no" /\
   negative_checker_interpret response = "no").
Proof.
  intro Hw. apply str_contains_lower in Hw.
  unfold NegativeChecker_interpret, negative_checker_interpret.
  rewrite lower_strip, !str_contains_strip by reflexivity.
  split.
  - intro Hy. rewrite Hy in Hw. rewrite Hw. split; reflexivity.
  - intros Hn Hy. rewrite Hn in Hw. rewrite Hy, Hw. split; reflexivity.
Qed.

Lemma negative_check_case_insensitive_witness :
  (NegativeChecker_interpret "No... well, YES." = "yes" /\
   negative_checker_interpret "No... well, YES." = "yes") /\
  (NegativeChecker_interpret "I do not kNOw" = "no" /\
   negative_checker_interpret "I do not kNOw" = "no").
Proof.
  split.
  - apply (negative_check_case_insensitive "No... well, YES." "YES");
      reflexivity.
  - apply (negative_check_case_insensitive "I do not kNOw" "NO");
      reflexivity.
Defined.

(** ** evaluate_calls.py: mapping a response to a call type *)

Lemma prefix_refl (s : string) : String.prefix s s = true.
Proof.
  induction s as [| a s IH]; [reflexivity |]. cbn [String.prefix].
  destruct (ascii_dec a a) as [_ | Hn]; [exact IH | now contradiction Hn].
Qed.

Lemma str_contains_refl (s : string) : str_contains s s = true.
Proof. destruct s; cbn [str_contains]; now rewrite prefix_refl. Qed.

Lemma match_call_type_cases (call_types : list string) (predicted_type : string) :
  (EvaluateCalls.match_call_type call_types predicted_type = predicted_type /\
   Forall (fun d => str_contains d predicted_type = false) call_types) \/
  (exists c,
     In c call_types /\ str_contains c predicted_type = true /\
     EvaluateCalls.match_call_type call_types predicted_type = c).
Proof.
  induction call_types as [| d ds IH]; cbn [EvaluateCalls.match_call_type].
  - left. split; [reflexivity | constructor].
  - destruct (str_contains d predicted_type) eqn:Hd.
    + right. exists d. repeat split; [now left | exact Hd].
    + destruct IH as [[He Hall] | (c & Hin & Hc & He)].
      * left. split; [exact He | now constructor].
      * right. exists c. repeat split; [now right | exact Hc | exact He].
Qed.

(** classify_with_anthropic answers a member of CALL_TYPES exactly when
    some call type occurs in the stripped response; otherwise it answers
    the stripped response itself, which is then no call type. A response
    that is, up to surrounding white space, exactly a call type is answered
    by that call type. *)
Theorem classify_interpret_spec (content : string) :
  (In (EvaluateCalls.classify_interpret content) CALL_TYPES <->
   exists c, In c CALL_TYPES /\ str_contains c (strip content) = true) /\
  (~ In (EvaluateCalls.classify_interpret content) CALL_TYPES ->
   EvaluateCalls.classify_interpret content = strip content) /\
  (In (strip content) CALL_TYPES ->
   EvaluateCalls.classify_interpret content = strip content).
Proof.
  unfold EvaluateCalls.classify_interpret.
  split; [| split].
  - split.
    + intro Hin.
      destruct (match_call_type_cases CALL_TYPES (strip content))
        as [[He Hall] | (c & Hc & Hs & He)].
      * rewrite He in Hin. exists (strip content). split; [exact Hin |].
        apply str_contains_refl.
      * now exists c.
    + intros (c & Hc & Hs).
      destruct (match_call_type_cases CALL_TYPES (strip content))
        as [[He Hall] | (c' & Hc' & Hs' & He)].
      * rewrite Forall_forall in Hall. rewrite (Hall c Hc) in Hs. discriminate Hs.
      * now rewrite He.
  - intro Hn.
    destruct (match_call_type_cases CALL_TYPES (strip content))
      as [[He Hall] | (c & Hc & Hs & He)]; [exact He |].
    rewrite He in Hn. contradiction.
  - intro Hin. unfold CALL_TYPES in Hin. cbn [In] in Hin.
    repeat (destruct Hin as [<- | Hin]; [reflexivity |]). contradiction.
Qed.

Lemma classify_interpret_spec_witness :
  EvaluateCalls.classify_interpret "  CHOKED DRAIN
" = "CHOKED DRAIN".
Proof.
  destruct (classify_interpret_spec "  CHOKED DRAIN
") as (_ & _ & Hexact).
  apply Hexact.
  change (In "CHOKED DRAIN" CALL_TYPES). unfold CALL_TYPES. cbn [In].
  do 8 right. left. reflexivity.
Defined.

(** ** Metrics aggregator: when it returns and when it raises *)

Lemma bind_Ok_inv {A B : Type} (m : pyres A) (k : A -> pyres B) (b : B) :
  bind m k = Ok b -> exists a, m = Ok a /\ k a = Ok b.
Proof. destruct m as [a | e]; simpl; [eauto | discriminate]. Qed.

Lemma succeeds_bind {A B : Type} (m : pyres A) (k : A -> pyres B) :
  succeeds m -> (forall a, m = Ok a -> succeeds (k a)) -> succeeds (bind m k).
Proof. intros [a Ha] Hk. rewrite Ha. cbn [bind]. now apply Hk. Qed.

Lemma succeeds_Ok {A : Type} (a : A) : succeeds (Ok a).
Proof. now exists a. Qed.

Lemma count_if_succeeds {A : Type} (xs : list A) (cond : A -> pyres bool) :
  (forall x, In x xs -> succeeds (cond x)) -> succeeds (count_if xs cond).
Proof.
  induction xs as [| x xs IH]; intro H; cbn [count_if]; [apply succeeds_Ok |].
  apply succeeds_bind; [apply H; now left | intros b _].
  apply succeeds_bind; [apply IH; intros y Hy; apply H; now right | intros n _].
  apply succeeds_Ok.
Qed.

Lemma result_ok_has_label (r : pyval) : result_ok r -> has_label r.
Proof.
  intros (kvs & l & -> & Hl & _). exists l. cbn [subscript]. now rewrite Hl.
Qed.

Lemma actual_at_succeeds (calls : list pyval) (i : nat) :
  Forall has_type calls -> i < length calls -> succeeds (actual_at calls i).
Proof.
  intros Hc Hi. unfold actual_at, index.
  destruct (nth_error calls i) as [c |] eqn:Ec;
    [| apply nth_error_None in Ec; lia].
  rewrite Forall_forall in Hc. destruct (Hc c (nth_error_In _ _ Ec)) as [t Ht].
  cbn [bind]. rewrite Ht. apply succeeds_Ok.
Qed.

Lemma predicted_at_succeeds (results : list pyval) (i : nat) :
  Forall has_label results -> i < length results ->
  succeeds (predicted_at results i).
Proof.
  intros Hr Hi. unfold predicted_at, index.
  destruct (nth_error results i) as [r |] eqn:Er;
    [| apply nth_error_None in Er; lia].
  rewrite Forall_forall in Hr. destruct (Hr r (nth_error_In _ _ Er)) as [l Hl].
  cbn [bind]. rewrite Hl. apply succeeds_Ok.
Qed.

Lemma pand_actual_predicted_succeeds (calls results : list pyval) (i : nat)
  (f g : pyval -> bool) :
  Forall has_type calls -> Forall has_label results ->
  i < length calls -> i < length results ->
  succeeds (pand (a <- actual_at calls i ;; Ok (f a))
                 (p <- predicted_at results i ;; Ok (g p))).
Proof.
  intros Hc Hr Hic Hir.
  destruct (actual_at_succeeds calls i Hc Hic) as [a Ha].
  destruct (predicted_at_succeeds results i Hr Hir) as [p Hp].
  unfold pand. rewrite Ha, Hp. cbn [bind].
  destruct (f a); apply succeeds_Ok.
Qed.

Lemma category_metric_of_succeeds (calls results : list pyval) (c : string) :
  Forall has_type calls -> Forall has_label results ->
  length calls <= length results ->
  succeeds (category_metric_of calls results (length calls) c).
Proof.
  intros Hc Hr Hlen. unfold category_metric_of.
  assert (Hcount : forall f g,
             succeeds (count_if (seq 0 (length calls)) (fun i =>
               pand (a <- actual_at calls i ;; Ok (f a))
                    (p <- predicted_at results i ;; Ok (g p))))).
  { intros f g. apply count_if_succeeds. intros i Hi. apply in_seq in Hi.
    apply pand_actual_predicted_succeeds; [exact Hc | exact Hr | lia | lia]. }
  apply succeeds_bind; [apply (Hcount (fun a => eq a (PStr c)) (fun p => eq p (PStr c))) | intros tp _].
  apply succeeds_bind; [apply (Hcount (fun a => eq a (PStr c)) (fun p => negb (eq p (PStr c)))) | intros fn _].
  apply succeeds_bind; [apply (Hcount (fun a => negb (eq a (PStr c))) (fun p => eq p (PStr c))) | intros fp _].
  rewrite !ratio_or_zero_value. cbn [bind]. rewrite f1_or_zero_value.
  apply succeeds_Ok.
Qed.

Lemma category_loop_succeeds (calls results : list pyval) (categories : list string)
  (acc : list (string * category_metric)) :
  Forall has_type calls -> Forall has_label results ->
  length calls <= length results ->
  succeeds (category_loop calls results (length calls) categories acc).
Proof.
  intros Hc Hr Hlen. revert acc.
  induction categories as [| c cs IH]; intro acc; cbn [category_loop];
    [apply succeeds_Ok |].
  apply succeeds_bind; [now apply category_metric_of_succeeds | intros m _].
  apply IH.
Qed.

Lemma tier_known_succeeds {A : Type} (c : pyval) (m : list (string * A)) :
  hashable c = true -> succeeds (tier_known c m).
Proof. destruct c; cbn; intro H; try discriminate H; apply succeeds_Ok. Qed.

Lemma tier_loop_succeeds (calls results : list pyval) (idx : list nat)
  (acc : list (string * (nat * nat))) :
  Forall has_type calls -> Forall result_ok results ->
  (forall i, In i idx -> i < length calls /\ i < length results) ->
  succeeds (tier_loop calls results idx acc).
Proof.
  intros Hc Hr. revert acc.
  induction idx as [| i idx IH]; intros acc Hidx; cbn [tier_loop];
    [apply succeeds_Ok |].
  destruct (Hidx i (or_introl Logic.eq_refl)) as [Hic Hir].
  assert (IH' : forall acc', succeeds (tier_loop calls results idx acc')).
  { intro acc'. apply IH. intros j Hj. apply Hidx. now right. }
  unfold index.
  destruct (nth_error results i) as [r |] eqn:Er;
    [| apply nth_error_None in Er; lia].
  cbn [bind].
  pose proof (proj1 (Forall_forall _ _) Hr r (nth_error_In _ _ Er))
    as (kvs & l & -> & Hl & Hconf).
  cbn [get].
  assert (Hcorrect : succeeds (is_correct calls results i)).
  { apply is_correct_in_range; [exact Hc | | exact Hir | exact Hic].
    eapply Forall_impl; [| exact Hr]. apply result_ok_has_label. }
  destruct (dict_lookup kvs "confidence") as [c |] eqn:Ec; cbn [bind].
  - apply succeeds_bind; [apply tier_known_succeeds; now apply Hconf |].
    intros [] _; [| apply IH'].
    apply succeeds_bind; [exact Hcorrect | intros; apply IH'].
  - apply succeeds_bind; [now apply tier_known_succeeds |].
    intros [] _; [| apply IH'].
    apply succeeds_bind; [exact Hcorrect | intros; apply IH'].
Qed.

Lemma tier_accuracy_succeeds (acc : list (string * (nat * nat))) :
  succeeds (tier_accuracy acc).
Proof.
  induction acc as [| [c [n k]] acc IH]; cbn [tier_accuracy]; [apply succeeds_Ok |].
  rewrite ratio_or_zero_value. cbn [bind].
  apply succeeds_bind; [exact IH | intros; apply succeeds_Ok].
Qed.

Lemma aggregate_succeeds (calls results : list pyval) (categories : list string) :
  Forall has_type calls -> Forall result_ok results ->
  length calls <= length results ->
  exists r, aggregate calls results categories = Ok r /\
            mr_total r = length calls.
Proof.
  intros Hc Hr Hlen.
  assert (Hl : Forall has_label results).
  { eapply Forall_impl; [| exact Hr]. apply result_ok_has_label. }
  unfold aggregate.
  destruct (count_if_succeeds (seq 0 (length calls)) (is_correct calls results))
    as [correct ->].
  { intros i Hi. apply in_seq in Hi.
    apply is_correct_in_range; [exact Hc | exact Hl | lia | lia]. }
  cbn [bind]. rewrite ratio_or_zero_value. cbn [bind].
  destruct (category_loop_succeeds calls results categories [] Hc Hl Hlen)
    as [cms ->].
  cbn [bind].
  destruct (tier_loop_succeeds calls results (seq 0 (length calls))
              [("high", (0, 0)); ("medium", (0, 0)); ("low", (0, 0));
               ("unknown", (0, 0))] Hc Hr) as [counted ->].
  { intros i Hi. apply in_seq in Hi. lia. }
  cbn [bind].
  destruct (tier_accuracy_succeeds counted) as [tms ->]. cbn [bind].
  destruct (count_if_succeeds results
              (fun result => h <- get result "needs_human" (PBool false) ;;
                             Ok (truthy h))) as [nh ->].
  { intros r Hin.
    pose proof (proj1 (Forall_forall _ _) Hr r Hin) as (kvs & l & -> & _ & _).
    cbn [get]. destruct (dict_lookup kvs "needs_human"); apply succeeds_Ok. }
  cbn [bind]. rewrite ratio_or_zero_value. cbn [bind].
  eexists. split; reflexivity.
Qed.

Lemma aggregate_short_results (calls results : list pyval)
  (categories : list string) :
  Forall has_type calls -> Forall has_label results ->
  length results < length calls ->
  aggregate calls results categories = Raise IndexError.
Proof.
  intros Hc Hl Hlt. unfold aggregate.
  rewrite (count_if_seq_raise _ IndexError _ 0 (length results)).
  - reflexivity.
  - lia.
  - intros i Hi. apply is_correct_in_range; [exact Hc | exact Hl | lia | lia].
  - now apply is_correct_past_results.
Qed.

(** Both aggregators read calls and results by the same index up to
    len(calls). With well-formed call records and result records they
    return a report exactly when there are at least as many results as
    calls, and raise IndexError when there are fewer. *)
Theorem aggregators_need_aligned_results (calls results : list pyval)
  (categories : option (list string)) :
  Forall has_type calls -> Forall result_ok results ->
  (length calls <= length results ->
   (exists r, EvaluationMetrics_invoke
                {| mi_calls := calls; mi_results := results;
                   mi_categories := categories |} = Ok r /\
              mr_total r = length calls) /\
   (exists r, evaluate_accuracy calls results = Ok r /\
              mr_total r = length calls)) /\
  (length results < length calls ->
   EvaluationMetrics_invoke
     {| mi_calls := calls; mi_results := results; mi_categories := categories |}
   = Raise IndexError /\
   evaluate_accuracy calls results = Raise IndexError).
Proof.
  intros Hc Hr. split; intro Hlen.
  - split; apply aggregate_succeeds; assumption.
  - assert (Hl : Forall has_label results).
    { eapply Forall_impl; [| exact Hr]. apply result_ok_has_label. }
    split; apply aggregate_short_results; assumption.
Qed.

Lemma aggregators_need_aligned_results_witness :
  (exists r, evaluate_accuracy two_calls [sample_result; sample_result] = Ok r /\
             mr_total r = 2) /\
  evaluate_accuracy two_calls [sample_result] = Raise IndexError.
Proof.
  assert (Hc : Forall has_type two_calls).
  { repeat constructor; eexists; reflexivity. }
  assert (Hr : forall n, Forall result_ok (repeat sample_result n)).
  { intro n. induction n; constructor; [| assumption].
    eexists. eexists. split; [reflexivity |]. split; [reflexivity |].
    intros c [= <-]. reflexivity. }
  split.
  - apply (aggregators_need_aligned_results two_calls
             [sample_result; sample_result] None Hc (Hr 2)).
    simpl. lia.
  - apply (aggregators_need_aligned_results two_calls [sample_result] None
             Hc (Hr 1)).
    simpl. lia.
Defined.

(** ** Metrics aggregator: what the numbers of a report are *)

Lemma count_if_le {A : Type} (xs : list A) (cond : A -> pyres bool) (n : nat) :
  count_if xs cond = Ok n -> n <= length xs.
Proof.
  revert n. induction xs as [| x xs IH]; intros n H; cbn [count_if] in H.
  - injection H as <-. simpl. lia.
  - apply bind_Ok_inv in H as (b & _ & H).
    apply bind_Ok_inv in H as (m & Hm & H). injection H as <-.
    apply IH in Hm. destruct b; simpl; lia.
Qed.

Lemma count_if_split {A : Type} (xs : list A) (pa pp : A -> pyres pyval)
  (f g : pyval -> bool) (n1 n2 : nat) :
  count_if xs (fun i => pand (a <- pa i ;; Ok (f a)) (p <- pp i ;; Ok (g p)))
  = Ok n1 ->
  count_if xs (fun i => pand (a <- pa i ;; Ok (f a))
                             (p <- pp i ;; Ok (negb (g p))))
  = Ok n2 ->
  count_if xs (fun i => a <- pa i ;; Ok (f a)) = Ok (n1 + n2).
Proof.
  revert n1 n2. induction xs as [| x xs IH]; intros n1 n2 H1 H2;
    cbn [count_if] in *.
  - injection H1 as <-. injection H2 as <-. reflexivity.
  - apply bind_Ok_inv in H1 as (b1 & Hb1 & H1).
    apply bind_Ok_inv in H1 as (m1 & Hm1 & H1). injection H1 as <-.
    apply bind_Ok_inv in H2 as (b2 & Hb2 & H2).
    apply bind_Ok_inv in H2 as (m2 & Hm2 & H2). injection H2 as <-.
    rewrite (IH _ _ Hm1 Hm2). unfold pand in Hb1, Hb2.
    destruct (pa x) as [a |]; cbn [bind] in *; [| discriminate Hb1].
    destruct (f a); cbn [bind].
    + destruct (pp x) as [p |]; cbn [bind] in *; [| discriminate Hb1].
      injection Hb1 as <-. injection Hb2 as <-.
      destruct (g p); cbn [negb]; f_equal; lia.
    + injection Hb1 as <-. injection Hb2 as <-. reflexivity.
Qed.

Lemma count_if_ext {A : Type} (xs : list A) (c1 c2 : A -> pyres bool) :
  (forall x, In x xs -> c1 x = c2 x) -> count_if xs c1 = count_if xs c2.
Proof.
  induction xs as [| x xs IH]; intro H; cbn [count_if]; [reflexivity |].
  rewrite (H x (or_introl Logic.eq_refl)), IH; [reflexivity |].
  intros y Hy. apply H. now right.
Qed.

Lemma count_if_map {A B : Type} (h : A -> B) (xs : list A) (cond : B -> pyres bool) :
  count_if (map h xs) cond = count_if xs (fun x => cond (h x)).
Proof.
  induction xs as [| x xs IH]; cbn [map count_if]; [reflexivity |].
  now rewrite IH.
Qed.

Lemma count_actual_support (calls : list pyval) (c : string) (n : nat) :
  count_if (seq 0 (length calls))
    (fun i => a <- actual_at calls i ;; Ok (eq a (PStr c))) = Ok n ->
  n = support calls c.
Proof.
  revert n. induction calls as [| call calls IH]; intros n H.
  - injection H as <-. reflexivity.
  - cbn [length seq count_if] in H.
    apply bind_Ok_inv in H as (b & Hb & H).
    apply bind_Ok_inv in H as (m & Hm & H). injection H as <-.
    rewrite <- seq_shift, count_if_map in Hm.
    rewrite (count_if_ext _ _
               (fun i => a <- actual_at calls i ;; Ok (eq a (PStr c)))) in Hm
      by reflexivity.
    apply IH in Hm. subst m.
    unfold actual_at, index in Hb. cbn [nth_error bind] in Hb.
    unfold support. cbn [filter].
    destruct (subscript call "type") as [a |]; cbn [bind] in Hb;
      [| discriminate Hb].
    injection Hb as <-. destruct (eq a (PStr c)); reflexivity.
Qed.

Lemma support_le (calls : list pyval) (c : string) : support calls c <= length calls.
Proof. unfold support. apply filter_length_le. Qed.

Lemma Q_of_nat_le (a b : nat) : a <= b -> (Q_of_nat a <= Q_of_nat b)%Q.
Proof. intro H. unfold Q_of_nat. rewrite <- Zle_Qle. lia. Qed.

Lemma Q_of_nat_pos (a : nat) : 0 < a -> (0 < Q_of_nat a)%Q.
Proof.
  intro H. unfold Q_of_nat. change 0%Q with (inject_Z 0). rewrite <- Zlt_Qlt. lia.
Qed.

Lemma ratio_unit (num den : nat) (q : Q) :
  num <= den -> ratio_or_zero num den = Ok q -> unit_rate q.
Proof.
  intros Hle H. rewrite ratio_or_zero_value in H. injection H as <-.
  destruct (Nat.ltb_spec 0 den) as [Hd | Hd].
  - pose proof (Q_of_nat_pos den Hd) as Hpos.
    pose proof (Q_of_nat_le num den Hle) as Hnd.
    pose proof (Q_of_nat_le 0 num (Nat.le_0_l num)) as Hn0.
    change (Q_of_nat 0) with 0%Q in Hn0.
    split.
    + apply Qle_shift_div_l; [exact Hpos | lra].
    + apply Qle_shift_div_r; [exact Hpos | lra].
  - split; lra.
Qed.

Lemma f1_unit (p r q : Q) :
  unit_rate p -> unit_rate r -> f1_or_zero p r = Ok q -> unit_rate q.
Proof.
  intros [Hp0 Hp1] [Hr0 Hr1] H. rewrite f1_or_zero_value in H. injection H as <-.
  destruct (Qle_bool (p + r) 0) eqn:Hle; cbn [negb]; [split; lra |].
  assert (Hpos : (0 < p + r)%Q).
  { apply Qnot_le_lt. intro Hc. apply Qle_bool_iff in Hc. congruence. }
  split.
  - apply Qle_shift_div_l; [exact Hpos | nra].
  - apply Qle_shift_div_r; [exact Hpos | nra].
Qed.

Lemma category_metric_of_rates (calls results : list pyval) (c : string)
  (m : category_metric) :
  category_metric_of calls results (length calls) c = Ok m ->
  unit_rate (cm_precision m) /\ unit_rate (cm_recall m) /\ unit_rate (cm_f1 m) /\
  cm_count m = support calls c.
Proof.
  unfold category_metric_of. intro H.
  apply bind_Ok_inv in H as (tp & Htp & H).
  apply bind_Ok_inv in H as (fn & Hfn & H).
  apply bind_Ok_inv in H as (fp & Hfp & H).
  apply bind_Ok_inv in H as (precision & Hprec & H).
  apply bind_Ok_inv in H as (recall & Hrec & H).
  apply bind_Ok_inv in H as (f1 & Hf1 & H).
  injection H as <-. cbn [cm_precision cm_recall cm_f1 cm_count].
  apply ratio_unit in Hprec; [| lia]. apply ratio_unit in Hrec; [| lia].
  repeat split; try apply Hprec; try apply Hrec;
    try apply (f1_unit _ _ _ Hprec Hrec Hf1).
  apply count_actual_support. exact (count_if_split _ _ _ _ _ _ _ Htp Hfn).
Qed.

Lemma dict_set_In {A : Type} (d : list (string * A)) (k k' : string) (v v' : A) :
  In (k', v') (dict_set d k v) -> (k' = k /\ v' = v) \/ In (k', v') d.
Proof.
  induction d as [| [k0 v0] d IH]; cbn [dict_set].
  - intros [[= <- <-] | []]. now left.
  - destruct (String.eqb_spec k k0) as [-> | Hne].
    + intros [[= <- <-] | H]; [now left | right; now right].
    + intros [H | H]; [right; now left |].
      destruct (IH H) as [? | ?]; [now left | right; now right].
Qed.

Lemma dict_lookup_In {A : Type} (d : list (string * A)) (k : string) (v : A) :
  dict_lookup d k = Some v -> In (k, v) d.
Proof.
  induction d as [| [k0 v0] d IH]; cbn [dict_lookup]; [discriminate |].
  destruct (String.eqb_spec k k0) as [-> | Hne].
  - intros [= <-]. now left.
  - intro H. right. now apply IH.
Qed.

Lemma category_loop_entries (calls results : list pyval) (total : nat)
  (categories : list string) (acc d : list (string * category_metric)) :
  category_loop calls results total categories acc = Ok d ->
  (forall k m, In (k, m) acc -> category_metric_of calls results total k = Ok m) ->
  (forall k m, In (k, m) d -> category_metric_of calls results total k = Ok m) /\
  (forall c, In c categories \/ dict_lookup acc c <> None ->
             dict_lookup d c <> None).
Proof.
  revert acc. induction categories as [| c cs IH]; intros acc H Hacc;
    cbn [category_loop] in H.
  - injection H as <-. split; [exact Hacc |]. intros c [[] | Hc]; exact Hc.
  - apply bind_Ok_inv in H as (m & Hm & H).
    apply IH in H as [Hent Hcov].
    + split; [exact Hent |]. intros c' Hc'. apply Hcov.
      rewrite dict_lookup_set.
      destruct (String.eqb_spec c' c) as [-> | Hne]; [right; discriminate |].
      destruct Hc' as [[-> | Hin] | Hl]; [congruence | now left | now right].
    + intros k m' Hin. apply dict_set_In in Hin as [[-> ->] | Hin];
        [exact Hm | now apply Hacc].
Qed.

(** Every category of the list has an entry in a returned report, and its
    count is the support of the category: the number of call records whose
    type equals it, whatever was predicted. *)
Theorem category_count_is_support (calls results : list pyval)
  (categories : list string) (r : MetricsReport) (c : string) :
  aggregate calls results categories = Ok r ->
  In c categories ->
  exists m, dict_lookup (category_metrics r) c = Some m /\
            cm_count m = support calls c /\
            cm_count m <= mr_total r.
Proof.
  unfold aggregate. intros H Hc.
  apply bind_Ok_inv in H as (correct & _ & H).
  apply bind_Ok_inv in H as (accuracy & _ & H).
  apply bind_Ok_inv in H as (cms & Hcms & H).
  apply bind_Ok_inv in H as (counted & _ & H).
  apply bind_Ok_inv in H as (tms & _ & H).
  apply bind_Ok_inv in H as (nh & _ & H).
  apply bind_Ok_inv in H as (pct & _ & H).
  injection H as <-. cbn [category_metrics mr_total].
  apply category_loop_entries in Hcms as [Hent Hcov]; [| intros k m []].
  destruct (dict_lookup cms c) as [m |] eqn:Hm;
    [| exfalso; apply (Hcov c); [now left | exact Hm]].
  exists m. split; [reflexivity |].
  apply dict_lookup_In, Hent, category_metric_of_rates in Hm as (_ & _ & _ & Hs).
  split; [exact Hs |]. rewrite Hs. apply support_le.
Qed.

Lemma category_count_is_support_witness :
  exists r m,
    evaluate_accuracy two_calls [sample_result; sample_result] = Ok r /\
    dict_lookup (category_metrics r) "BILLING" = Some m /\
    cm_count m = support two_calls "BILLING" /\
    cm_count m <= mr_total r.
Proof.
  destruct (aggregate_succeeds two_calls [sample_result; sample_result] CALL_TYPES)
    as (r & Hr & _).
  - repeat constructor; eexists; reflexivity.
  - repeat constructor; eexists; eexists;
      (split; [reflexivity |]); (split; [reflexivity |]);
      intros c [= <-]; reflexivity.
  - simpl. lia.
  - destruct (category_count_is_support two_calls [sample_result; sample_result]
                CALL_TYPES r "BILLING" Hr) as (m & Hm).
    + unfold CALL_TYPES. cbn [In]. do 3 right. now left.
    + exists r, m. split; [exact Hr | exact Hm].
Defined.

Lemma dict_set_Forall {A : Type} (P : A -> Prop) (d : list (string * A))
  (k : string) (v : A) :
  Forall (fun kv => P (snd kv)) d -> P v ->
  Forall (fun kv => P (snd kv)) (dict_set d k v).
Proof.
  intros Hd Hv. induction Hd as [| [k0 v0] d H0 Hd IH]; cbn [dict_set].
  - constructor; [exact Hv | constructor].
  - destruct (String.eqb k k0); constructor; assumption.
Qed.

Lemma dict_set_keys {A : Type} (d : list (string * A)) (k : string) (v v0 : A) :
  dict_lookup d k = Some v0 -> map fst (dict_set d k v) = map fst d.
Proof.
  induction d as [| [k1 v1] d IH]; cbn [dict_lookup dict_set]; [discriminate |].
  destruct (String.eqb k k1); [reflexivity |].
  intro H. cbn [map fst]. now rewrite IH.
Qed.

Lemma dict_set_pair_total (d : list (string * (nat * nat))) (k : string)
  (n c c' : nat) :
  dict_lookup d k = Some (n, c) ->
  pair_total (dict_set d k (S n, c')) = S (pair_total d).
Proof.
  induction d as [| [k1 [n1 c1]] d IH]; cbn [dict_lookup dict_set]; [discriminate |].
  destruct (String.eqb k k1).
  - intros [= -> ->]. reflexivity.
  - intro H. cbn [pair_total fold_right snd fst] in *.
    fold (pair_total (dict_set d k (S n, c'))). fold (pair_total d).
    rewrite (IH H). lia.
Qed.

Lemma dict_lookup_keys {A : Type} (d : list (string * A)) (k : string) :
  (exists v, dict_lookup d k = Some v) <-> existsb (String.eqb k) (map fst d) = true.
Proof.
  induction d as [| [k1 v1] d IH]; cbn [dict_lookup map fst existsb].
  - split; [intros [v H]; discriminate | discriminate].
  - destruct (String.eqb k k1); cbn [orb]; [| exact IH].
    split; [reflexivity | intros _; now exists v1].
Qed.

Lemma tier_loop_counts (calls results : list pyval) (idx : list nat)
  (acc d : list (string * (nat * nat))) :
  tier_loop calls results idx acc = Ok d ->
  map fst acc = tier_names ->
  Forall (fun kv => snd (snd kv) <= fst (snd kv)) acc ->
  map fst d = tier_names /\
  Forall (fun kv => snd (snd kv) <= fst (snd kv)) d /\
  pair_total d =
    pair_total acc +
    length (filter (fun i => match nth_error results i with
                             | Some r => known_tier r
                             | None => false
                             end) idx).
Proof.
  revert acc. induction idx as [| i idx IH]; intros acc H Hkeys Hok;
    cbn [tier_loop] in H.
  - injection H as <-. cbn [filter length]. repeat split; [assumption .. | lia].
  - apply bind_Ok_inv in H as (r & Hr & H).
    apply bind_Ok_inv in H as (confidence & Hconf & H).
    apply bind_Ok_inv in H as (known & Hknown & H).
    unfold index in Hr. cbn [filter].
    destruct (nth_error results i) as [r' |]; [| discriminate Hr].
    injection Hr as ->.
    assert (Hkt : known_tier r = match confidence with
                                 | PStr s => existsb (String.eqb s) tier_names
                                 | _ => false
                                 end).
    { unfold known_tier. now rewrite Hconf. }
    rewrite Hkt.
    destruct known.
    + apply bind_Ok_inv in H as (hit & _ & H).
      destruct confidence as [| | | s | |]; cbn [tier_known] in Hknown;
        try discriminate Hknown.
      destruct (dict_lookup acc s) as [[n c] |] eqn:Hs; [| discriminate Hknown].
      assert (Hin : existsb (String.eqb s) tier_names = true).
      { rewrite <- Hkeys. apply dict_lookup_keys. eauto. }
      rewrite Hin. cbn [tier_bump] in H. rewrite Hs in H.
      apply IH in H as (Hk & Ho & Ht).
      * repeat split; [exact Hk | exact Ho |].
        rewrite Ht, (dict_set_pair_total _ _ _ _ _ Hs). cbn iota. cbn [length]. lia.
      * now rewrite (dict_set_keys _ _ _ _ Hs).
      * apply (dict_set_Forall (fun v : nat * nat => snd v <= fst v));
          [exact Hok |].
        apply dict_lookup_In in Hs. rewrite Forall_forall in Hok.
        specialize (Hok _ Hs). cbn [snd fst] in *. destruct hit; lia.
    + assert (Hin : match confidence with
                    | PStr s => existsb (String.eqb s) tier_names
                    | _ => false
                    end = false).
      { destruct confidence as [| | | s | |]; try reflexivity.
        cbn [tier_known] in Hknown.
        destruct (existsb (String.eqb s) tier_names) eqn:He; [| reflexivity].
        rewrite <- Hkeys in He. apply dict_lookup_keys in He as [v Hv].
        rewrite Hv in Hknown. discriminate Hknown. }
      rewrite Hin. now apply IH in H.
Qed.

Lemma tier_accuracy_entries (d : list (string * (nat * nat)))
  (tms : list (string * tier_metric)) :
  tier_accuracy d = Ok tms ->
  Forall (fun kv => snd (snd kv) <= fst (snd kv)) d ->
  map fst tms = map fst d /\
  tier_total tms = pair_total d /\
  (forall t m, In (t, m) tms ->
               tm_correct m <= tm_count m /\ unit_rate (tm_accuracy m)).
Proof.
  revert tms. induction d as [| [k [n c]] d IH]; intros tms H Hok;
    cbn [tier_accuracy] in H.
  - injection H as <-. split; [reflexivity |]. split; [reflexivity |].
    intros t m [].
  - apply bind_Ok_inv in H as (accuracy & Hacc & H).
    apply bind_Ok_inv in H as (rest & Hrest & H). injection H as <-.
    inversion Hok as [| ? ? Hnc Hok']; subst. cbn [snd fst] in Hnc.
    destruct (IH rest Hrest Hok') as (Hk & Ht & He).
    split; [cbn [map fst]; now rewrite Hk |].
    split.
    + unfold tier_total, pair_total in *. cbn [fold_right snd fst tm_count].
      now rewrite Ht.
    + intros t m [[= <- <-] | Hin]; [| now apply (He t m)].
      cbn [tm_correct tm_count tm_accuracy].
      split; [exact Hnc | apply (ratio_unit c n accuracy Hnc Hacc)].
Qed.

Lemma filter_map_length {A B : Type} (p : B -> bool) (h : A -> B) (l : list A) :
  length (filter p (map h l)) = length (filter (fun x => p (h x)) l).
Proof.
  induction l as [| x l IH]; cbn [map filter]; [reflexivity |].
  destruct (p (h x)); cbn [length]; now rewrite IH.
Qed.

Lemma filter_seq_firstn {A : Type} (f : A -> bool) (xs : list A) (n : nat) :
  length (filter (fun i => match nth_error xs i with
                           | Some x => f x
                           | None => false
                           end) (seq 0 n))
  = length (filter f (firstn n xs)).
Proof.
  revert n. induction xs as [| x xs IH]; intro n.
  - rewrite firstn_nil. cbn [filter length].
    induction (seq 0 n) as [| i l IHl]; [reflexivity |].
    cbn [filter]. now destruct i.
  - destruct n as [| n]; [reflexivity |].
    cbn [seq firstn filter nth_error].
    rewrite <- seq_shift.
    destruct (f x); cbn [length]; rewrite filter_map_length; cbn [nth_error];
      now rewrite IH.
Qed.

Lemma aggregate_inv (calls results : list pyval) (categories : list string)
  (r : MetricsReport) :
  aggregate calls results categories = Ok r ->
  exists correct accuracy cms counted tms nh pct,
    count_if (seq 0 (length calls)) (is_correct calls results) = Ok correct /\
    ratio_or_zero correct (length calls) = Ok accuracy /\
    category_loop calls results (length calls) categories [] = Ok cms /\
    tier_loop calls results (seq 0 (length calls))
      [("high", (0, 0)); ("medium", (0, 0)); ("low", (0, 0)); ("unknown", (0, 0))]
    = Ok counted /\
    tier_accuracy counted = Ok tms /\
    count_if results (fun result =>
      h <- get result "needs_human" (PBool false) ;; Ok (truthy h)) = Ok nh /\
    ratio_or_zero nh (length calls) = Ok pct /\
    r = {| overall_accuracy := accuracy; mr_correct := correct;
           mr_total := length calls; category_metrics := cms;
           confidence_metrics := tms; human_review_count := nh;
           human_review_percentage := pct |}.
Proof.
  unfold aggregate. intro H.
  apply bind_Ok_inv in H as (correct & Hcorrect & H).
  apply bind_Ok_inv in H as (accuracy & Hacc & H).
  apply bind_Ok_inv in H as (cms & Hcms & H).
  apply bind_Ok_inv in H as (counted & Hcounted & H).
  apply bind_Ok_inv in H as (tms & Htms & H).
  apply bind_Ok_inv in H as (nh & Hnh & H).
  apply bind_Ok_inv in H as (pct & Hpct & H).
  injection H as <-.
  exists correct, accuracy, cms, counted, tms, nh, pct. repeat split; assumption.
Qed.

(** Every rate of a returned report lies between 0 and 1: the overall
    accuracy, the precision, recall and F1 of every category, and the
    accuracy of every confidence tier. The correct counts never exceed
    their totals. The human-review count is taken over all results, so its
    percentage is bounded by 1 only when there are no more results than
    calls. *)
Theorem report_rates_are_bounded (calls results : list pyval)
  (categories : list string) (r : MetricsReport) :
  aggregate calls results categories = Ok r ->
  mr_total r = length calls /\
  mr_correct r <= mr_total r /\
  unit_rate (overall_accuracy r) /\
  (forall c m, In (c, m) (category_metrics r) ->
     unit_rate (cm_precision m) /\ unit_rate (cm_recall m) /\
     unit_rate (cm_f1 m)) /\
  (forall t m, In (t, m) (confidence_metrics r) ->
     tm_correct m <= tm_count m /\ unit_rate (tm_accuracy m)) /\
  human_review_count r <= length results /\
  (length results <= length calls -> unit_rate (human_review_percentage r)).
Proof.
  intro H.
  apply aggregate_inv in H
    as (correct & accuracy & cms & counted & tms & nh & pct &
        Hcorrect & Hacc & Hcms & Hcounted & Htms & Hnh & Hpct & ->).
  cbn [mr_total mr_correct overall_accuracy category_metrics confidence_metrics
       human_review_count human_review_percentage].
  apply count_if_le in Hcorrect. rewrite length_seq in Hcorrect.
  apply count_if_le in Hnh.
  split; [reflexivity |]. split; [exact Hcorrect |].
  split; [exact (ratio_unit _ _ _ Hcorrect Hacc) |].
  split.
  { intros c m Hin.
    apply category_loop_entries in Hcms as [Hent _]; [| intros k m' []].
    apply Hent, category_metric_of_rates in Hin as (Hp & Hr & Hf & _).
    split; [exact Hp | split; [exact Hr | exact Hf]]. }
  split.
  { apply tier_loop_counts in Hcounted as (_ & Hok & _);
      [| reflexivity | repeat constructor].
    apply (tier_accuracy_entries _ _ Htms Hok). }
  split; [exact Hnh |].
  intro Hlen. apply (ratio_unit nh (length calls) pct); [lia | exact Hpct].
Qed.

(** The confidence metrics of a returned report have exactly the buckets
    high, medium, low, unknown, in this order, and their counts add up to
    the number of results, among the first len(calls), whose confidence
    (read with the default "unknown") names one of the buckets. A result
    with any other confidence value is counted in no bucket. *)
Theorem tier_counts_partition (calls results : list pyval)
  (categories : list string) (r : MetricsReport) :
  aggregate calls results categories = Ok r ->
  map fst (confidence_metrics r) = tier_names /\
  tier_total (confidence_metrics r)
  = length (filter known_tier (firstn (length calls) results)) /\
  tier_total (confidence_metrics r) <= mr_total r.
Proof.
  intro H.
  apply aggregate_inv in H
    as (correct & accuracy & cms & counted & tms & nh & pct &
        _ & _ & _ & Hcounted & Htms & _ & _ & ->).
  cbn [mr_total confidence_metrics].
  apply tier_loop_counts in Hcounted as (Hkeys & Hok & Htotal);
    [| reflexivity | repeat constructor].
  apply (tier_accuracy_entries _ _ Htms) in Hok as (Hk & Ht & _).
  rewrite Hk, Ht, Htotal, filter_seq_firstn. cbn [pair_total fold_right fst snd].
  split; [exact Hkeys |]. split; [lia |].
  pose proof (filter_length_le known_tier (firstn (length calls) results)) as Hf.
  pose proof (firstn_le_length (length calls) results) as Hn.
  rewrite length_firstn in Hf. lia.
Qed.

Lemma count_if_all_true {A : Type} (xs : list A) (cond : A -> pyres bool) :
  (forall x, In x xs -> cond x = Ok true) -> count_if xs cond = Ok (length xs).
Proof.
  induction xs as [| x xs IH]; intro H; cbn [count_if length]; [reflexivity |].
  rewrite (H x (or_introl Logic.eq_refl)), IH; [reflexivity |].
  intros y Hy. apply H. now right.
Qed.

(** When every prediction equals the ground truth, a returned report counts
    every call as correct and, on a batch that is not empty, its overall
    accuracy is 1. *)
Theorem perfect_predictions_score_one (calls results : list pyval)
  (categories : list string) (r : MetricsReport) :
  aggregate calls results categories = Ok r ->
  (forall i, i < length calls -> is_correct calls results i = Ok true) ->
  mr_correct r = length calls /\
  (0 < length calls -> (overall_accuracy r == 1)%Q).
Proof.
  intros H Hall.
  apply aggregate_inv in H
    as (correct & accuracy & cms & counted & tms & nh & pct &
        Hcorrect & Hacc & _ & _ & _ & _ & _ & ->).
  cbn [mr_correct overall_accuracy].
  rewrite count_if_all_true in Hcorrect.
  - injection Hcorrect as <-. rewrite length_seq. split; [reflexivity |].
    intro Hpos. rewrite length_seq, ratio_or_zero_value in Hacc.
    injection Hacc as <-.
    destruct (Nat.ltb_spec 0 (length calls)) as [_ | Hz]; [| lia].
    apply Qmult_inv_r. intro Hq. pose proof (Q_of_nat_pos _ Hpos) as Hp.
    rewrite Hq in Hp. now apply Qlt_irrefl in Hp.
  - intros i Hi. apply in_seq in Hi. apply Hall. lia.
Qed.

Lemma report_rates_are_bounded_witness :
  match evaluate_accuracy two_calls [sample_result; sample_result] with
  | Ok r => mr_correct r <= mr_total r /\ unit_rate (overall_accuracy r)
  | Raise _ => False
  end.
Proof.
  destruct (evaluate_accuracy two_calls [sample_result; sample_result])
    as [r | e] eqn:H.
  - destruct (report_rates_are_bounded two_calls [sample_result; sample_result]
                CALL_TYPES r H) as (_ & Hc & Ha & _).
    split; [exact Hc | exact Ha].
  - vm_compute in H. discriminate H.
Defined.

Lemma tier_counts_partition_witness :
  match evaluate_accuracy two_calls [sample_result; sample_result] with
  | Ok r => map fst (confidence_metrics r) = tier_names /\
            tier_total (confidence_metrics r) = 2
  | Raise _ => False
  end.
Proof.
  destruct (evaluate_accuracy two_calls [sample_result; sample_result])
    as [r | e] eqn:H.
  - destruct (tier_counts_partition two_calls [sample_result; sample_result]
                CALL_TYPES r H) as (Hk & Ht & _).
    split; [exact Hk | exact Ht].
  - vm_compute in H. discriminate H.
Defined.

Lemma perfect_predictions_score_one_witness :
  match evaluate_accuracy two_calls [sample_result; sample_result] with
  | Ok r => mr_correct r = 2 /\ (overall_accuracy r == 1)%Q
  | Raise _ => False
  end.
Proof.
  destruct (evaluate_accuracy two_calls [sample_result; sample_result])
    as [r | e] eqn:H.
  - destruct (perfect_predictions_score_one two_calls
                [sample_result; sample_result] CALL_TYPES r H) as (Hc & Ha).
    + intros i Hi. destruct i as [| [| i]]; [reflexivity | reflexivity |].
      simpl in Hi. lia.
    + split; [exact Hc | apply Ha; simpl; lia].
  - vm_compute in H. discriminate H.
Defined.

(** ** RobustEvaluator.invoke *)

Lemma run_parsers_raises (pre post : list (string * (pyval -> pyres pyval)))
  (name : string) (f : pyval -> pyres pyval) (text : pyval) (e : pyexn)
  (acc : list (string * pyval)) :
  Forall (fun p => succeeds (snd p text)) pre ->
  f text = Raise e ->
  run_parsers (pre ++ (name, f) :: post) text acc = Raise e.
Proof.
  intros Hpre Hf. revert acc.
  induction Hpre as [| [n g] pre [r Hr] _ IH]; intro acc; cbn [app run_parsers].
  - now rewrite Hf.
  - cbn [snd] in Hr. rewrite Hr. cbn [bind]. apply IH.
Qed.

(** RobustEvaluator.invoke does not catch a parser failure: when the
    parsers before it return and one parser raises, invoke raises the same
    exception and no verdict is built. *)
Theorem RobustEvaluator_invoke_propagates (self : RobustEvaluator)
  (pre post : list (string * (pyval -> pyres pyval))) (name : string)
  (f : pyval -> pyres pyval) (text : pyval) (e : pyexn) :
  parsers self = pre ++ (name, f) :: post ->
  Forall (fun p => succeeds (snd p text)) pre ->
  f text = Raise e ->
  RobustEvaluator_invoke self text = Raise e.
Proof.
  intros Hp Hpre Hf. unfold RobustEvaluator_invoke.
  now rewrite Hp, (run_parsers_raises pre post name f text e [] Hpre Hf).
Qed.

Lemma RobustEvaluator_invoke_propagates_witness :
  RobustEvaluator_invoke flaky_evaluator (PStr "the line drops") = Raise ModelError.
Proof.
  apply (RobustEvaluator_invoke_propagates flaky_evaluator []
           [("backup", fun _ => Ok billing); ("negative", fun _ => Ok (PStr "yes"))]
           "primary" flaky_parser (PStr "the line drops") ModelError).
  - reflexivity.
  - constructor.
  - reflexivity.
Defined.

Lemma RobustEvaluator_invoke_inv (self : RobustEvaluator) (text v : pyval) :
  RobustEvaluator_invoke self text = Ok v ->
  exists prs valid combined,
    run_parsers (parsers self) text [] = Ok prs /\
    tiered combined /\
    set_item combined "_debug"
      (PDict [("parser_results", PDict prs);
              ("validation_result", PBool valid)]) = Ok v.
Proof.
  unfold RobustEvaluator_invoke. intro H.
  apply bind_Ok_inv in H as (prs & Hprs & H).
  apply bind_Ok_inv in H as (primary & _ & H).
  apply bind_Ok_inv in H as (valid & _ & H).
  apply bind_Ok_inv in H as (combined & Hc & H).
  exists prs, valid, combined. split; [exact Hprs |]. split; [| exact H].
  exact (StrategyCombiner_invoke_tiered _ _ _ Hc).
Qed.

Lemma RobustEvaluator_invoke_reads (self : RobustEvaluator) (text v : pyval) :
  RobustEvaluator_invoke self text = Ok v ->
  exists prs valid l c,
    run_parsers (parsers self) text [] = Ok prs /\
    subscript v "call_type" = Ok l /\
    get v "confidence" (PStr "unknown") = Ok (PStr c) /\
    get v "needs_human" (PBool false) = Ok (PBool (is_none l)) /\
    contains_key v "_debug" = Ok true /\
    subscript v "_debug" =
      Ok (PDict [("parser_results", PDict prs);
                 ("validation_result", PBool valid)]) /\
    ((l = PNone /\ c = "low") \/ (l <> PNone /\ (c = "high" \/ c = "medium"))).
Proof.
  intro H. apply RobustEvaluator_invoke_inv in H as (prs & valid & combined & Hprs & Ht & Hs).
  exists prs, valid.
  destruct Ht as [-> | (l & c & -> & Hl & Hc)]; cbn in Hs; injection Hs as <-.
  - exists PNone, "low". repeat split; try reflexivity; try exact Hprs. now left.
  - exists l, c. repeat split; try reflexivity; try exact Hprs.
    + cbn. now rewrite Hl.
    + right. split; [now apply is_none_false | exact Hc].
Qed.

(** A verdict returned by RobustEvaluator.invoke keeps what the combiner
    decided and carries the key _debug: its label is None at low
    confidence and flagged for human review, or not None at high or medium
    confidence and not flagged. *)
Theorem RobustEvaluator_invoke_verdict (self : RobustEvaluator) (text v : pyval) :
  RobustEvaluator_invoke self text = Ok v ->
  exists l c,
    verdict_label v = Ok l /\
    verdict_confidence v = Ok (PStr c) /\
    verdict_needs_human v = Ok (is_none l) /\
    contains_key v "_debug" = Ok true /\
    ((l = PNone /\ c = "low") \/ (l <> PNone /\ (c = "high" \/ c = "medium"))).
Proof.
  intro H.
  apply RobustEvaluator_invoke_reads in H
    as (prs & valid & l & c & _ & Hl & Hc & Hn & Hd & _ & Ht).
  exists l, c. unfold verdict_label, verdict_confidence, verdict_needs_human.
  rewrite Hn. cbn [bind truthy]. repeat split; assumption.
Qed.

Lemma RobustEvaluator_invoke_verdict_witness :
  match RobustEvaluator_invoke flaky_evaluator (PStr "my bill is wrong") with
  | Ok v => verdict_label v = Ok (PStr "BILLING") /\
            contains_key v "_debug" = Ok true
  | Raise _ => False
  end.
Proof.
  destruct (RobustEvaluator_invoke flaky_evaluator (PStr "my bill is wrong"))
    as [v | e] eqn:H.
  - destruct (RobustEvaluator_invoke_verdict _ _ _ H)
      as (l & c & Hl & _ & _ & Hd & _).
    split; [| exact Hd]. vm_compute in H. injection H as <-. reflexivity.
  - vm_compute in H. discriminate H.
Defined.

(** ** RobustEvaluator.batch_evaluate *)

Lemma clean_result_of_inv (self : RobustEvaluator)
  (call text actual v clean : pyval) :
  RobustEvaluator_invoke self text = Ok v ->
  clean_result_of call text actual v = Ok clean ->
  clean_inv clean.
Proof.
  intros Hv H.
  apply RobustEvaluator_invoke_reads in Hv
    as (prs & valid & l & c & _ & Hl & Hc & Hn & Hd & Hdbg & Ht).
  unfold clean_result_of in H.
  destruct (get call "id" (PStr "")) as [id |]; [| discriminate H].
  cbn [bind] in H. rewrite Hl, Hc, Hn, Hd, Hdbg in H. cbn [bind] in H.
  bind_cases H; injection H as <-;
    eexists; exists actual, l, c;
    (split; [reflexivity |]); repeat split; try reflexivity; exact Ht.
Qed.

Lemma clean_inv_result_ok (r : pyval) : clean_inv r -> result_ok r.
Proof.
  intros (kvs & actual & l & c & -> & _ & Hl & Hc & _).
  exists kvs, l. split; [reflexivity |]. split; [exact Hl |].
  intros c' Hc'. rewrite Hc in Hc'. injection Hc' as <-. reflexivity.
Qed.

Lemma batch_loop_clean (self : RobustEvaluator) (calls acc results : list pyval) :
  batch_loop self calls acc = Ok results ->
  Forall clean_inv acc -> Forall clean_inv results.
Proof.
  revert acc. induction calls as [| call calls IH]; intros acc H Hacc.
  - injection H as <-. exact Hacc.
  - cbn [batch_loop] in H.
    apply bind_Ok_inv in H as (ci & _ & H).
    apply bind_Ok_inv in H as (ty & _ & H).
    destruct (RobustEvaluator_invoke self ci) as [v |] eqn:Hv;
      cbn [bind try_except] in H; [| now apply (IH acc)].
    destruct (clean_result_of call ci ty v) as [clean |] eqn:Hclean;
      cbn [bind try_except] in H; [| now apply (IH acc)].
    apply (IH _ H). apply Forall_app. split; [exact Hacc |].
    constructor; [| constructor].
    exact (clean_result_of_inv self call ci ty v clean Hv Hclean).
Qed.

(** batch_evaluate is all or nothing: once the loop over the calls has
    run, it returns a report, holding exactly the collected results, when
    no call was dropped by the except branch, and raises IndexError when
    at least one was. *)
Theorem batch_evaluate_all_or_nothing (self : RobustEvaluator)
  (calls : list pyval) (limit : option Z) (results : list pyval) :
  let calls' := match limit with Some l => slice_to calls l | None => calls end in
  batch_loop self calls' [] = Ok results ->
  (length results = length calls' ->
   exists report, batch_evaluate self calls limit = Ok report /\
                  br_results report = results /\
                  mr_total (br_metrics report) = length calls') /\
  (length results <> length calls' ->
   batch_evaluate self calls limit = Raise IndexError).
Proof.
  cbv zeta. intro Hloop. split; intro Hlen.
  - unfold batch_evaluate. rewrite Hloop. cbn [bind].
    pose proof (batch_loop_invariant _ _ _ _ Hloop) as (Hc & _ & _).
    pose proof (batch_loop_clean _ _ _ _ Hloop (Forall_nil _)) as Hclean.
    destruct (aggregate_succeeds
                (match limit with Some l => slice_to calls l | None => calls end)
                results (categories self) Hc) as (r & Hr & Ht).
    + eapply Forall_impl; [| exact Hclean]. apply clean_inv_result_ok.
    + lia.
    + unfold EvaluationMetrics_invoke. cbn [mi_calls mi_results mi_categories].
      rewrite Hr. cbn [bind]. eexists. repeat split. exact Ht.
  - apply (batch_evaluate_dropped_item self calls limit results Hloop).
    pose proof (batch_loop_invariant _ _ _ _ Hloop) as (_ & _ & Hle).
    simpl in Hle. lia.
Qed.

Lemma batch_evaluate_all_or_nothing_witness :
  batch_evaluate flaky_evaluator two_calls None = Raise IndexError /\
  exists report,
    batch_evaluate flaky_evaluator two_calls (Some 1%Z) = Ok report /\
    mr_total (br_metrics report) = 1.
Proof.
  split.
  - destruct (batch_loop flaky_evaluator two_calls []) as [results | e] eqn:H;
      [| vm_compute in H; discriminate H].
    apply (batch_evaluate_all_or_nothing flaky_evaluator two_calls None results H).
    vm_compute in H. injection H as <-. cbn. lia.
  - destruct (batch_loop flaky_evaluator (slice_to two_calls 1) [])
      as [results | e] eqn:H; [| vm_compute in H; discriminate H].
    destruct (batch_evaluate_all_or_nothing flaky_evaluator two_calls (Some 1%Z)
                results H) as [Hok _].
    destruct Hok as (report & Hr & _ & Ht).
    + vm_compute in H. injection H as <-. reflexivity.
    + exists report. split; [exact Hr | exact Ht].
Defined.

Lemma clean_result_of_record (self : RobustEvaluator)
  (call text actual v clean : pyval) :
  subscript call "customer_input" = Ok text ->
  subscript call "type" = Ok actual ->
  RobustEvaluator_invoke self text = Ok v ->
  clean_result_of call text actual v = Ok clean ->
  record_of self call clean.
Proof.
  intros Htext Hactual Hv H.
  pose proof (RobustEvaluator_invoke_reads _ _ _ Hv)
    as (prs & valid & l & c & _ & Hl & Hc & Hn & Hd & Hdbg & Ht).
  unfold clean_result_of in H.
  destruct (get call "id" (PStr "")) as [id |] eqn:Hid; [| discriminate H].
  cbn [bind] in H. rewrite Hl, Hc, Hn, Hd, Hdbg in H. cbn [bind] in H.
  assert (Hneeds : verdict_needs_human v = Ok (is_none l)).
  { unfold verdict_needs_human. now rewrite Hn. }
  bind_cases H; injection H as <-;
    eexists; exists id, text, actual, v, l, c;
    (split; [reflexivity |]);
    repeat (split; [first [reflexivity | assumption] |]); exact Ht.
Qed.

Lemma batch_loop_records (self : RobustEvaluator) (calls acc results : list pyval) :
  batch_loop self calls acc = Ok results ->
  length results = length acc + length calls ->
  exists recs, results = acc ++ recs /\ Forall2 (record_of self) calls recs.
Proof.
  revert acc. induction calls as [| call calls IH]; intros acc H Hlen.
  - injection H as <-. exists []. split; [now rewrite app_nil_r | constructor].
  - cbn [batch_loop] in H.
    apply bind_Ok_inv in H as (ci & Hci & H).
    apply bind_Ok_inv in H as (ty & Hty & H).
    cbn [length] in Hlen.
    destruct (RobustEvaluator_invoke self ci) as [v |] eqn:Hv;
      cbn [bind try_except] in H.
    + destruct (clean_result_of call ci ty v) as [clean |] eqn:Hclean;
        cbn [bind try_except] in H.
      * destruct (IH _ H) as (recs & -> & Hrecs).
        { rewrite length_app. cbn [length]. lia. }
        exists (clean :: recs). split; [now rewrite <- app_assoc |].
        constructor; [| exact Hrecs].
        exact (clean_result_of_record self call ci ty v clean Hci Hty Hv Hclean).
      * apply batch_loop_invariant in H as (_ & _ & Hle). lia.
    + apply batch_loop_invariant in H as (_ & _ & Hle). lia.
Qed.

(** A report returned by batch_evaluate holds one result record per call
    processed, in the order of the calls. The record of a call carries the
    call's id, text and ground-truth type, and the label, confidence and
    human-review flag of the verdict that RobustEvaluator.invoke returns on
    the call's text; its field correct compares that label with the ground
    truth. The confidence is low exactly for the None label, else high or
    medium, and the flag is true exactly for the None label. *)
Theorem batch_report_records (self : RobustEvaluator) (calls : list pyval)
  (limit : option Z) (report : batch_report) :
  batch_evaluate self calls limit = Ok report ->
  length (br_results report)
  = length (match limit with Some l => slice_to calls l | None => calls end) /\
  Forall clean_inv (br_results report) /\
  Forall2 (record_of self)
    (match limit with Some l => slice_to calls l | None => calls end)
    (br_results report).
Proof.
  intro H. unfold batch_evaluate in H.
  apply bind_Ok_inv in H as (results & Hloop & H).
  destruct (Nat.eq_dec (length results)
              (length (match limit with
                       | Some l => slice_to calls l
                       | None => calls
                       end))) as [Hlen | Hlen].
  - apply bind_Ok_inv in H as (metrics & _ & H). injection H as <-.
    cbn [br_results]. split; [exact Hlen |].
    split; [exact (batch_loop_clean _ _ _ _ Hloop (Forall_nil _)) |].
    destruct (batch_loop_records _ _ _ _ Hloop Hlen) as (recs & -> & Hrecs).
    exact Hrecs.
  - pose proof (batch_loop_invariant _ _ _ _ Hloop) as (Hc & Hl & Hle).
    unfold EvaluationMetrics_invoke in H.
    cbn [mi_calls mi_results mi_categories] in H.
    rewrite aggregate_short_results in H;
      [discriminate H | exact Hc | exact (Hl (Forall_nil _)) | simpl in Hle; lia].
Qed.

Lemma batch_report_records_witness :
  match batch_evaluate flaky_evaluator two_calls (Some 1%Z) with
  | Ok report => length (br_results report) = 1 /\
                 Forall clean_inv (br_results report) /\
                 Forall2 (record_of flaky_evaluator) (slice_to two_calls 1)
                   (br_results report)
  | Raise _ => False
  end.
Proof.
  destruct (batch_evaluate flaky_evaluator two_calls (Some 1%Z))
    as [report | e] eqn:H.
  - exact (batch_report_records flaky_evaluator two_calls (Some 1%Z) report H).
  - vm_compute in H. discriminate H.
Defined.

Lemma batch_loop_skips (self : RobustEvaluator) (pre rest acc : list pyval) :
  Forall call_ok pre ->
  exists acc', batch_loop self (pre ++ rest) acc = batch_loop self rest acc'.
Proof.
  intro Hpre. revert acc.
  induction Hpre as [| call pre (kvs & ci & ty & -> & Hci & Hty) _ IH]; intro acc.
  - now exists acc.
  - cbn [app batch_loop subscript]. rewrite Hci, Hty. cbn [bind].
    destruct (try_except _ _) as [acc1 | e] eqn:Htry.
    + cbn [bind]. apply IH.
    + unfold try_except in Htry.
      destruct (RobustEvaluator_invoke self ci) as [v |]; cbn [bind] in Htry;
        [| discriminate Htry].
      destruct (clean_result_of (PDict kvs) ci ty v); cbn [bind] in Htry;
        discriminate Htry.
Qed.

(** The try block of batch_evaluate does not cover the reads of the call
    record: a call dictionary without the key customer_input, or without
    the key type, is not skipped; it ends the whole batch with KeyError,
    wherever it stands among readable calls. *)
Theorem malformed_call_aborts_batch (self : RobustEvaluator)
  (pre post : list pyval) (kvs : list (string * pyval)) :
  Forall call_ok pre ->
  dict_lookup kvs "customer_input" = None \/ dict_lookup kvs "type" = None ->
  batch_evaluate self (pre ++ PDict kvs :: post) None = Raise KeyError.
Proof.
  intros Hpre Hbad. unfold batch_evaluate.
  destruct (batch_loop_skips self pre (PDict kvs :: post) [] Hpre) as [acc ->].
  cbn [batch_loop subscript].
  destruct (dict_lookup kvs "customer_input") as [ci |]; [| reflexivity].
  destruct Hbad as [Hbad | Hbad]; [discriminate Hbad |].
  now rewrite Hbad.
Qed.

Lemma malformed_call_aborts_batch_witness :
  batch_evaluate flaky_evaluator
    (two_calls ++ [PDict [("id", PStr "3"); ("customer_input", PStr "no label")]])
    None = Raise KeyError.
Proof.
  apply (malformed_call_aborts_batch flaky_evaluator two_calls []
           [("id", PStr "3"); ("customer_input", PStr "no label")]).
  - repeat constructor; eexists; eexists; eexists;
      (split; [reflexivity |]); split; reflexivity.
  - right. reflexivity.
Defined.

(** limit = 0 in batch_evaluate is a limit, not the absence of one: no call
    is processed and the report is the all-zero report. In the script
    run_robust_evaluation.py, whose test is truthiness, limit 0 means no
    limit. *)
Theorem limit_zero_processes_nothing (self : RobustEvaluator)
  (classify : pyval -> pyres pyval) (calls : list pyval) :
  (exists report,
     batch_evaluate self calls (Some 0%Z) = Ok report /\
     br_results report = [] /\
     zero_report (categories self) (br_metrics report)) /\
  run_robust_main classify calls (Some 0%Z) = run_robust_main classify calls None.
Proof.
  split; [| reflexivity].
  unfold batch_evaluate. change (slice_to calls 0) with (@nil pyval).
  cbn [batch_loop bind]. unfold EvaluationMetrics_invoke.
  cbn [mi_calls mi_results mi_categories].
  destruct (aggregate_empty (categories self)) as (r & -> & Hz).
  cbn [bind]. eexists. repeat split; apply Hz.
Qed.

(** A primary opinion that is not a dictionary (the model answered a JSON
    list, number or string) is handled by invoke, which falls back to the
    backup label at medium confidence; but batch_evaluate then fails to
    build the debug record, drops the item, and the whole batch ends in
    IndexError. *)
Theorem non_dict_primary_breaks_batch (cats : list string)
  (primary backup negative : pyval -> pyres pyval)
  (kvs b : list (string * pyval)) (text ty p n : pyval) :
  dict_lookup kvs "customer_input" = Some text ->
  dict_lookup kvs "type" = Some ty ->
  primary text = Ok p -> is_dict p = false ->
  backup text = Ok (PDict b) -> label_of b <> PNone ->
  negative text = Ok n ->
  let self := evaluator_of cats primary backup negative in
  returns (RobustEvaluator_invoke self text) (label_of b) "medium" false /\
  batch_evaluate self [PDict kvs] None = Raise IndexError.
Proof.
  intros Hci Hty Hp Hd Hb Hl Hn self.
  assert (Hinv : RobustEvaluator_invoke self text
                 = Ok (PDict [("call_type", label_of b);
                              ("confidence", PStr "medium");
                              ("_debug",
                               PDict [("parser_results",
                                       PDict [("primary", p);
                                              ("backup", PDict b);
                                              ("negative", n)]);
                                      ("validation_result", PBool false)])])).
  { unfold RobustEvaluator_invoke, self, evaluator_of.
    cbn [parsers run_parsers]. rewrite Hp, Hb, Hn.
    cbn [bind dict_set String.eqb Ascii.eqb Bool.eqb get dict_lookup categories combiner].
    assert (Hv : SchemaValidator_invoke cats p = Ok false).
    { unfold SchemaValidator_invoke, por. rewrite Hd. reflexivity. }
    rewrite Hv. cbn [bind].
    change (combiner_inputs
              (PDict [("primary", p); ("backup", PDict b); ("negative", n)])
              (PBool false) text)
      with (combiner_inputs (three_opinions p (PDict b) n) (PBool false) text).
    rewrite StrategyCombiner_invoke_fallback.
    apply is_none_false in Hl. rewrite Hl. reflexivity. }
  split.
  - rewrite Hinv. eexists. repeat split.
  - apply (batch_evaluate_dropped_item self [PDict kvs] None []); [| simpl; lia].
    cbn [batch_loop subscript]. rewrite Hci, Hty. cbn [bind]. rewrite Hinv.
    cbn [bind]. unfold clean_result_of.
    destruct (get (PDict kvs) "id" (PStr "")) as [id |] eqn:Hid;
      [| cbn in Hid; destruct (dict_lookup kvs "id"); discriminate Hid].
    cbn [bind subscript get contains_key dict_lookup String.eqb Ascii.eqb Bool.eqb].
    fold (get p "call_type" PNone). rewrite (get_non_dict p _ _ Hd).
    reflexivity.
Qed.

Lemma non_dict_primary_breaks_batch_witness :
  let self := evaluator_of ["BILLING"]
                (fun _ => Ok (PList [PStr "BILLING"]))
                (fun _ => Ok billing) (fun _ => Ok (PStr "yes")) in
  returns (RobustEvaluator_invoke self (PStr "my bill is wrong"))
          (PStr "BILLING") "medium" false /\
  batch_evaluate self
    [PDict [("customer_input", PStr "my bill is wrong"); ("type", PStr "BILLING")]]
    None = Raise IndexError.
Proof.
  apply (non_dict_primary_breaks_batch ["BILLING"]
           (fun _ => Ok (PList [PStr "BILLING"]))
           (fun _ => Ok billing) (fun _ => Ok (PStr "yes"))
           [("customer_input", PStr "my bill is wrong"); ("type", PStr "BILLING")]
           [("call_type", PStr "BILLING")]
           (PStr "my bill is wrong") (PStr "BILLING")
           (PList [PStr "BILLING"]) (PStr "yes"));
    try reflexivity.
  discriminate.
Defined.

(** ** The scripts' main loops *)

Lemma run_robust_clean_result_has_label
  (call customer_input actual_type result clean : pyval) :
  run_robust_clean_result call customer_input actual_type result = Ok clean ->
  has_label clean.
Proof.
  unfold run_robust_clean_result. intro H. bind_cases H;
    injection H as <-; eexists; reflexivity.
Qed.

Lemma run_robust_loop_invariant (classify : pyval -> pyres pyval)
  (calls acc results : list pyval) :
  run_robust_loop classify calls acc = Ok results ->
  Forall has_type calls /\
  (Forall has_label acc -> Forall has_label results) /\
  length results <= length acc + length calls.
Proof.
  revert acc. induction calls as [| call calls IH]; intros acc H.
  - injection H as <-. repeat split; [constructor | auto | simpl; lia].
  - cbn [run_robust_loop] in H.
    apply bind_Ok_inv in H as (ci & _ & H).
    apply bind_Ok_inv in H as (ty & Hty & H).
    assert (Htype : has_type call) by now exists ty.
    destruct (classify ci) as [result |]; cbn [bind try_except] in H.
    + destruct (run_robust_clean_result call ci ty result) as [clean |] eqn:Hclean;
        cbn [bind try_except] in H.
      * apply IH in H as (Hc & Hl & Hn). repeat split.
        -- now constructor.
        -- intro Hacc. apply Hl. apply Forall_app. split; [exact Hacc |].
           constructor; [| constructor].
           exact (run_robust_clean_result_has_label _ _ _ _ _ Hclean).
        -- rewrite length_app in Hn. simpl in *. lia.
      * apply IH in H as (Hc & Hl & Hn). repeat split;
          [now constructor | exact Hl | simpl; lia].
    + apply IH in H as (Hc & Hl & Hn). repeat split;
        [now constructor | exact Hl | simpl; lia].
Qed.

(** run_robust_evaluation.py has the defect of batch_evaluate: when its
    loop drops a call (classify raised, the verdict has no call_type, or
    the call record has no id, which this script reads with a subscript),
    evaluate_accuracy is still run over all calls and main ends in
    IndexError before any report is written. *)
Theorem run_robust_main_dropped_item (classify : pyval -> pyres pyval)
  (calls : list pyval) (limit : option Z) (results : list pyval) :
  let calls' := match limit with
                | Some l => if (l =? 0)%Z then calls else slice_to calls l
                | None => calls
                end in
  run_robust_loop classify calls' [] = Ok results ->
  length results < length calls' ->
  run_robust_main classify calls limit = Raise IndexError.
Proof.
  cbv zeta. intros Hloop Hlt. unfold run_robust_main.
  rewrite Hloop. cbn [bind].
  apply run_robust_loop_invariant in Hloop as (Hc & Hl & _).
  unfold evaluate_accuracy.
  rewrite aggregate_short_results;
    [reflexivity | exact Hc | exact (Hl (Forall_nil _)) | exact Hlt].
Qed.

Lemma run_robust_main_dropped_item_witness :
  run_robust_main (fun _ => Ok (verdict_with (PStr "BILLING") "high"))
    [PDict [("customer_input", PStr "my bill is wrong"); ("type", PStr "BILLING")]]
    None = Raise IndexError.
Proof.
  apply (run_robust_main_dropped_item
           (fun _ => Ok (verdict_with (PStr "BILLING") "high"))
           [PDict [("customer_input", PStr "my bill is wrong");
                   ("type", PStr "BILLING")]] None []).
  - reflexivity.
  - simpl. lia.
Defined.

Lemma main_loop_invariant (classify : pyval -> pyres pyval)
  (calls predictions results out_p out_r : list pyval) :
  EvaluateCalls.main_loop classify calls predictions results = Ok (out_p, out_r) ->
  Forall has_type calls /\
  length out_p <= length predictions + length calls /\
  (length results <= length predictions -> length out_r <= length out_p).
Proof.
  revert predictions results.
  induction calls as [| call calls IH]; intros predictions results H.
  - injection H as <- <-. repeat split; [constructor | simpl; lia | auto].
  - cbn [EvaluateCalls.main_loop] in H.
    apply bind_Ok_inv in H as (ci & _ & H).
    apply bind_Ok_inv in H as (ty & Hty & H).
    assert (Htype : has_type call) by now exists ty.
    destruct (classify ci) as [predicted |].
    + destruct (subscript call "id") as [id |];
        apply IH in H as (Hc & Hp & Hr); rewrite !length_app in *;
        cbn [length] in *;
        (repeat split; [now constructor | lia | intro; apply Hr; lia]).
    + apply IH in H as (Hc & Hp & Hr). cbn [length].
      repeat split; [now constructor | lia | exact Hr].
Qed.

Lemma evaluate_calls_category_loop_succeeds (calls predictions : list pyval)
  (categories : list string) (acc : list (string * category_metric)) :
  Forall has_type calls -> length calls <= length predictions ->
  succeeds (EvaluateCalls.category_loop calls predictions (length calls)
              categories acc).
Proof.
  intros Hc Hlen. revert acc.
  assert (Hcount : forall f g,
             succeeds (count_if (seq 0 (length calls)) (fun i =>
               pand (a <- actual_at calls i ;; Ok (f a))
                    (p <- index predictions i ;; Ok (g p))))).
  { intros f g. apply count_if_succeeds. intros i Hi. apply in_seq in Hi.
    destruct (actual_at_succeeds calls i Hc) as [a Ha]; [lia |].
    unfold pand, index. rewrite Ha.
    destruct (nth_error predictions i) as [p |] eqn:Ep;
      [| apply nth_error_None in Ep; lia].
    cbn [bind]. destruct (f a); apply succeeds_Ok. }
  induction categories as [| c cs IH]; intro acc;
    cbn [EvaluateCalls.category_loop]; [apply succeeds_Ok |].
  apply succeeds_bind; [| intros m _; apply IH].
  unfold EvaluateCalls.category_metric_of.
  apply succeeds_bind; [apply (Hcount (fun a => eq a (PStr c)) (fun p => eq p (PStr c))) | intros tp _].
  apply succeeds_bind; [apply (Hcount (fun a => eq a (PStr c)) (fun p => negb (eq p (PStr c)))) | intros fn _].
  apply succeeds_bind; [apply (Hcount (fun a => negb (eq a (PStr c))) (fun p => eq p (PStr c))) | intros fp _].
  rewrite !ratio_or_zero_value. cbn [bind]. rewrite f1_or_zero_value.
  apply succeeds_Ok.
Qed.

(** evaluate_calls.py: once its loop has run, main returns a report exactly
    when every call got a prediction, and ends in IndexError when classify
    failed on at least one call. A call record without id keeps its
    prediction and only loses its result record, so the results can be
    fewer than the predictions. *)
Theorem evaluate_calls_main_all_or_nothing (classify : pyval -> pyres pyval)
  (calls : list pyval) (limit : option Z) (predictions results : list pyval) :
  let calls' := match limit with
                | Some l => if (l =? 0)%Z then calls else slice_to calls l
                | None => calls
                end in
  EvaluateCalls.main_loop classify calls' [] [] = Ok (predictions, results) ->
  length results <= length predictions /\
  (length predictions = length calls' ->
   exists report,
     EvaluateCalls.main classify calls limit = Ok (results, report) /\
     EvaluateCalls.total report = length calls') /\
  (length predictions <> length calls' ->
   EvaluateCalls.main classify calls limit = Raise IndexError).
Proof.
  cbv zeta. intro Hloop.
  pose proof (main_loop_invariant _ _ _ _ _ _ Hloop) as (Hc & Hp & Hr).
  cbn [length] in Hp, Hr.
  split; [apply Hr; lia |].
  unfold EvaluateCalls.main. rewrite Hloop. cbn [bind fst snd].
  unfold EvaluateCalls.evaluate_accuracy.
  split; intro Hlen.
  - destruct (count_if_succeeds
                (seq 0 (length (match limit with
                                | Some l => if (l =? 0)%Z then calls
                                            else slice_to calls l
                                | None => calls
                                end)))
                (EvaluateCalls.is_correct
                   (match limit with
                    | Some l => if (l =? 0)%Z then calls else slice_to calls l
                    | None => calls
                    end) predictions)) as [correct ->].
    { intros i Hi. apply in_seq in Hi.
      destruct (actual_at_succeeds _ i Hc) as [a Ha]; [lia |].
      unfold EvaluateCalls.is_correct, index. rewrite Ha.
      destruct (nth_error predictions i) as [p |] eqn:Ep;
        [| apply nth_error_None in Ep; lia].
      apply succeeds_Ok. }
    cbn [bind]. rewrite ratio_or_zero_value. cbn [bind].
    destruct (evaluate_calls_category_loop_succeeds _ predictions CALL_TYPES []
                Hc) as [cms ->]; [lia |].
    cbn [bind]. eexists. split; reflexivity.
  - rewrite (count_if_seq_raise _ IndexError _ 0 (length predictions)).
    + reflexivity.
    + lia.
    + intros i Hi.
      destruct (actual_at_succeeds _ i Hc) as [a Ha]; [lia |].
      unfold EvaluateCalls.is_correct, index. rewrite Ha.
      destruct (nth_error predictions i) as [p |] eqn:Ep;
        [| apply nth_error_None in Ep; lia].
      cbn [bind]. eexists. reflexivity.
    + destruct (actual_at_succeeds _ (length predictions) Hc) as [a Ha]; [lia |].
      unfold EvaluateCalls.is_correct, index. rewrite Ha. cbn [bind].
      now rewrite (proj2 (nth_error_None predictions (length predictions))
                     (Nat.le_refl _)).
Qed.

Lemma evaluate_calls_main_all_or_nothing_witness :
  EvaluateCalls.main flaky_classify two_calls None = Raise IndexError /\
  exists report,
    EvaluateCalls.main (fun _ => Ok (PStr "BILLING"))
      [PDict [("customer_input", PStr "my bill is wrong"); ("type", PStr "BILLING")]]
      None = Ok ([], report) /\
    EvaluateCalls.total report = 1.
Proof.
  split.
  - destruct (evaluate_calls_main_all_or_nothing flaky_classify two_calls None
                [PStr "BILLING"]
                [PDict [("id", PStr "1"); ("customer_input", PStr "my bill is wrong");
                        ("actual_type", PStr "BILLING");
                        ("predicted_type", PStr "BILLING");
                        ("correct", PBool true)]])
      as (_ & _ & Hraise); [reflexivity |].
    apply Hraise. simpl. lia.
  - destruct (evaluate_calls_main_all_or_nothing (fun _ => Ok (PStr "BILLING"))
                [PDict [("customer_input", PStr "my bill is wrong");
                        ("type", PStr "BILLING")]] None
                [PStr "BILLING"] [])
      as (_ & Hok & _); [reflexivity |].
    apply Hok. reflexivity.
Defined.

(** ** example_usage.py: the categories of a data set *)

Lemma existsb_eq_PStr (s : string) (ss : list string) :
  existsb (eq (PStr s)) (map PStr ss) = true <-> In s ss.
Proof.
  rewrite existsb_exists. split.
  - intros (x & Hin & He). apply in_map_iff in Hin as (y & <- & Hy).
    cbn [eq] in He. apply String.eqb_eq in He. now subst.
  - intro Hin. exists (PStr s). split; [now apply in_map |].
    cbn [eq]. apply String.eqb_refl.
Qed.

Lemma type_set_strs (calls : list pyval) (seen : list string) :
  Forall str_typed calls -> NoDup seen ->
  exists ss,
    type_set calls (map PStr seen) = Ok (map PStr ss) /\
    NoDup ss /\
    (forall s, In s ss <->
               In s seen \/
               exists call, In call calls /\ subscript call "type" = Ok (PStr s)).
Proof.
  intro Hc. revert seen.
  induction Hc as [| call calls [t Ht] _ IH]; intros seen Hnd.
  - exists seen. split; [reflexivity |]. split; [exact Hnd |].
    intro s. split; [now left | intros [H | (c & [] & _)]; exact H].
  - cbn [type_set]. rewrite Ht. cbn [bind hashable].
    destruct (existsb (eq (PStr t)) (map PStr seen)) eqn:He.
    + apply existsb_eq_PStr in He.
      destruct (IH seen Hnd) as (ss & Hs & Hn & Hin).
      exists ss. split; [exact Hs |]. split; [exact Hn |].
      intro s. rewrite Hin. split.
      * intros [H | (c & Hc' & Hs')]; [now left |].
        right. exists c. split; [now right | exact Hs'].
      * intros [H | (c & [<- | Hc'] & Hs')]; [now left | | right; now exists c].
        rewrite Ht in Hs'. injection Hs' as <-. now left.
    + assert (Hnot : ~ In t seen).
      { intro H. apply existsb_eq_PStr in H. congruence. }
      change [PStr t] with (map PStr [t]). rewrite <- map_app.
      destruct (IH (seen ++ [t])) as (ss & Hs & Hn & Hin).
      { apply NoDup_app; [exact Hnd | repeat constructor; intros [] |].
        intros x Hx [<- | []]. contradiction. }
      exists ss. split; [exact Hs |]. split; [exact Hn |].
      intro s. rewrite Hin, in_app_iff. cbn [In]. split.
      * intros [[H | [<- | []]] | (c & Hc' & Hs')].
        -- now left.
        -- right. exists call. split; [now left | exact Ht].
        -- right. exists c. split; [now right | exact Hs'].
      * intros [H | (c & [<- | Hc'] & Hs')].
        -- left. now left.
        -- rewrite Ht in Hs'. injection Hs' as <-. left. right. now left.
        -- right. now exists c.
Qed.

Lemma ltb_false_gt (x y : string) :
  String.ltb x y = false -> x <> y -> str_lt y x.
Proof.
  unfold String.ltb. intros Hlt Hne.
  apply OrderedTypeEx.String_as_OT.cmp_lt.
  rewrite OrderedTypeEx.String_as_OT.cmp_antisym.
  unfold OrderedTypeEx.String_as_OT.cmp.
  destruct (String.compare x y) eqn:Hc; try discriminate Hlt; [| reflexivity].
  apply String.compare_eq_iff in Hc. contradiction.
Qed.

Lemma ltb_true_lt (x y : string) : String.ltb x y = true -> str_lt x y.
Proof.
  unfold String.ltb. intro H. apply OrderedTypeEx.String_as_OT.cmp_lt.
  unfold OrderedTypeEx.String_as_OT.cmp.
  destruct (String.compare x y); try discriminate H. reflexivity.
Qed.

Lemma insert_sorted_strs (x : string) (l : list string) :
  Sorted.StronglySorted str_lt l -> ~ In x l ->
  exists l',
    insert_sorted (PStr x) (map PStr l) = Ok (map PStr l') /\
    Sorted.StronglySorted str_lt l' /\
    (forall s, In s l' <-> s = x \/ In s l).
Proof.
  intros Hs Hx. induction Hs as [| y l Hs IH Hy].
  - exists [x]. split; [reflexivity |]. split; [repeat constructor |].
    intro s. cbn [In]. split; [intros [<- | []]; now left | intros [-> | []]; now left].
  - cbn [map insert_sorted hashable_lt bind].
    destruct (String.ltb x y) eqn:Hlt.
    + exists (x :: y :: l). split; [reflexivity |]. split.
      * apply ltb_true_lt in Hlt.
        constructor; [now constructor |].
        constructor; [exact Hlt |].
        eapply Forall_impl; [| exact Hy]. intros z Hz.
        exact (OrderedTypeEx.String_as_OT.lt_trans _ _ _ Hlt Hz).
      * intro s. cbn [In]. split; [intros [<- | H]; auto | intros [-> | H]; auto].
    + assert (Hyx : str_lt y x).
      { apply ltb_false_gt; [exact Hlt |]. intros ->. apply Hx. now left. }
      destruct IH as (l' & Hl' & Hs' & Hin); [intro H; apply Hx; now right |].
      rewrite Hl'. cbn [bind]. exists (y :: l').
      split; [reflexivity |]. split.
      * constructor; [exact Hs' |].
        apply Forall_forall. intros z Hz. apply Hin in Hz as [-> | Hz];
          [exact Hyx |].
        rewrite Forall_forall in Hy. now apply Hy.
      * intro s. cbn [In]. rewrite Hin. tauto.
Qed.

Lemma py_sorted_strs (ss : list string) :
  NoDup ss ->
  exists ss',
    py_sorted (map PStr ss) = Ok (map PStr ss') /\
    Sorted.StronglySorted str_lt ss' /\
    (forall s, In s ss' <-> In s ss).
Proof.
  induction 1 as [| x ss Hx Hnd IH].
  - exists []. split; [reflexivity |]. split; [constructor | tauto].
  - destruct IH as (l & Hl & Hs & Hin).
    cbn [map py_sorted]. rewrite Hl. cbn [bind].
    destruct (insert_sorted_strs x l Hs) as (l' & Hl' & Hs' & Hin').
    { intro H. apply Hx. now apply Hin. }
    exists l'. split; [exact Hl' |]. split; [exact Hs' |].
    intro s. rewrite Hin', Hin. cbn [In]. split; intros [H | H]; auto.
Qed.

(** On call records whose types are strings, extract_categories_from_data
    returns the types that occur in the data, each once, in strictly
    increasing code-point order. *)
Theorem extracted_categories_sorted_unique (calls : list pyval) :
  Forall str_typed calls ->
  exists ss,
    extract_categories_from_data calls = Ok (map PStr ss) /\
    Sorted.StronglySorted str_lt ss /\
    (forall s, In s ss <->
               exists call, In call calls /\ subscript call "type" = Ok (PStr s)).
Proof.
  intro Hc. unfold extract_categories_from_data.
  destruct (type_set_strs calls [] Hc (NoDup_nil _)) as (ss & Hs & Hnd & Hin).
  cbn [map] in Hs. rewrite Hs. cbn [bind].
  destruct (py_sorted_strs ss Hnd) as (ss' & Hs' & Hsorted & Hin').
  exists ss'. split; [exact Hs' |]. split; [exact Hsorted |].
  intro s. rewrite Hin', Hin. cbn [In]. tauto.
Qed.

Lemma extracted_categories_sorted_unique_witness :
  exists ss,
    extract_categories_from_data
      (two_calls ++ [PDict [("id", PStr "3"); ("type", PStr "ABATEMENT")]])
    = Ok (map PStr ss) /\
    Sorted.StronglySorted str_lt ss.
Proof.
  destruct (extracted_categories_sorted_unique
              (two_calls ++ [PDict [("id", PStr "3"); ("type", PStr "ABATEMENT")]]))
    as (ss & Hs & Hsorted & _).
  - repeat constructor; eexists; reflexivity.
  - exists ss. split; [exact Hs | exact Hsorted].
Defined.

(** A data set that mixes string types with another kind of type (None,
    a number) has no category list: with two or more different types,
    sorted meets a pair that does not compare and
    extract_categories_from_data raises TypeError; a type that is a list
    or a dictionary raises TypeError when it is hashed. *)
Theorem extracted_categories_type_errors (kvs1 kvs2 : list (string * pyval))
  (s : string) (t : pyval) :
  dict_lookup kvs1 "type" = Some (PStr s) ->
  dict_lookup kvs2 "type" = Some t ->
  (forall x, t <> PStr x) ->
  extract_categories_from_data [PDict kvs1; PDict kvs2] = Raise TypeError.
Proof.
  intros H1 H2 Ht. unfold extract_categories_from_data.
  cbn [type_set subscript]. rewrite H1, H2.
  cbn [bind hashable existsb app].
  destruct t as [| b | n | x | xs | d]; cbn [hashable eq orb];
    try reflexivity.
  exfalso. now apply (Ht x).
Qed.

Lemma extracted_categories_type_errors_witness :
  extract_categories_from_data
    [PDict [("type", PStr "BILLING")]; PDict [("type", PNone)]]
  = Raise TypeError.
Proof.
  apply (extracted_categories_type_errors
           [("type", PStr "BILLING")] [("type", PNone)] "BILLING" PNone);
    [reflexivity | reflexivity | discriminate].
Defined.

(** ** Metrics aggregator: the guards of the quotients on every batch *)

Lemma count_if_split_left {A : Type} (xs : list A) (pa pp : A -> pyres pyval)
  (f g : pyval -> bool) (n1 n2 : nat) :
  count_if xs (fun i => pand (a <- pa i ;; Ok (f a)) (p <- pp i ;; Ok (g p)))
  = Ok n1 ->
  count_if xs (fun i => pand (a <- pa i ;; Ok (negb (f a)))
                             (p <- pp i ;; Ok (g p)))
  = Ok n2 ->
  count_if xs (fun i => p <- pp i ;; Ok (g p)) = Ok (n1 + n2).
Proof.
  revert n1 n2. induction xs as [| x xs IH]; intros n1 n2 H1 H2;
    cbn [count_if] in *.
  - injection H1 as <-. injection H2 as <-. reflexivity.
  - apply bind_Ok_inv in H1 as (b1 & Hb1 & H1).
    apply bind_Ok_inv in H1 as (m1 & Hm1 & H1). injection H1 as <-.
    apply bind_Ok_inv in H2 as (b2 & Hb2 & H2).
    apply bind_Ok_inv in H2 as (m2 & Hm2 & H2). injection H2 as <-.
    rewrite (IH _ _ Hm1 Hm2). unfold pand in Hb1, Hb2.
    destruct (pa x) as [a |]; cbn [bind] in *; [| discriminate Hb1].
    destruct (f a); cbn [negb] in *;
      (destruct (pp x) as [p |]; cbn [bind] in *;
       [| first [discriminate Hb1 | discriminate Hb2]]);
      injection Hb1 as <-; injection Hb2 as <-;
      destruct (g p); f_equal; lia.
Qed.

Lemma count_predicted_support (results : list pyval) (c : string) (n k : nat) :
  count_if (seq 0 n)
    (fun i => p <- predicted_at results i ;; Ok (eq p (PStr c))) = Ok k ->
  k = length (filter (fun result =>
                        match subscript result "call_type" with
                        | Ok p => eq p (PStr c)
                        | Raise _ => false
                        end) (firstn n results)).
Proof.
  revert n k. induction results as [| r rs IH]; intros n k H.
  - destruct n as [| n]; [injection H as <-; reflexivity |].
    cbn [seq count_if] in H. discriminate H.
  - destruct n as [| n]; [injection H as <-; reflexivity |].
    cbn [seq count_if] in H.
    apply bind_Ok_inv in H as (b & Hb & H).
    apply bind_Ok_inv in H as (m & Hm & H). injection H as <-.
    rewrite <- seq_shift, count_if_map in Hm.
    rewrite (count_if_ext _ _
               (fun i => p <- predicted_at rs i ;; Ok (eq p (PStr c)))) in Hm
      by reflexivity.
    apply IH in Hm. subst m.
    unfold predicted_at, index in Hb. cbn [nth_error bind] in Hb.
    cbn [firstn filter].
    destruct (subscript r "call_type") as [p |]; cbn [bind] in Hb;
      [| discriminate Hb].
    injection Hb as <-. destruct (eq p (PStr c)); reflexivity.
Qed.

Lemma category_metric_of_guards (calls results : list pyval) (c : string)
  (m : category_metric) :
  category_metric_of calls results (length calls) c = Ok m ->
  (predicted_support calls results c = 0 -> cm_precision m = 0%Q) /\
  (support calls c = 0 -> cm_recall m = 0%Q) /\
  ((cm_precision m + cm_recall m == 0)%Q -> cm_f1 m = 0%Q).
Proof.
  unfold category_metric_of. intro H.
  apply bind_Ok_inv in H as (tp & Htp & H).
  apply bind_Ok_inv in H as (fn & Hfn & H).
  apply bind_Ok_inv in H as (fp & Hfp & H).
  apply bind_Ok_inv in H as (precision & Hprec & H).
  apply bind_Ok_inv in H as (recall & Hrec & H).
  apply bind_Ok_inv in H as (f1 & Hf1 & H).
  injection H as <-. cbn [cm_precision cm_recall cm_f1].
  pose proof (count_predicted_support _ _ _ _
                (count_if_split_left _ _ _ _ _ _ _ Htp Hfp)) as Hps.
  pose proof (count_actual_support _ _ _
                (count_if_split _ _ _ _ _ _ _ Htp Hfn)) as Hs.
  fold (predicted_support calls results c) in Hps.
  split; [| split].
  - intro Hz. rewrite <- Hps in Hz. rewrite Hz in Hprec.
    rewrite ratio_or_zero_zero_den in Hprec. now injection Hprec as <-.
  - intro Hz. rewrite <- Hs in Hz. rewrite Hz in Hrec.
    rewrite ratio_or_zero_zero_den in Hrec. now injection Hrec as <-.
  - intro Hz. rewrite (f1_or_zero_zero_den _ _ Hz) in Hf1.
    now injection Hf1 as <-.
Qed.

Lemma tier_accuracy_guards (d : list (string * (nat * nat)))
  (tms : list (string * tier_metric)) :
  tier_accuracy d = Ok tms ->
  forall t m, In (t, m) tms -> tm_count m = 0 -> tm_accuracy m = 0%Q.
Proof.
  revert tms. induction d as [| [k [n c]] d IH]; intros tms H;
    cbn [tier_accuracy] in H.
  - injection H as <-. intros t m [].
  - apply bind_Ok_inv in H as (accuracy & Hacc & H).
    apply bind_Ok_inv in H as (rest & Hrest & H). injection H as <-.
    intros t m [[= <- <-] | Hin]; [| now apply (IH rest Hrest t m)].
    cbn [tm_count tm_accuracy]. intros ->.
    rewrite ratio_or_zero_zero_den in Hacc. now injection Hacc as <-.
Qed.

Lemma aggregate_guards (calls results : list pyval) (categories : list string)
  (r : MetricsReport) :
  aggregate calls results categories = Ok r -> quotient_guards calls results r.
Proof.
  intro H.
  apply aggregate_inv in H
    as (correct & accuracy & cms & counted & tms & nh & pct &
        _ & Hacc & Hcms & _ & Htms & _ & Hpct & ->).
  unfold quotient_guards.
  cbn [overall_accuracy human_review_percentage category_metrics
       confidence_metrics].
  split; [| split].
  - intro Hz. rewrite Hz, ratio_or_zero_zero_den in Hacc, Hpct.
    injection Hacc as <-. injection Hpct as <-. split; reflexivity.
  - intros c m Hin.
    apply category_loop_entries in Hcms as [Hent _]; [| intros k m' []].
    apply category_metric_of_guards. now apply Hent.
  - exact (tier_accuracy_guards _ _ Htms).
Qed.

(** C7. On the empty batch both aggregators return the all-zero report:
    accuracy 0, every category metric 0, every tier count and accuracy 0,
    human-review count and percentage 0. On every batch for which an
    aggregator returns a report, every quotient of the report is 0 when
    its denominator is 0: the accuracy and the human-review percentage
    when there are no calls, the precision of a category that no result
    predicts, the recall of a category that no call has, the F1 when
    precision plus recall is 0, the accuracy of a tier without results.
    The guarded quotient expressions evaluate on all counts, and no path
    of either aggregator raises ZeroDivisionError. Quotients are exact
    rationals here, so no NaN exists in the model. *)
Theorem aggregator_zero_guards :
  (forall categories : option (list string),
     exists r,
       EvaluationMetrics_invoke
         {| mi_calls := []; mi_results := []; mi_categories := categories |} = Ok r /\
       zero_report (match categories with Some c => c | None => [] end) r) /\
  (exists r, evaluate_accuracy [] [] = Ok r /\ zero_report CALL_TYPES r) /\
  (forall (inputs : metrics_inputs) (r : MetricsReport),
     EvaluationMetrics_invoke inputs = Ok r ->
     quotient_guards (mi_calls inputs) (mi_results inputs) r) /\
  (forall (calls results : list pyval) (r : MetricsReport),
     evaluate_accuracy calls results = Ok r ->
     quotient_guards calls results r) /\
  (forall num : nat, ratio_or_zero num 0 = Ok 0%Q) /\
  (forall num den : nat, exists q, ratio_or_zero num den = Ok q) /\
  (forall p r : Q, (p + r == 0)%Q -> f1_or_zero p r = Ok 0%Q) /\
  (forall p r : Q, exists q, f1_or_zero p r = Ok q) /\
  (forall inputs : metrics_inputs,
     EvaluationMetrics_invoke inputs <> Raise ZeroDivisionError) /\
  (forall calls results : list pyval,
     evaluate_accuracy calls results <> Raise ZeroDivisionError).
Proof.
  destruct aggregator_empty_and_no_zde
    as (H1 & H2 & H3 & H4 & H5 & H6 & H7 & H8).
  repeat apply conj; try assumption.
  - intros inputs r. apply aggregate_guards.
  - intros calls results r. apply aggregate_guards.
Qed.

Lemma aggregator_zero_guards_witness :
  match evaluate_accuracy two_calls [sample_result; sample_result] with
  | Ok r =>
      exists m, dict_lookup (category_metrics r) "CLAIMS" = Some m /\
                cm_precision m = 0%Q /\ cm_recall m = 0%Q /\ cm_f1 m = 0%Q
  | Raise _ => False
  end.
Proof.
  destruct (evaluate_accuracy two_calls [sample_result; sample_result])
    as [r | e] eqn:H.
  - destruct aggregator_zero_guards as (_ & _ & _ & Hscript & _).
    destruct (Hscript two_calls [sample_result; sample_result] r H)
      as (_ & Hcat & _).
    vm_compute in H. injection H as <-.
    eexists. split; [reflexivity |].
    match goal with
    | |- cm_precision ?m = _ /\ _ =>
        destruct (Hcat "CLAIMS" m) as (Hp & Hr & Hf)
    end.
    + apply dict_lookup_In. reflexivity.
    + split; [apply Hp; reflexivity |].
      split; [apply Hr; reflexivity | apply Hf; reflexivity].
  - vm_compute in H. discriminate H.
Defined.
